(** * agentmemory: the PostgreSQL collection layer ([agentmemory/postgres.py])

    The Python classes [PostgresCollection] and [PostgresClient] are embedded
    as functions in a state-and-exception monad.  The state is the content of
    the database (the tables of the public schema) together with the list of
    statements that reached the storage engine through [cursor.execute].

    The storage engine itself is an external collaborator of the program; the
    function [run] gives the meaning of exactly the statements the client
    issues.  The embedding model ([infer_embeddings]) and the distance
    operator [<->] of pgvector are parameters of the development.

    What the engine decides and [postgres.py] does not determine is a
    parameter as well: the order of rows at equal distance, the reading of
    a text parameter as an integer, the text form of a vector.

    Outside the model: the range of the engine's integers except where the
    source writes a cast ([::int[]] in [delete]), its reserved words, names
    that are not identifiers (see [Ident]), the order of rows beyond the one
    kept here (insertion order, an updated row after the rows that were not
    updated), and the state of the connection's transaction after an engine
    error.  The state kept after an exception is the one the session has
    reached: [PostgresClient.add] commits only after its loop, so rows it
    inserted before a failing statement are in this state although they
    are not committed. *)

From Stdlib Require Import ZArith QArith String Ascii List Lia.
From stdpp Require Import gmap strings list sorting pretty.

Open Scope string_scope.
Open Scope list_scope.
Open Scope Z_scope.

(** ** Python strings

    A [str] is modelled as a [string] of 8-bit characters; characters
    above 127 are neither digits nor white space here. *)

Module PyStr.

Definition is_digit (a : ascii) : bool :=
  let n := nat_of_ascii a in (48 <=? n)%nat && (n <=? 57)%nat.

(** White space as [int()] strips it: TAB, LF, VT, FF, CR, SPACE. *)
Definition is_space (a : ascii) : bool :=
  let n := nat_of_ascii a in
  ((9 <=? n)%nat && (n <=? 13)%nat) || (n =? 32)%nat.

Definition digit_value (a : ascii) : Z := Z.of_nat (nat_of_ascii a) - 48.

Fixpoint lstrip (cs : list ascii) : list ascii :=
  match cs with
  | c :: cs' => if is_space c then lstrip cs' else cs
  | [] => []
  end.

Definition strip (cs : list ascii) : list ascii :=
  rev (lstrip (rev (lstrip cs))).

(** Digits of an integer literal: a digit, then digits each optionally
    preceded by one underscore.  [prev] tells whether the previous
    character was a digit (an underscore is only legal after a digit and
    before another one). *)
Fixpoint digits_go (prev : bool) (acc : Z) (cs : list ascii) : option Z :=
  match cs with
  | [] => if prev then Some acc else None
  | c :: cs' =>
      if is_digit c then digits_go true (10 * acc + digit_value c) cs'
      else if Ascii.eqb c "_" then
        (if prev then digits_go false acc cs' else None)
      else None
  end.

(** [int(s)] for a [str] argument; [None] stands for [ValueError]. *)
Definition int_of_str (s : string) : option Z :=
  match strip (list_ascii_of_string s) with
  | c :: cs =>
      if Ascii.eqb c "-" then Z.opp <$> digits_go false 0 cs
      else if Ascii.eqb c "+" then digits_go false 0 cs
      else digits_go false 0 (c :: cs)
  | [] => None
  end.

(** [s.isdigit()]: non-empty and made of digits only. *)
Definition isdigit (s : string) : bool :=
  match list_ascii_of_string s with
  | [] => false
  | cs => forallb is_digit cs
  end.

(** [s.startswith(p)]. *)
Definition startswith (p s : string) : bool := String.prefix p s.

(** [s.split(sep)] for a one-character separator: the pieces between the
    occurrences of [sep]; never empty. *)
Fixpoint split_go (sep : ascii) (cur : list ascii) (cs : list ascii)
  : list string :=
  match cs with
  | [] => [string_of_list_ascii (rev cur)]
  | c :: cs' =>
      if Ascii.eqb c sep
      then string_of_list_ascii (rev cur) :: split_go sep [] cs'
      else split_go sep (c :: cur) cs'
  end.

Definition split (sep : ascii) (s : string) : list string :=
  split_go sep [] (list_ascii_of_string s).

End PyStr.


(** ** Values

    A [Scalar] is a value a caller passes in an id list or as a metadata
    value: [None], an [int] or a [str]. *)

Inductive Scalar : Type :=
| SNone
| SInt (z : Z)
| SStr (s : string).

#[global] Instance Scalar_eq_dec : EqDecision Scalar.
Proof. solve_decision. Defined.

(** A metadata mapping as the caller passes it: a [dict] with [str] keys,
    kept in insertion order. *)
Definition Dict : Type := list (string * Scalar).

(** Python truthiness of the arguments the code tests with [if x] / [not x]. *)
Definition truthy_list {A} (l : option (list A)) : bool :=
  match l with
  | None | Some [] => false
  | Some (_ :: _) => true
  end.

Definition truthy_str (s : option string) : bool :=
  match s with
  | None | Some "" => false
  | Some _ => true
  end.

(** [isinstance(i, str) or isinstance(i, int)]. *)
Definition is_str_or_int (i : Scalar) : bool :=
  match i with
  | SNone => false
  | SInt _ | SStr _ => true
  end.

(** [str(i)]. *)
Definition py_str (i : Scalar) : string :=
  match i with
  | SNone => "None"
  | SInt z => pretty z
  | SStr s => s
  end.

(** ** Identifiers of the storage engine

    A name spliced into a statement is read by the engine as an unquoted
    identifier: a letter or underscore followed by letters, digits,
    underscores and dollar signs, the letters [A-Z] folded to lower case; a
    character above 127 counts as a letter and is kept as it is.  (Key-word
    reservation and truncation to 63 bytes are not part of this model.)

    A name that is not an identifier is text of the statement like any
    other.  The model answers it with a syntax error, which is what the
    engine does with a space or a leading digit; it does not follow text
    that ends the statement and starts another one.  A property that is
    meant for every name therefore assumes that the names it splices are
    identifiers. *)

Module Ident.

Definition is_lower (a : ascii) : bool :=
  let n := nat_of_ascii a in (97 <=? n)%nat && (n <=? 122)%nat.
Definition is_upper (a : ascii) : bool :=
  let n := nat_of_ascii a in (65 <=? n)%nat && (n <=? 90)%nat.

Definition is_high (a : ascii) : bool := (128 <=? nat_of_ascii a)%nat.

Definition is_start (a : ascii) : bool :=
  is_lower a || is_upper a || Ascii.eqb a "_" || is_high a.
Definition is_part (a : ascii) : bool :=
  is_start a || PyStr.is_digit a || Ascii.eqb a "$".

Definition lower (a : ascii) : ascii :=
  if is_upper a then ascii_of_nat (nat_of_ascii a + 32) else a.

Fixpoint fold_case (s : string) : string :=
  match s with
  | EmptyString => EmptyString
  | String a s' => String (lower a) (fold_case s')
  end.

Definition parse (s : string) : option string :=
  match s with
  | EmptyString => None
  | String a s' =>
      if is_start a && forallb is_part (list_ascii_of_string s')
      then Some (fold_case s) else None
  end.

End Ident.

(** The columns every category table is created with, and the system
    columns every table of the engine carries. *)
Definition base_columns : list string := ["id"; "document"; "embedding"].
Definition system_columns : list string :=
  ["tableoid"; "cmax"; "xmax"; "cmin"; "xmin"; "ctid"].

(** Errors of the storage engine, as the driver reports them. *)
Inductive EngineErr : Type :=
| SyntaxError
| UndefinedTable
| UndefinedColumn
| DuplicateColumn
| UniqueViolation
| NotNullViolation
| DataError
| UndefinedFunction
| SystemColumn
| InvalidRowCount
| NumericValueOutOfRange.

#[global] Instance EngineErr_eq_dec : EqDecision EngineErr.
Proof. solve_decision. Defined.

(** Exceptions a call can end with. *)
Inductive Exn : Type :=
| PyException (msg : string)
| ValueError
| TypeError
| IndexError
| KeyError (k : string)
| AttributeError
| DatabaseError (e : EngineErr).

(** Ascending order of distances with NULL last. *)
Definition dist_le (a b : option Q) : Prop :=
  match a, b with
  | _, None => True
  | None, Some _ => False
  | Some x, Some y => (x <= y)%Q
  end.

#[global] Instance dist_le_dec a b : Decision (dist_le a b).
Proof.
  destruct a as [x|], b as [y|]; simpl.
  - unfold Qle. apply Z_le_dec.
  - left. exact I.
  - right. intros [].
  - left. exact I.
Defined.

(** ** The embedding provider and the engine's choices

    [infer_embeddings] of [agentmemory.check_model] and the vector type and
    distance operator of the engine are outside [postgres.py]; they are the
    parameters of the model.  A distance is a rational here.  So is what
    the engine is free to decide: in which order [ORDER BY] returns rows of
    equal distance, which texts it reads as an integer, and how it writes a
    vector as text. *)
Class EmbeddingProvider : Type := {
  Emb : Type;
  Emb_eq_dec :: EqDecision Emb;
  (** [infer_embeddings([document], model_path)[0]] *)
  infer_embedding : string -> Emb;
  (** the operator [<->] *)
  distance : Emb -> Emb -> Q;
  (** the engine's reading of a text literal as a vector *)
  vector_of_text : string -> option Emb;
  (** the text the engine writes a vector as: what a cursor without the
      vector type registered reads *)
  vector_text : Emb -> string;
  (** the engine's reading of a text literal as an integer *)
  int_of_text : string -> option Z;
  (** [ORDER BY key]: the rows in ascending order of the key, NULL last;
      the order among rows of equal key is the engine's *)
  order_by : forall A : Type, (A -> option Q) -> list A -> list A;
  order_by_Permutation :
    forall (A : Type) (key : A -> option Q) (l : list A),
      order_by A key l ≡ₚ l;
  order_by_Sorted :
    forall (A : Type) (key : A -> option Q) (l : list A),
      Sorted (fun a b => dist_le (key a) (key b)) (order_by A key l)
}.

(** ** The storage engine *)

Section Model.
Context `{EP : EmbeddingProvider}.

(** A value in a result row, as the driver hands it to Python. *)
Inductive Val : Type :=
| VNone
| VBool (b : bool)
| VInt (z : Z)
| VStr (s : string)
| VVec (e : Emb)
| VNum (q : Q).

(** A row of a category table.  [id] is the integer primary key,
    [document] is [TEXT NOT NULL], [embedding] is a nullable vector; a
    metadata column is nullable text, and a key missing from [r_meta] is a
    NULL in that column. *)
Record Row : Type := mkRow {
  r_id : Z;
  r_document : string;
  r_embedding : option Emb;
  r_meta : gmap string string
}.

(** A category table: its metadata columns in the order they were added
    (after [id], [document], [embedding]) and its rows. *)
Record Table : Type := mkTable {
  t_columns : list string;
  t_rows : list Row
}.

Definition empty_table : Table := mkTable [] [].

(** One condition of a [DELETE ... WHERE] with its parameter. *)
Inductive Cond : Type :=
| CondIdAny (ids : list Z)              (* id=ANY(%s::int[]) *)
| CondDocumentLike (pattern : string)   (* document LIKE %s *)
| CondEq (key : string) (value : Scalar). (* {key}=%s *)

(** The statements [postgres.py] sends, each with the names it splices
    into the text and the parameters it passes alongside. *)
Inductive Stmt : Type :=
(* CREATE TABLE IF NOT EXISTS {table_name}
     (id SERIAL PRIMARY KEY, document TEXT NOT NULL, embedding VECTOR(384)) *)
| CreateTableIfNotExists (table_name : string)
(* SELECT COUNT( * ) FROM {table_name} *)
| SelectCount (table_name : string)
(* SELECT EXISTS (SELECT 1 FROM pg_catalog.pg_attribute
     WHERE attrelid = %s::regclass AND attname = %s AND NOT attisdropped) *)
| SelectColumnExists (table_name key : string)
(* ALTER TABLE {table_name} ADD COLUMN {key} TEXT *)
| AlterTableAddColumn (table_name key : string)
(* SELECT table_name FROM information_schema.tables
     WHERE table_schema='public' *)
| SelectPublicTables
(* INSERT INTO {table_name} (id, document, embedding, {keys})
     VALUES (%s, ...) RETURNING id *)
| Insert (table_name : string) (id : Val) (document : string)
         (embedding : Emb) (metadata : Dict)
(* SELECT * FROM {table_name} LIMIT %s OFFSET %s *)
| SelectLimitOffset (table_name : string) (limit offset : Z)
(* SELECT * FROM {table_name} WHERE id=ANY(%s) LIMIT %s OFFSET %s *)
| SelectWhereIdAny (table_name : string) (ids : list Z) (limit offset : Z)
(* SELECT id, document, embedding, embedding <-> %s AS distance, *
     FROM {table_name} ORDER BY embedding <-> %s LIMIT %s *)
| SelectNearest (table_name : string) (query_emb : Emb) (limit : Z)
(* UPDATE {table_name} SET [document=%s, embedding=%s,] {key}=%s, ...
     WHERE id=%s *)
| Update (table_name : string) (document : option (string * Emb))
         (metadata : Dict) (id : Scalar)
(* DELETE FROM {table_name} WHERE {conditions joined by AND} *)
| Delete (table_name : string) (conditions : list Cond).

(** What the cursor holds after [execute]: [description] (the column
    names) and the rows [fetchall] / [fetchone] read. *)
Record ResultSet : Type := mkResultSet {
  description : list string;
  fetched : list (list Val)
}.

Definition no_rows : ResultSet := mkResultSet [] [].

Definition is_delete (s : Stmt) : bool :=
  match s with
  | Delete _ _ => true
  | _ => false
  end.

Definition Res (A : Type) : Type := (EngineErr + A)%type.

Definition and_then {A B} (r : Res A) (k : A -> Res B) : Res B :=
  match r with
  | inl e => inl e
  | inr a => k a
  end.

Fixpoint traverse {A B} (f : A -> Res B) (l : list A) : Res (list B) :=
  match l with
  | [] => inr []
  | a :: l' =>
      and_then (f a) (fun b =>
      and_then (traverse f l') (fun bs => inr (b :: bs)))
  end.

Definition ident (name : string) : Res string :=
  match Ident.parse name with
  | Some n => inr n
  | None => inl SyntaxError
  end.

Definition find_table (db : gmap string Table) (table_name : string)
  : Res (string * Table) :=
  and_then (ident table_name) (fun n =>
  match db !! n with
  | Some t => inr (n, t)
  | None => inl UndefinedTable
  end).

(** All column names of a table as the catalogue lists them. *)
Definition user_columns (t : Table) : list string :=
  base_columns ++ t_columns t.

(** A metadata key used as a target column of a write. *)
Definition target_column (t : Table) (key : string) : Res string :=
  and_then (ident key) (fun c =>
  if bool_decide (c ∈ user_columns t) then inr c
  else if bool_decide (c ∈ system_columns) then inl SystemColumn
  else inl UndefinedColumn).

(** Values converted on assignment to a column of the given type. *)
Definition text_of_scalar (v : Scalar) : option string :=
  match v with
  | SNone => None
  | SInt z => Some (pretty z)
  | SStr s => Some s
  end.

Definition int_of_scalar (v : Scalar) : Res (option Z) :=
  match v with
  | SNone => inr None
  | SInt z => inr (Some z)
  | SStr s =>
      match int_of_text s with
      | Some z => inr (Some z)
      | None => inl DataError
      end
  end.

Definition vector_of_scalar (v : Scalar) : Res (option Emb) :=
  match v with
  | SNone => inr None
  | SInt _ => inl DataError
  | SStr s =>
      match vector_of_text s with
      | Some e => inr (Some e)
      | None => inl DataError
      end
  end.

Definition emb_val (e : option Emb) : Val :=
  match e with
  | Some e => VVec e
  | None => VNone
  end.

(** A vector read through a cursor that has no vector type registered:
    the cursor [PostgresClient.query] opens. *)
Definition emb_text_val (e : option Emb) : Val :=
  match e with
  | Some e => VStr (vector_text e)
  | None => VNone
  end.

Definition text_val (s : option string) : Val :=
  match s with
  | Some s => VStr s
  | None => VNone
  end.

(** The row [SELECT *] returns, in column order. *)
Definition star (t : Table) (r : Row) : list Val :=
  [VInt (r_id r); VStr (r_document r); emb_val (r_embedding r)]
  ++ map (fun c => text_val (r_meta r !! c)) (t_columns t).

Definition limit_offset {A} (limit offset : Z) (l : list A) : Res (list A) :=
  if (limit <? 0) || (offset <? 0) then inl InvalidRowCount
  else inr (take (Z.to_nat limit) (drop (Z.to_nat offset) l)).

(** [embedding <-> query_emb]; NULL for a row without embedding. *)
Definition row_distance (query_emb : Emb) (r : Row) : option Q :=
  distance query_emb <$> r_embedding r.

Definition dist_val (d : option Q) : Val :=
  match d with
  | Some q => VNum q
  | None => VNone
  end.

(** The row the nearest-neighbour query returns:
    [id, document, embedding, distance, *]. *)
Definition nearest_row (t : Table) (query_emb : Emb) (r : Row) : list Val :=
  [VInt (r_id r); VStr (r_document r); emb_text_val (r_embedding r);
   dist_val (row_distance query_emb r)]
  ++ [VInt (r_id r); VStr (r_document r); emb_text_val (r_embedding r)]
  ++ map (fun c => text_val (r_meta r !! c)) (t_columns t).

(** [LIKE]: [%] matches any run of characters, [_] any one character, a
    backslash takes the next pattern character literally. *)
Fixpoint like (p s : list ascii) {struct p} : bool :=
  match p with
  | [] => match s with [] => true | _ => false end
  | c :: p' =>
      if Ascii.eqb c "%" then
        (fix any (s : list ascii) : bool :=
           like p' s || match s with [] => false | _ :: s' => any s' end) s
      else if Ascii.eqb c "_" then
        match s with [] => false | _ :: s' => like p' s' end
      else if Ascii.eqb c "\" then
        match p' with
        | [] => false
        | d :: p'' =>
            match s with
            | [] => false
            | x :: s' => Ascii.eqb x d && like p'' s'
            end
        end
      else
        match s with
        | [] => false
        | x :: s' => Ascii.eqb x c && like p' s'
        end
  end.

(** *** The meaning of each statement *)

Definition run_create (db : gmap string Table) (table_name : string)
  : Res (gmap string Table * ResultSet) :=
  and_then (ident table_name) (fun n =>
  match db !! n with
  | Some _ => inr (db, no_rows)
  | None => inr (<[n := empty_table]> db, no_rows)
  end).

Definition run_count (db : gmap string Table) (table_name : string)
  : Res (gmap string Table * ResultSet) :=
  and_then (find_table db table_name) (fun nt =>
  inr (db, mkResultSet ["count"]
             [[VInt (Z.of_nat (length (t_rows nt.2)))]])).

(** The catalogue test compares the key as given (it is a parameter, not
    spliced text) with the stored names, system columns included. *)
Definition run_column_exists (db : gmap string Table)
    (table_name key : string) : Res (gmap string Table * ResultSet) :=
  and_then (find_table db table_name) (fun nt =>
  inr (db, mkResultSet ["exists"]
             [[VBool (bool_decide
                        (key ∈ user_columns nt.2 ++ system_columns))]])).

Definition run_add_column (db : gmap string Table)
    (table_name key : string) : Res (gmap string Table * ResultSet) :=
  and_then (ident table_name) (fun n =>
  and_then (ident key) (fun c =>
  match db !! n with
  | None => inl UndefinedTable
  | Some t =>
      if bool_decide (c ∈ user_columns t ++ system_columns)
      then inl DuplicateColumn
      else inr (<[n := mkTable (t_columns t ++ [c]) (t_rows t)]> db, no_rows)
  end)).

Definition run_tables (db : gmap string Table)
  : Res (gmap string Table * ResultSet) :=
  inr (db, mkResultSet ["table_name"]
             (map (fun nt : string * Table => [VStr nt.1]) (map_to_list db))).

(** The metadata cells of a new row: one per key with a non-NULL value. *)
Definition meta_cells (cols : list string) (values : list Scalar)
  : gmap string string :=
  list_to_map
    (omap (fun cv : string * Scalar => (fun s => (cv.1, s)) <$> text_of_scalar cv.2)
          (zip cols values)).

Definition run_insert (db : gmap string Table) (table_name : string)
    (id : Val) (document : string) (embedding : Emb) (metadata : Dict)
  : Res (gmap string Table * ResultSet) :=
  and_then (ident table_name) (fun n =>
  and_then (traverse ident (map fst metadata)) (fun _ =>
  match db !! n with
  | None => inl UndefinedTable
  | Some t =>
      and_then (traverse (target_column t) (map fst metadata)) (fun cols =>
      if bool_decide (NoDup (base_columns ++ cols)) then
        match id with
        | VInt z =>
            if bool_decide (z ∈ map r_id (t_rows t)) then inl UniqueViolation
            else
              let r := mkRow z document (Some embedding)
                             (meta_cells cols (map snd metadata)) in
              inr (<[n := mkTable (t_columns t) (t_rows t ++ [r])]> db,
                   mkResultSet ["id"] [[VInt z]])
        | _ => inl DataError
        end
      else inl DuplicateColumn)
  end)).

Definition select_result (t : Table) (rows : list Row) : ResultSet :=
  mkResultSet (user_columns t) (map (star t) rows).

Definition run_select_all (db : gmap string Table) (table_name : string)
    (limit offset : Z) : Res (gmap string Table * ResultSet) :=
  and_then (find_table db table_name) (fun nt =>
  and_then (limit_offset limit offset (t_rows nt.2)) (fun rows =>
  inr (db, select_result nt.2 rows))).

Definition run_select_ids (db : gmap string Table) (table_name : string)
    (ids : list Z) (limit offset : Z) : Res (gmap string Table * ResultSet) :=
  and_then (find_table db table_name) (fun nt =>
  and_then (limit_offset limit offset
              (filter (fun r => r_id r ∈ ids) (t_rows nt.2))) (fun rows =>
  inr (db, select_result nt.2 rows))).

(** The rows of a table by ascending distance, NULL distances last, cut
    after [limit] rows. *)
Definition nearest (query_emb : Emb) (limit : Z) (rows : list Row) : list Row :=
  take (Z.to_nat limit) (order_by Row (row_distance query_emb) rows).

Definition run_nearest (db : gmap string Table) (table_name : string)
    (query_emb : Emb) (limit : Z) : Res (gmap string Table * ResultSet) :=
  and_then (find_table db table_name) (fun nt =>
  if limit <? 0 then inl InvalidRowCount
  else
    inr (db, mkResultSet
               (["id"; "document"; "embedding"; "distance"] ++ user_columns nt.2)
               (map (nearest_row nt.2 query_emb)
                    (nearest query_emb limit (t_rows nt.2))))).

(** [SET {key}=%s]: the effect on one row, once the column is known. *)
Definition assign (t : Table) (key : string) (v : Scalar)
  : Res (Row -> Res Row) :=
  and_then (target_column t key) (fun c =>
  if bool_decide (c = "id") then
    and_then (int_of_scalar v) (fun z =>
    inr (fun r =>
           match z with
           | Some z => inr (mkRow z (r_document r) (r_embedding r) (r_meta r))
           | None => inl NotNullViolation
           end))
  else if bool_decide (c = "document") then
    inr (fun r =>
           match text_of_scalar v with
           | Some s => inr (mkRow (r_id r) s (r_embedding r) (r_meta r))
           | None => inl NotNullViolation
           end)
  else if bool_decide (c = "embedding") then
    and_then (vector_of_scalar v) (fun e =>
    inr (fun r => inr (mkRow (r_id r) (r_document r) e (r_meta r))))
  else
    inr (fun r =>
           inr (mkRow (r_id r) (r_document r) (r_embedding r)
                      (match text_of_scalar v with
                       | Some s => <[c := s]> (r_meta r)
                       | None => delete c (r_meta r)
                       end)))).

Definition set_document (document : option (string * Emb)) (r : Row) : Row :=
  match document with
  | Some (d, e) => mkRow (r_id r) d (Some e) (r_meta r)
  | None => r
  end.

Fixpoint apply_all (fs : list (Row -> Res Row)) (r : Row) : Res Row :=
  match fs with
  | [] => inr r
  | f :: fs' => and_then (f r) (apply_all fs')
  end.

(** [UPDATE]: the engine writes an updated row as a new version, which a
    scan of the table meets after the rows that were not updated. *)
Definition run_update (db : gmap string Table) (table_name : string)
    (document : option (string * Emb)) (metadata : Dict) (id : Scalar)
  : Res (gmap string Table * ResultSet) :=
  and_then (ident table_name) (fun n =>
  and_then (traverse ident (map fst metadata)) (fun _ =>
  match db !! n with
  | None => inl UndefinedTable
  | Some t =>
      and_then (traverse (target_column t) (map fst metadata)) (fun cols =>
      let targets :=
        match document with
        | Some _ => ["document"; "embedding"]
        | None => []
        end ++ cols in
      if bool_decide (targets = []) || negb (bool_decide (NoDup targets))
      then inl SyntaxError
      else
        and_then (traverse (fun kv : string * Scalar => assign t kv.1 kv.2)
                           metadata) (fun sets =>
        and_then (int_of_scalar id) (fun wanted =>
        and_then (traverse
                    (fun r => apply_all sets (set_document document r))
                    (filter (fun r => Some (r_id r) = wanted) (t_rows t)))
                 (fun news =>
        let rows :=
          filter (fun r => Some (r_id r) <> wanted) (t_rows t) ++ news in
        if bool_decide ("id" ∈ cols)
           && negb (bool_decide (NoDup (map r_id rows)))
        then inl UniqueViolation
        else inr (<[n := mkTable (t_columns t) rows]> db, no_rows)))))
  end)).

(** The values of the engine's [int]: 32 bits, signed. *)
Definition in_int4 (z : Z) : bool := (- 2 ^ 31 <=? z) && (z <? 2 ^ 31).

(** One [WHERE] condition as a test on rows.  The ids of [delete] are cast
    to [int[]], which refuses a number outside the range of [int]. *)
Definition cond_test (t : Table) (c : Cond) : Res (Row -> bool) :=
  match c with
  | CondIdAny ids =>
      if forallb in_int4 ids
      then inr (fun r => bool_decide (r_id r ∈ ids))
      else inl NumericValueOutOfRange
  | CondDocumentLike pattern =>
      inr (fun r => like (list_ascii_of_string pattern)
                         (list_ascii_of_string (r_document r)))
  | CondEq key v =>
      and_then (ident key) (fun c =>
      if bool_decide (c = "id") then
        and_then (int_of_scalar v) (fun z =>
        inr (fun r => bool_decide (Some (r_id r) = z)))
      else if bool_decide (c = "embedding") then
        match v with
        | SInt _ => inl UndefinedFunction
        | _ =>
            and_then (vector_of_scalar v) (fun e =>
            inr (fun r =>
                   match e with
                   | Some e => bool_decide (r_embedding r = Some e)
                   | None => false
                   end))
        end
      else if bool_decide (c = "document") then
        match v with
        | SInt _ => inl UndefinedFunction
        | SNone => inr (fun _ => false)
        | SStr s => inr (fun r => bool_decide (r_document r = s))
        end
      else if bool_decide (c ∈ t_columns t) then
        match v with
        | SInt _ => inl UndefinedFunction
        | SNone => inr (fun _ => false)
        | SStr s => inr (fun r => bool_decide (r_meta r !! c = Some s))
        end
      else if bool_decide (c ∈ system_columns) then inl UndefinedFunction
      else inl UndefinedColumn)
  end.

Definition run_delete (db : gmap string Table) (table_name : string)
    (conditions : list Cond) : Res (gmap string Table * ResultSet) :=
  and_then (find_table db table_name) (fun nt =>
  and_then (traverse (cond_test nt.2) conditions) (fun tests =>
  inr (<[nt.1 := mkTable (t_columns nt.2)
                   (filter (fun r => forallb (fun f => f r) tests = false)
                           (t_rows nt.2))]> db,
       no_rows))).

Definition run (s : Stmt) (db : gmap string Table)
  : Res (gmap string Table * ResultSet) :=
  match s with
  | CreateTableIfNotExists t => run_create db t
  | SelectCount t => run_count db t
  | SelectColumnExists t key => run_column_exists db t key
  | AlterTableAddColumn t key => run_add_column db t key
  | SelectPublicTables => run_tables db
  | Insert t id document embedding metadata =>
      run_insert db t id document embedding metadata
  | SelectLimitOffset t limit offset => run_select_all db t limit offset
  | SelectWhereIdAny t ids limit offset => run_select_ids db t ids limit offset
  | SelectNearest t query_emb limit => run_nearest db t query_emb limit
  | Update t document metadata id => run_update db t document metadata id
  | Delete t conditions => run_delete db t conditions
  end.

(** ** The client state and its monad

    [db] is the content of the public schema, [log] the statements that
    reached the engine, oldest first.  A call either returns a value or
    ends with an exception; the state reached so far is kept in both
    cases. *)

Record State : Type := mkState {
  db : gmap string Table;
  log : list Stmt
}.

Definition M (A : Type) : Type := State -> (Exn + A) * State.

Definition ret {A} (a : A) : M A := fun st => (inr a, st).

Definition raise {A} (e : Exn) : M A := fun st => (inl e, st).

Definition bind {A B} (m : M A) (k : A -> M B) : M B :=
  fun st =>
    match m st with
    | (inr a, st') => k a st'
    | (inl e, st') => (inl e, st')
    end.

Notation "x <- m ;; k" := (bind m (fun x => k))
  (at level 100, m at next level, right associativity).
Notation "m ;;; k" := (bind m (fun _ => k))
  (at level 100, right associativity).

Fixpoint mapM {A B} (f : A -> M B) (l : list A) : M (list B) :=
  match l with
  | [] => ret []
  | a :: l' => b <- f a ;; bs <- mapM f l' ;; ret (b :: bs)
  end.

Fixpoint for_each {A} (f : A -> M unit) (l : list A) : M unit :=
  match l with
  | [] => ret tt
  | a :: l' => f a ;;; for_each f l'
  end.

Fixpoint foldM {A B} (f : B -> A -> M B) (acc : B) (l : list A) : M B :=
  match l with
  | [] => ret acc
  | a :: l' => acc' <- f acc a ;; foldM f acc' l'
  end.

(** [cur.execute(query, params)]. *)
Definition execute (s : Stmt) : M ResultSet :=
  fun st =>
    match run s (db st) with
    | inr (db', rs) => (inr rs, mkState db' (log st ++ [s]))
    | inl e => (inl (DatabaseError e), mkState (db st) (log st ++ [s]))
    end.

(** [cur.fetchone()[0]]. *)
Definition fetchone0 (rs : ResultSet) : M Val :=
  match fetched rs with
  | [] => raise TypeError
  | [] :: _ => raise IndexError
  | (v :: _) :: _ => ret v
  end.

(** Truth value of a fetched value in [if not exists]. *)
Definition truth (v : Val) : M bool :=
  match v with
  | VNone => ret false
  | VBool b => ret b
  | VInt z => ret (negb (z =? 0))
  | VStr s => ret (negb (String.eqb s ""))
  | VVec _ => raise ValueError
  | VNum q => ret (negb (Qeq_bool q 0))
  end.

(** ** Python dictionaries built from pairs *)

Fixpoint dict_set {V} (k : string) (v : V) (d : list (string * V))
  : list (string * V) :=
  match d with
  | [] => [(k, v)]
  | (k', v') :: d' =>
      if String.eqb k k' then (k, v) :: d' else (k', v') :: dict_set k v d'
  end.

(** [dict(pairs)] and [{k: v for ...}]: a later pair replaces the value of
    an earlier one with the same key. *)
Definition dict_of {V} (pairs : list (string * V)) : list (string * V) :=
  fold_left (fun d kv => dict_set kv.1 kv.2 d) pairs [].

Fixpoint dict_get {V} (k : string) (d : list (string * V)) : option V :=
  match d with
  | [] => None
  | (k', v) :: d' => if String.eqb k k' then Some v else dict_get k d'
  end.

(** [d[k]]. *)
Definition getitem (d : list (string * Val)) (k : string) : M Val :=
  match dict_get k d with
  | Some v => ret v
  | None => raise (KeyError k)
  end.

(** [row[i]]. *)
Definition row_at (row : list Val) (i : nat) : M Val :=
  match row !! i with
  | Some v => ret v
  | None => raise IndexError
  end.

(** [columns.index(col)]. *)
Fixpoint index_of (col : string) (columns : list string) : option nat :=
  match columns with
  | [] => None
  | c :: columns' =>
      if String.eqb c col then Some O else S <$> index_of col columns'
  end.

(** [int(i)]. *)
Definition py_int (i : Scalar) : M Z :=
  match i with
  | SInt z => ret z
  | SStr s =>
      match PyStr.int_of_str s with
      | Some z => ret z
      | None => raise ValueError
      end
  | SNone => raise TypeError
  end.

(** [zip(a, b, c)] and [zip(a, b, c, d)]. *)
Definition zip3 {A B C} (a : list A) (b : list B) (c : list C)
  : list (A * B * C) := zip (zip a b) c.
Definition zip4 {A B C D} (a : list A) (b : list B) (c : list C) (d : list D)
  : list (A * B * C * D) := zip (zip3 a b c) d.

(** An argument that must be iterable: [None] raises [TypeError]. *)
Definition iter {A} (l : option (list A)) : M (list A) :=
  match l with
  | Some l => ret l
  | None => raise TypeError
  end.

(** ** [class PostgresClient] and [class PostgresCollection]

    The methods of the two classes call each other, so they are listed in
    dependency order.  Methods of [PostgresCollection] take the category
    the collection is bound to as their first argument and keep their
    names; the three methods of [PostgresClient] whose names they share
    are [client_add], [client_query] and [client_update]. *)

Record PostgresCategory : Type := mkPostgresCategory { name : string }.

(** [PostgresClient._table_name] *)
Definition _table_name (category : string) : string :=
  ("memory_" ++ category)%string.

(** [PostgresClient.ensure_table_exists] *)
Definition ensure_table_exists (category : string) : M unit :=
  let table_name := _table_name category in
  execute (CreateTableIfNotExists table_name) ;;;
  ret tt.

(** The body of [for key in metadata.keys()] in
    [_ensure_metadata_columns_exist]. *)
Definition ensure_column (table_name key : string) : M unit :=
  rs <- execute (SelectColumnExists table_name key) ;;
  v <- fetchone0 rs ;;
  exists_ <- truth v ;;
  if negb exists_
  then execute (AlterTableAddColumn table_name key) ;;; ret tt
  else ret tt.

(** [PostgresClient._ensure_metadata_columns_exist] *)
Definition _ensure_metadata_columns_exist (category : string)
    (metadata : Dict) : M unit :=
  let table_name := _table_name category in
  for_each (ensure_column table_name) (map fst metadata).

(** [PostgresClient.list_collections] *)
Definition list_collections : M (list PostgresCategory) :=
  rs <- execute SelectPublicTables ;;
  rows <- mapM
    (fun row =>
       v <- row_at row 0 ;;
       match v with
       | VStr table =>
           if PyStr.startswith "memory_" table then
             match PyStr.split "_" table !! 1%nat with
             | Some c => ret [mkPostgresCategory c]
             | None => raise IndexError
             end
           else ret []
       | _ => raise AttributeError
       end)
    (fetched rs) ;;
  ret (concat rows).

(** [PostgresCollection.count] *)
Definition count (category : string) : M Val :=
  ensure_table_exists category ;;;
  let table_name := _table_name category in
  rs <- execute (SelectCount table_name) ;;
  fetchone0 rs.

(** [PostgresClient.create_embedding] *)
Definition create_embedding (document : string) : Emb :=
  infer_embedding document.

(** [PostgresClient.insert_memory]; [get_or_create_collection(category)]
    is the collection bound to [category]. *)
Definition insert_memory (category : string) (document : string)
    (metadata : Dict) (embedding : option Emb) (id : option Z) : M Val :=
  ensure_table_exists category ;;;
  _ensure_metadata_columns_exist category metadata ;;;
  let table_name := _table_name category in
  let embedding :=
    match embedding with
    | None => create_embedding document
    | Some e => e
    end in
  id <- match id with
        | None => count category
        | Some i => ret (VInt i)
        end ;;
  rs <- execute (Insert table_name id document embedding metadata) ;;
  fetchone0 rs.

(** [PostgresCollection.add] *)
Definition add (category : string) (ids : list Scalar)
    (documents : option (list string)) (metadatas : option (list Dict))
    (embeddings : option (list Emb)) : M unit :=
  match embeddings with
  | None =>
      documents <- iter documents ;;
      metadatas <- iter metadatas ;;
      for_each
        (fun x : Scalar * string * Dict =>
           let '(id_, document, metadata) := x in
           insert_memory category document metadata None None ;;; ret tt)
        (zip3 ids documents metadatas)
  | Some embeddings =>
      documents <- iter documents ;;
      metadatas <- iter metadatas ;;
      for_each
        (fun x : Scalar * string * Dict * Emb =>
           let '(id_, document, metadata, emb) := x in
           insert_memory category document metadata (Some emb) None ;;; ret tt)
        (zip4 ids documents metadatas embeddings)
  end.

(** [PostgresClient.add] *)
Definition client_add (category : string) (documents : list string)
    (metadatas : list Dict) (ids : list Z) : M unit :=
  ensure_table_exists category ;;;
  let table_name := _table_name category in
  for_each
    (fun x : string * Dict * Z =>
       let '(document, metadata, id_) := x in
       _ensure_metadata_columns_exist category metadata ;;;
       let embedding := create_embedding document in
       execute (Insert table_name (VInt id_) document embedding metadata) ;;;
       ret tt)
    (zip3 documents metadatas ids).

(** What [get] returns: the dictionary with the keys ["ids"],
    ["documents"] and ["metadatas"]. *)
Record GetResult : Type := mkGetResult {
  g_ids : list Val;
  g_documents : list Val;
  g_metadatas : list (list (string * Val))
}.

(** The part of [get] under [# Convert rows to list of dictionaries], from
    the cursor's [description] and [fetchall()] to the returned value. *)
Definition rows_to_dictionaries (rs : ResultSet) : M GetResult :=
  let rows := fetched rs in
  let columns := description rs in
  let metadata_columns :=
    filter (fun col => col ∉ ["id"; "document"; "embedding"]) columns in
  result <- mapM
    (fun row =>
       let item := dict_of (zip columns row) in
       metadata <- mapM (fun col => v <- getitem item col ;; ret (col, v))
                        metadata_columns ;;
       ret (item, dict_of metadata))
    rows ;;
  ids <- mapM (fun row : list (string * Val) * list (string * Val) =>
                 getitem row.1 "id") result ;;
  documents <- mapM (fun row : list (string * Val) * list (string * Val) =>
                       getitem row.1 "document") result ;;
  ret (mkGetResult ids documents (map snd result)).

(** [PostgresCollection.get] *)
Definition get (category : string) (ids : option (list Scalar))
    (where_ : option Dict) (limit offset : option Z)
    (where_document : option (list (string * string)))
    (include : list string) : M GetResult :=
  let table_name := _table_name category in
  rs <- (if negb (truthy_list ids) then
           let limit := default 100 limit in
           let offset := default 0 offset in
           execute (SelectLimitOffset table_name limit offset)
         else
           let ids := default [] ids in
           if negb (forallb is_str_or_int ids) then
             raise (PyException
               "ids must be a list of integers or strings representing integers")
           else
             let limit := default (Z.of_nat (length ids)) limit in
             let offset := default 0 offset in
             ids <- mapM py_int ids ;;
             execute (SelectWhereIdAny table_name ids limit offset)) ;;
  rows_to_dictionaries rs.

(** [PostgresCollection.peek] *)
Definition peek (category : string) (limit : Z) : M GetResult :=
  get category None None (Some limit) None None ["metadatas"; "documents"].

(** What [query] returns: the dictionary [results]. *)
Record QueryResult : Type := mkQueryResult {
  q_ids : list Val;
  q_documents : list Val;
  q_metadatas : list (list (string * Val));
  q_embeddings : list Val;
  q_distances : list Val
}.

Definition empty_results : QueryResult := mkQueryResult [] [] [] [] [].

(** The body of [for row in rows] in [PostgresClient.query]. *)
Definition append_row (columns metadata_columns : list string)
    (results : QueryResult) (row : list Val) : M QueryResult :=
  id <- row_at row 0 ;;
  document <- row_at row 1 ;;
  embedding <- row_at row 2 ;;
  dist <- row_at row 3 ;;
  metadata <- mapM
    (fun col =>
       match index_of col columns with
       | Some i => v <- row_at row i ;; ret (col, v)
       | None => raise ValueError
       end)
    metadata_columns ;;
  ret (mkQueryResult
         (q_ids results ++ [id])
         (q_documents results ++ [document])
         (q_metadatas results ++ [dict_of metadata])
         (q_embeddings results ++ [embedding])
         (q_distances results ++ [dist])).

(** The body of [for emb in query_texts] in [PostgresClient.query]. *)
Definition query_one (table_name : string) (n_results : Z)
    (results : QueryResult) (emb : string) : M QueryResult :=
  let query_emb := create_embedding emb in
  rs <- execute (SelectNearest table_name query_emb n_results) ;;
  let rows := fetched rs in
  let columns := description rs in
  let metadata_columns :=
    filter (fun col => col ∉ ["id"; "document"; "embedding"; "distance"])
           columns in
  foldM (append_row columns metadata_columns) results rows.

(** [PostgresClient.query] *)
Definition client_query (category : string)
    (query_texts : option (list string)) (n_results : Z) : M QueryResult :=
  ensure_table_exists category ;;;
  let table_name := _table_name category in
  query_texts <- iter query_texts ;;
  foldM (query_one table_name n_results) empty_results query_texts.

(** [PostgresCollection.query] *)
Definition query (category : string) (query_embeddings : option (list Emb))
    (query_texts : option (list string)) (n_results : Z)
    (where_ : option Dict) (where_document : option (list (string * string)))
    (include : list string) : M QueryResult :=
  client_query category query_texts n_results.

(** [PostgresClient.update] *)
Definition client_update (category : string) (id_ : Scalar)
    (document : option string) (metadata : option Dict)
    (embedding : option Emb) : M unit :=
  ensure_table_exists category ;;;
  let table_name := _table_name category in
  match (if truthy_str document then document else None) with
  | Some document =>
      let embedding :=
        match embedding with
        | None => create_embedding document
        | Some e => e
        end in
      match (if truthy_list metadata then metadata else None) with
      | Some metadata =>
          _ensure_metadata_columns_exist category metadata ;;;
          execute (Update table_name (Some (document, embedding)) metadata id_) ;;;
          ret tt
      | None =>
          execute (Update table_name (Some (document, embedding)) [] id_) ;;;
          ret tt
      end
  | None =>
      match (if truthy_list metadata then metadata else None) with
      | Some metadata =>
          _ensure_metadata_columns_exist category metadata ;;;
          execute (Update table_name None metadata id_) ;;;
          ret tt
      | None => ret tt
      end
  end.

(** [PostgresCollection.update] *)
Definition update (category : string) (ids : list Scalar)
    (documents : option (list (option string)))
    (metadatas : option (list (option Dict)))
    (embeddings : option (list Emb)) : M unit :=
  match embeddings with
  | None =>
      documents <- iter documents ;;
      metadatas <- iter metadatas ;;
      for_each
        (fun x : Scalar * option string * option Dict =>
           let '(id_, document, metadata) := x in
           client_update category id_ document metadata None)
        (zip3 ids documents metadatas)
  | Some embeddings =>
      documents <- iter documents ;;
      metadatas <- iter metadatas ;;
      for_each
        (fun x : Scalar * option string * option Dict * Emb =>
           let '(id_, document, metadata, emb) := x in
           client_update category id_ document metadata (Some emb))
        (zip4 ids documents metadatas embeddings)
  end.

(** [PostgresCollection.upsert] *)
Definition upsert (category : string) (ids : list Scalar)
    (documents : option (list string)) (metadatas : option (list Dict))
    (embeddings : option (list Emb)) : M unit :=
  add category ids documents metadatas embeddings.

(** [PostgresCollection.delete] *)
Definition delete (category : string) (ids : option (list Scalar))
    (where_ : option Dict)
    (where_document : option (list (string * string))) : M unit :=
  let table_name := _table_name category in
  ensure_table_exists category ;;;
  conditions <-
    match ids with
    | Some ids =>
        if negb (forallb (fun i => is_str_or_int i && PyStr.isdigit (py_str i))
                         ids) then
          raise (PyException
            "ids must be a list of integers or strings representing integers")
        else
          ids <- mapM py_int ids ;;
          ret [CondIdAny ids]
    | None => ret []
    end ;;
  let conditions :=
    match where_document with
    | Some where_document =>
        match dict_get "$contains" where_document with
        | Some s => conditions ++ [CondDocumentLike ("%" ++ s ++ "%")%string]
        | None => conditions
        end
    | None => conditions
    end in
  let conditions :=
    match where_ with
    | Some where_ =>
        conditions ++ map (fun kv : string * Scalar => CondEq kv.1 kv.2) where_
    | None => conditions
    end in
  match conditions with
  | _ :: _ => execute (Delete table_name conditions) ;;; ret tt
  | [] => raise (PyException "No valid conditions provided for deletion.")
  end.

End Model.

Notation "x <- m ;; k" := (bind m (fun x => k))
  (at level 100, m at next level, right associativity).
Notation "m ;;; k" := (bind m (fun _ => k))
  (at level 100, right associativity).

(** ** Vocabulary of the properties *)

Section Vocabulary.
Context `{EP : EmbeddingProvider}.

(** A database client that has not touched the engine yet, on an empty
    public schema: every category is fresh. *)
Definition fresh : State := mkState ∅ [].

(** The state a call leaves behind and what it returned or raised. *)
Definition state_after {A} (m : M A) (st : State) : State := (m st).2.
Definition outcome {A} (m : M A) (st : State) : Exn + A := (m st).1.

(** The rows stored under a table name of the catalogue (none when there
    is no such table). *)
Definition stored_rows (d : gmap string Table) (n : string) : list Row :=
  match d !! n with
  | Some t => t_rows t
  | None => []
  end.

(** The default values of the [include] arguments. *)
Definition get_include : list string := ["metadatas"; "documents"].
Definition query_include : list string :=
  ["metadatas"; "documents"; "distances"].

(** An id of integer form: an [int], or a [str] that [int()] accepts. *)
Definition integer_form (i : Scalar) : bool :=
  match i with
  | SInt _ => true
  | SStr s => bool_decide (is_Some (PyStr.int_of_str s))
  | SNone => false
  end.

(** The second catalogue keeps every table of the first, each with the
    rows it had. *)
Definition same_rows (d d' : gmap string Table) : Prop :=
  forall n, (is_Some (d !! n) -> is_Some (d' !! n))
            /\ stored_rows d' n = stored_rows d n.

(** A statement of the column bookkeeping for one of the given keys. *)
Definition column_statement (tn : string) (keys : list string) (s : Stmt)
  : Prop :=
  exists key, key ∈ keys
              /\ (s = SelectColumnExists tn key \/ s = AlterTableAddColumn tn key).

(** A row operation that leaves the document and the embedding alone. *)
Definition keeps_document (f : Row -> Res Row) : Prop :=
  forall r r', f r = inr r' ->
               r_document r' = r_document r /\ r_embedding r' = r_embedding r.

(** The rows of a table that an [UPDATE ... WHERE id] leaves alone, and the
    rows it is about. *)
Definition other_rows (wanted : option Z) (rows : list Row) : list Row :=
  filter (fun r => Some (r_id r) <> wanted) rows.
Definition wanted_rows (wanted : option Z) (rows : list Row) : list Row :=
  filter (fun r => Some (r_id r) = wanted) rows.

(** What an [UPDATE ... SET document, embedding ... WHERE id] makes of the
    rows of a table: the rows with another id are the rows they were, and
    each row with the wanted id has become a row with the document and the
    embedding.  Where the engine keeps the new rows is left open. *)
Definition updated_rows (document : string) (e : Emb) (wanted : option Z)
    (before after : list Row) : Prop :=
  exists news,
    after ≡ₚ other_rows wanted before ++ news
    /\ Forall2 (fun r r' : Row =>
                  r_document r' = document /\ r_embedding r' = Some e)
               (wanted_rows wanted before) news.

(** A row whose document was written without its embedding. *)
Definition with_document (s : string) (r : Row) : Row :=
  mkRow (r_id r) s (r_embedding r) (r_meta r).

(** The metadata mapping of a row: one entry per metadata column of the
    table, in column order, bound to the text stored in the row or to
    [None] when the row holds NULL there. *)
Definition row_metadata (t : Table) (r : Row) : list (string * Val) :=
  map (fun c => (c, text_val (r_meta r !! c))) (t_columns t).

(** The dictionary [dict(zip(columns, row))] of a row. *)
Definition row_item (t : Table) (r : Row) : list (string * Val) :=
  ("id", VInt (r_id r)) :: ("document", VStr (r_document r))
  :: ("embedding", emb_val (r_embedding r)) :: row_metadata t r.

(** The value [get] returns for the given rows. *)
Definition marshal (t : Table) (rows : list Row) : GetResult :=
  mkGetResult (map (fun r => VInt (r_id r)) rows)
              (map (fun r => VStr (r_document r)) rows)
              (map (row_metadata t) rows).




Definition ids_message : string :=
  "ids must be a list of integers or strings representing integers".
Definition delete_message : string :=
  "No valid conditions provided for deletion.".

(** The statements that only read. *)
Definition is_read (s : Stmt) : bool :=
  match s with
  | SelectCount _ | SelectColumnExists _ _ | SelectPublicTables
  | SelectLimitOffset _ _ _ | SelectWhereIdAny _ _ _ _
  | SelectNearest _ _ _ => true
  | _ => false
  end.

(** The category [list_collections] reads out of a table name: none for a
    table that is not a category table. *)
Definition category_of_table (table : string) : option string :=
  if PyStr.startswith "memory_" table
  then PyStr.split "_" table !! 1%nat
  else None.

(** The test [delete] puts every id through:
    [isinstance(i, (int, str)) and str(i).isdigit()]. *)
Definition digits_form (i : Scalar) : bool :=
  is_str_or_int i && PyStr.isdigit (py_str i).

(** The row [insert_memory] writes: the columns are the names the engine
    reads the metadata keys as. *)
Definition inserted_row (k : Z) (document : string) (e : Emb)
    (cols : list string) (metadata : Dict) : Row :=
  mkRow k document (Some e) (meta_cells cols (map snd metadata)).

(** The ids [0, 1, ..., n-1] that [n] rows inserted one by one without an
    id get. *)
Definition dense_ids (rows : list Row) : Prop :=
  map r_id rows = map Z.of_nat (seq 0 (length rows)).

(** A computation that leaves the database as it found it. *)
Definition keeps_db {A} (m : M A) : Prop := forall st, db (m st).2 = db st.

(** A computation that leaves the state as it found it. *)
Definition stateless {A} (m : M A) : Prop := forall st, (m st).2 = st.

(** The integer an id stands for, when [int()] accepts it. *)
Definition id_value (i : Scalar) : option Z :=
  match i with
  | SInt z => Some z
  | SStr s => PyStr.int_of_str s
  | SNone => None
  end.

(** A computation that leaves every stored row where it is and as it is:
    it may only put rows after them. *)
Definition appends {A} (m : M A) : Prop :=
  forall st n,
    stored_rows (db st) n `prefix_of` stored_rows (db (m st).2) n.

(** What a row written by [PostgresClient.add] for the zipped triple [x]
    holds. *)
Definition row_of_triple (r : Row) (x : string * Dict * Z) : Prop :=
  r_id r = x.2 /\ r_document r = x.1.1
  /\ r_embedding r = Some (create_embedding x.1.1).

(** A name the engine reads as it is written: folding changes nothing. *)
Definition folded (name : string) : Prop := Ident.parse name = Some name.

(** A name the engine reads as an identifier. *)
Definition identifier (name : string) : Prop := is_Some (Ident.parse name).

(** The row is one the [WHERE id=%s] of an [UPDATE] with the parameter
    [id_] is about: the engine reads the parameter as the id of the row. *)
Definition its_row (id_ : Scalar) (r : Row) : Prop :=
  int_of_scalar id_ = inr (Some (r_id r)).

#[global] Instance its_row_dec id_ r : Decision (its_row id_ r).
Proof. unfold its_row. apply _. Defined.

(** What an [UPDATE ... WHERE id=%s] may make of the rows of a table: the
    rows it is not about are the rows they were, and there are as many
    other rows as before.  Where the engine keeps the rows is left open. *)
Definition touches_only (id_ : Scalar) (before after : list Row) : Prop :=
  exists news,
    after ≡ₚ filter (fun r => ~ its_row id_ r) before ++ news
    /\ length news = length (filter (its_row id_) before).

(** An id that the cast to [int[]] in [delete] accepts: it stands for an
    integer of 32 bits. *)
Definition int4_form (i : Scalar) : bool :=
  from_option in_int4 false (id_value i).

(** Two results of [get] put one after the other. *)
Definition results_app (r1 r2 : GetResult) : GetResult :=
  mkGetResult (g_ids r1 ++ g_ids r2) (g_documents r1 ++ g_documents r2)
              (g_metadatas r1 ++ g_metadatas r2).

End Vocabulary.

(** A small provider to run the model on: one-dimensional vectors, the
    embedding of a text is its length, the distance is the absolute
    difference.  Its engine sorts stably, reads the integers [int()] reads
    and writes a vector in brackets. *)
#[global, refine] Instance length_provider : EmbeddingProvider := {|
  Emb := Z;
  infer_embedding := fun s => Z.of_nat (String.length s);
  distance := fun a b => inject_Z (Z.abs (a - b));
  vector_of_text := PyStr.int_of_str;
  vector_text := fun z => ("[" ++ pretty z ++ "]")%string;
  int_of_text := PyStr.int_of_str;
  order_by := fun A key => merge_sort (fun a b => dist_le (key a) (key b))
|}.
Proof.
  - intros A key l. apply merge_sort_Permutation.
  - intros A key l. apply Sorted_merge_sort. intros a b.
    destruct (key a) as [x|], (key b) as [y|]; cbn; try tauto.
    destruct (Qlt_le_dec x y) as [H|H]; [left; now apply Qlt_le_weak|now right].
Defined.

(** Sample states for this provider. *)

(** The category [notes] with its table created and nothing in it. *)
Definition empty_notes : State :=
  state_after (ensure_table_exists "notes") fresh.

(** One note, added through the collection: it sits in row [0]. *)
Definition one_note : State :=
  state_after (add "notes" [SInt 1] (Some ["x"]) (Some [[("tag", SStr "a")]])
                   None) fresh.

(** Three notes of lengths 1, 4 and 2, the last one without metadata. *)
Definition three_notes : State :=
  state_after (add "notes" [SInt 1; SInt 2; SInt 3]
                   (Some ["x"; "yyyy"; "zz"])
                   (Some [[("tag", SStr "a")]; [("size", SInt 3)]; []])
                   None) fresh.

(** A table with a metadata column [tag] and one row that holds NULL in
    it, as a row inserted before the column was added does. *)
Definition null_tag : State :=
  mkState {["memory_notes" := mkTable ["tag"] [mkRow 0 "x" (Some 1) ∅]]} [].

(** One note, added through the client under the id [1]: the number of
    rows is an id that is taken. *)
Definition shifted_note : State :=
  state_after (client_add "notes" ["x"] [[]] [1]) fresh.

(** * Properties *)

Section Properties.
Context `{EP : EmbeddingProvider}.

Lemma bind_inr {A B} (m : M A) (k : A -> M B) st a st' :
  m st = (inr a, st') -> bind m k st = k a st'.
Proof. intros H. unfold bind. now rewrite H. Qed.

Lemma bind_inl {A B} (m : M A) (k : A -> M B) st e st' :
  m st = (inl e, st') -> bind m k st = (inl e, st').
Proof. intros H. unfold bind. now rewrite H. Qed.

(** *** [delete] without predicates *)

Lemma ensure_table_exists_spec category st :
  ensure_table_exists category st =
  match Ident.parse (_table_name category) with
  | Some n =>
      (inr tt,
       mkState (match db st !! n with
                | Some _ => db st
                | None => <[n := empty_table]> (db st)
                end)
               (log st ++ [CreateTableIfNotExists (_table_name category)]))
  | None =>
      (inl (DatabaseError SyntaxError),
       mkState (db st)
               (log st ++ [CreateTableIfNotExists (_table_name category)]))
  end.
Proof.
  unfold ensure_table_exists, bind, execute, ret.
  generalize (_table_name category) as t. intros t.
  cbn [run]. unfold run_create, ident, and_then.
  destruct (Ident.parse t) as [n|]; [|reflexivity].
  destruct (db st !! n); reflexivity.
Qed.

Lemma ensure_table_exists_rows category st n :
  stored_rows (db (state_after (ensure_table_exists category) st)) n
  = stored_rows (db st) n.
Proof.
  unfold state_after. rewrite ensure_table_exists_spec.
  destruct (Ident.parse (_table_name category)) as [m|]; [|reflexivity].
  simpl. destruct (db st !! m) eqn:Hm; [reflexivity|].
  unfold stored_rows. destruct (decide (m = n)) as [->|Hne].
  - now rewrite lookup_insert_eq, Hm.
  - now rewrite lookup_insert_ne.
Qed.

(** C2.  For a category whose table name is an identifier, [delete]
    called with [ids=None], [where=None] and [where_document=None] raises
    the exception for the missing conditions, in every state.  The only
    statement that reached the engine is the [CREATE TABLE IF NOT EXISTS],
    so no [DELETE] did, and every table holds the rows it held before. *)
Theorem delete_without_predicates category st n :
  Ident.parse (_table_name category) = Some n ->
  exists st',
    delete category None None None st
    = (inl (PyException delete_message), st')
    /\ log st' = log st ++ [CreateTableIfNotExists (_table_name category)]
    /\ existsb is_delete (drop (length (log st)) (log st')) = false
    /\ forall m, stored_rows (db st') m = stored_rows (db st) m.
Proof.
  intros Hp.
  pose proof (ensure_table_exists_rows category st) as Hrows.
  unfold state_after in Hrows.
  unfold delete.
  pose proof (ensure_table_exists_spec category st) as Hens.
  rewrite Hp in Hens.
  rewrite (bind_inr _ _ _ _ _ Hens).
  rewrite Hens in Hrows. simpl in Hrows.
  eexists. split; [reflexivity|]. simpl.
  repeat split; [|exact Hrows].
  rewrite drop_app_length. reflexivity.
Qed.

(** *** Arguments that are accepted and never read *)

(** C5.  [get] does not read [where], [where_document] and [include], and
    [PostgresCollection.query] does not read [query_embeddings], [where],
    [where_document] and [include]: two calls that differ only in these
    arguments return the same result and leave the same state. *)
Theorem unused_arguments category ids limit offset query_texts n_results st
    (where1 where2 : option Dict)
    (where_document1 where_document2 : option (list (string * string)))
    (include1 include2 : list string)
    (query_embeddings1 query_embeddings2 : option (list Emb)) :
  get category ids where1 limit offset where_document1 include1 st
  = get category ids where2 limit offset where_document2 include2 st
  /\ query category query_embeddings1 query_texts n_results
           where1 where_document1 include1 st
     = query category query_embeddings2 query_texts n_results
             where2 where_document2 include2 st.
Proof. split; reflexivity. Qed.

(** *** Malformed id lists *)

Lemma mapM_py_int_malformed ids st :
  forallb is_str_or_int ids = true ->
  forallb integer_form ids = false ->
  mapM py_int ids st = (inl ValueError, st).
Proof.
  induction ids as [|i ids IH]; simpl; [discriminate|].
  intros Hs Hf. apply andb_prop in Hs as [Hi Hs].
  destruct i as [|z|s]; simpl in *; try discriminate.
  - unfold bind at 1. simpl. unfold bind at 1.
    now rewrite (IH Hs Hf).
  - destruct (PyStr.int_of_str s) as [z|] eqn:Hz.
    + unfold bind at 1. simpl. unfold bind at 1.
      rewrite bool_decide_eq_true_2 in Hf by eauto.
      now rewrite (IH Hs Hf).
    + reflexivity.
Qed.

(** C7.  When the id list passed to [get] has an element that is neither
    an [int] nor a [str] of integer form, [get] ends with an exception,
    the one it raises itself for a value that is neither [str] nor [int]
    or the [ValueError] of [int()] for a [str] that is no integer, and the
    state is the one before the call: nothing was sent to the engine. *)
Theorem get_malformed_ids category ids where_ limit offset where_document
    include st (i : Scalar) :
  i ∈ ids ->
  integer_form i = false ->
  exists e,
    get category (Some ids) where_ limit offset where_document include st
    = (inl e, st)
    /\ (e = PyException ids_message \/ e = ValueError).
Proof.
  intros Hin Hi.
  assert (Hbad : forallb integer_form ids = false).
  { apply not_true_iff_false. intros Hall.
    rewrite forallb_forall in Hall.
    apply list_elem_of_In in Hin. apply Hall in Hin. congruence. }
  clear i Hin Hi. unfold get.
  destruct ids as [|i ids]; [discriminate|].
  cbn [truthy_list negb from_option]. unfold id.
  destruct (forallb is_str_or_int (i :: ids)) eqn:Hs.
  - exists ValueError. split; [|now right].
    cbn [negb].
    rewrite (bind_inl _ _ st ValueError st); [reflexivity|].
    apply bind_inl. now apply mapM_py_int_malformed.
  - exists (PyException ids_message). split; [|now left]. reflexivity.
Qed.

(** *** Ids supplied to [add] *)

(** C1, at the scenario of the specification.  In a fresh category,
    [add(ids=[1], documents=["x"], metadatas=[{"tag": "a"}])] succeeds, but
    the id it was given is not the one the row gets: [get(ids=[1])]
    returns no record, and the record is found under the row count at the
    time of the insertion, [0]. *)
Theorem add_ignores_supplied_id :
  let adding :=
    add "notes" [SInt 1] (Some ["x"]) (Some [[("tag", SStr "a")]]) None in
  let st1 := state_after adding fresh in
  outcome adding fresh = inr tt
  /\ outcome (get "notes" (Some [SInt 1]) None None None None get_include) st1
     = inr (mkGetResult [] [] [])
  /\ outcome (get "notes" (Some [SInt 0]) None None None None get_include) st1
     = inr (mkGetResult [VInt 0] [VStr "x"] [[("tag", VStr "a")]])
  /\ In (Insert "memory_notes" (VInt 0) "x" (create_embedding "x")
                [("tag", SStr "a")]) (log st1).
Proof.
  vm_compute. repeat split; try reflexivity.
  do 5 right. left. reflexivity.
Qed.

(** The sibling [PostgresClient.add] does store the row under the id it is
    given. *)
Lemma client_add_uses_supplied_id :
  let st1 :=
    state_after (client_add "notes" ["x"] [[("tag", SStr "a")]] [1]) fresh in
  outcome (get "notes" (Some [SInt 1]) None None None None get_include) st1
  = inr (mkGetResult [VInt 1] [VStr "x"] [[("tag", VStr "a")]]).
Proof. vm_compute. reflexivity. Qed.

(** *** Category names read back from table names *)

(** C6, at a category with an underscore in its name.  After
    [ensure_table_exists("my_notes")] on an empty schema,
    [list_collections] returns one collection, named ["my"]: the table
    name [memory_my_notes] is cut at its second underscore. *)
Theorem list_collections_cuts_at_underscore :
  outcome (ensure_table_exists "my_notes" ;;; list_collections) fresh
  = inr [mkPostgresCategory "my"].
Proof. vm_compute. reflexivity. Qed.

(** For comparison, a name without underscore is read back whole. *)
Lemma list_collections_plain_name :
  outcome (ensure_table_exists "notes" ;;; list_collections) fresh
  = inr [mkPostgresCategory "notes"].
Proof. vm_compute. reflexivity. Qed.

(** *** Metadata keys as column names *)

Lemma ensure_column_spec tn key st :
  ensure_column tn key st =
  match find_table (db st) tn with
  | inl e =>
      (inl (DatabaseError e),
       mkState (db st) (log st ++ [SelectColumnExists tn key]))
  | inr (n, t) =>
      if bool_decide (key ∈ user_columns t ++ system_columns) then
        (inr tt, mkState (db st) (log st ++ [SelectColumnExists tn key]))
      else
        match run_add_column (db st) tn key with
        | inr (db', _) =>
            (inr tt,
             mkState db' (log st ++ [SelectColumnExists tn key;
                                     AlterTableAddColumn tn key]))
        | inl e =>
            (inl (DatabaseError e),
             mkState (db st) (log st ++ [SelectColumnExists tn key;
                                         AlterTableAddColumn tn key]))
        end
  end.
Proof.
  unfold ensure_column, bind, execute. cbn [run].
  unfold run_column_exists, and_then.
  destruct (find_table (db st) tn) as [e|[n t]]; [reflexivity|].
  cbn [fetchone0 fetched truth ret snd db log].
  destruct (bool_decide (key ∈ user_columns t ++ system_columns));
    cbn [negb]; [reflexivity|].
  cbn [db log]. rewrite <- app_assoc. cbn [app].
  destruct (run_add_column (db st) tn key) as [e|[db' rs]]; reflexivity.
Qed.

Lemma ensure_columns_cons category key v metadata st :
  _ensure_metadata_columns_exist category ((key, v) :: metadata) st
  = (ensure_column (_table_name category) key ;;;
     _ensure_metadata_columns_exist category metadata) st.
Proof. reflexivity. Qed.

Lemma column_statement_mono tn key keys s :
  column_statement tn keys s -> column_statement tn (key :: keys) s.
Proof. intros (k & Hk & Hs). exists k. split; [now right|exact Hs]. Qed.

Lemma ensure_column_log tn key st :
  exists news,
    log (state_after (ensure_column tn key) st) = log st ++ news
    /\ Forall (column_statement tn [key]) news
    /\ forall msg, outcome (ensure_column tn key) st <> inl (PyException msg).
Proof.
  unfold state_after, outcome. rewrite ensure_column_spec.
  assert (Hsel : column_statement tn [key] (SelectColumnExists tn key)).
  { exists key. split; [now left|now left]. }
  assert (Halt : column_statement tn [key] (AlterTableAddColumn tn key)).
  { exists key. split; [now left|now right]. }
  destruct (find_table (db st) tn) as [e|[n t]].
  - eexists. split; [reflexivity|]. split; [|discriminate].
    now repeat constructor.
  - destruct (bool_decide (key ∈ user_columns t ++ system_columns)).
    + eexists. split; [reflexivity|]. split; [|discriminate].
      now repeat constructor.
    + destruct (run_add_column (db st) tn key) as [e|[db' rs]];
        (eexists; split; [reflexivity|]; split; [|discriminate];
         now repeat constructor).
Qed.

Lemma ensure_columns_log category metadata st :
  exists news,
    log (state_after (_ensure_metadata_columns_exist category metadata) st)
    = log st ++ news
    /\ Forall (column_statement (_table_name category) (map fst metadata)) news
    /\ forall msg,
         outcome (_ensure_metadata_columns_exist category metadata) st
         <> inl (PyException msg).
Proof.
  revert st. induction metadata as [|[key v] metadata IH]; intros st.
  - exists []. cbn. rewrite app_nil_r. repeat split; [constructor|discriminate].
  - destruct (ensure_column_log (_table_name category) key st)
      as (n1 & Hlog1 & Hall1 & Hexn1).
    unfold state_after, outcome in *. rewrite ensure_columns_cons.
    unfold bind.
    destruct (ensure_column (_table_name category) key st) as [[e|[]] st1] eqn:H1.
    + exists n1. cbn [fst snd] in *. split; [exact Hlog1|]. split; [|exact Hexn1].
      eapply Forall_impl; [exact Hall1|].
      intros s (k & Hk & Hs). exists k. split; [|exact Hs].
      apply list_elem_of_singleton in Hk as ->. cbn. now left.
    + destruct (IH st1) as (n2 & Hlog2 & Hall2 & Hexn2).
      exists (n1 ++ n2). cbn [fst snd] in *.
      split; [now rewrite Hlog2, Hlog1, app_assoc|]. split; [|exact Hexn2].
      apply Forall_app. split.
      * eapply Forall_impl; [exact Hall1|].
        intros s (k & Hk & Hs). exists k. split; [|exact Hs].
        apply list_elem_of_singleton in Hk as ->. cbn. now left.
      * eapply Forall_impl; [exact Hall2|].
        intros s. cbn [map fst]. apply column_statement_mono.
Qed.

(** C8, as the code has it.  [_ensure_metadata_columns_exist] does not
    examine the keys.  Whatever they are, it never raises an exception of
    its own, and all it sends are existence checks and [ALTER TABLE]
    statements for these keys.  On an existing table, a key that is the
    exact name of a column (reserved and system columns included) is
    passed over without a statement and without an error; any other key is
    spliced as given into an [ALTER TABLE ... ADD COLUMN], and the outcome
    is the engine's. *)
Theorem ensure_metadata_columns_unvalidated category metadata key v st n t :
  find_table (db st) (_table_name category) = inr (n, t) ->
  let tn := _table_name category in
  let check := SelectColumnExists tn key in
  let alter := AlterTableAddColumn tn key in
  (forall msg,
     outcome (_ensure_metadata_columns_exist category metadata) st
     <> inl (PyException msg))
  /\ (exists news,
        log (state_after (_ensure_metadata_columns_exist category metadata) st)
        = log st ++ news
        /\ Forall (column_statement tn (map fst metadata)) news)
  /\ (key ∈ user_columns t ++ system_columns ->
      _ensure_metadata_columns_exist category [(key, v)] st
      = (inr tt, mkState (db st) (log st ++ [check])))
  /\ (key ∉ user_columns t ++ system_columns ->
      _ensure_metadata_columns_exist category [(key, v)] st
      = match run_add_column (db st) tn key with
        | inr (db', _) => (inr tt, mkState db' (log st ++ [check; alter]))
        | inl e =>
            (inl (DatabaseError e), mkState (db st) (log st ++ [check; alter]))
        end).
Proof.
  intros Hfind tn check alter. subst tn check alter.
  destruct (ensure_columns_log category metadata st) as (news & Hlog & Hall & Hexn).
  split; [exact Hexn|]. split; [now exists news|].
  assert (Hone : _ensure_metadata_columns_exist category [(key, v)] st
                 = (ensure_column (_table_name category) key ;;; ret tt) st)
    by reflexivity.
  rewrite Hone. unfold bind. rewrite ensure_column_spec, Hfind.
  split; intros Hkey.
  - now rewrite bool_decide_eq_true_2.
  - rewrite bool_decide_eq_false_2 by exact Hkey.
    destruct (run_add_column (db st) (_table_name category) key)
      as [e|[db' rs]]; reflexivity.
Qed.

(** *** Ids assigned by [insert_memory] *)

Lemma same_rows_refl (d : gmap string Table) : same_rows d d.
Proof. intros n. split; [tauto|reflexivity]. Qed.

Lemma same_rows_trans (d1 d2 d3 : gmap string Table) :
  same_rows d1 d2 -> same_rows d2 d3 -> same_rows d1 d3.
Proof.
  intros H12 H23 n. destruct (H12 n) as [Ha Hb], (H23 n) as [Hc Hd].
  split; [tauto|congruence].
Qed.

Lemma run_add_column_rows (d d' : gmap string Table) tn key rs :
  run_add_column d tn key = inr (d', rs) -> same_rows d d'.
Proof.
  unfold run_add_column, and_then, ident.
  destruct (Ident.parse tn) as [n|]; [|discriminate].
  destruct (Ident.parse key) as [c|]; [|discriminate].
  destruct (d !! n) as [t|] eqn:Hn; [|discriminate].
  destruct (bool_decide _); [discriminate|].
  intros [= <- _] m. unfold stored_rows.
  destruct (decide (n = m)) as [<-|Hne].
  - rewrite lookup_insert_eq, Hn. split; [eauto|reflexivity].
  - rewrite lookup_insert_ne by exact Hne. split; [tauto|reflexivity].
Qed.

Lemma ensure_column_rows tn key st :
  same_rows (db st) (db (state_after (ensure_column tn key) st)).
Proof.
  unfold state_after. rewrite ensure_column_spec.
  destruct (find_table (db st) tn) as [e|[n t]]; [apply same_rows_refl|].
  destruct (bool_decide _); [apply same_rows_refl|].
  destruct (run_add_column (db st) tn key) as [e|[db' rs]] eqn:Hrun;
    [apply same_rows_refl|].
  exact (run_add_column_rows _ _ _ _ _ Hrun).
Qed.

Lemma ensure_columns_rows category metadata st :
  same_rows (db st)
    (db (state_after (_ensure_metadata_columns_exist category metadata) st)).
Proof.
  revert st. induction metadata as [|[key v] metadata IH]; intros st.
  - apply same_rows_refl.
  - pose proof (ensure_column_rows (_table_name category) key st) as H1.
    unfold state_after in *. rewrite ensure_columns_cons. unfold bind.
    destruct (ensure_column (_table_name category) key st) as [[e|[]] st1].
    + exact H1.
    + eapply same_rows_trans; [exact H1|]. apply IH.
Qed.

Lemma count_spec category st n t :
  Ident.parse (_table_name category) = Some n ->
  db st !! n = Some t ->
  count category st
  = (inr (VInt (Z.of_nat (length (t_rows t)))),
     mkState (db st)
             (log st ++ [CreateTableIfNotExists (_table_name category);
                         SelectCount (_table_name category)])).
Proof.
  intros Hp Hn. unfold count.
  pose proof (ensure_table_exists_spec category st) as Hens.
  rewrite Hp, Hn in Hens. rewrite (bind_inr _ _ _ _ _ Hens).
  unfold bind, execute. cbn [run db log].
  unfold run_count, find_table, and_then, ident. rewrite Hp, Hn.
  cbn [snd fetchone0 fetched ret]. now rewrite <- app_assoc.
Qed.

Lemma run_insert_inr (d d' : gmap string Table) tn k document e metadata rs :
  run_insert d tn (VInt k) document e metadata = inr (d', rs) ->
  exists n t r,
    Ident.parse tn = Some n /\ d !! n = Some t
    /\ d' = <[n := mkTable (t_columns t) (t_rows t ++ [r])]> d
    /\ rs = mkResultSet ["id"] [[VInt k]]
    /\ r_id r = k /\ r_document r = document /\ r_embedding r = Some e.
Proof.
  unfold run_insert, and_then, ident.
  destruct (Ident.parse tn) as [n|] eqn:Hp; [|discriminate].
  destruct (traverse _ (map fst metadata)); [discriminate|].
  destruct (d !! n) as [t|] eqn:Hn; [|discriminate].
  destruct (traverse (target_column t) (map fst metadata)) as [|cols];
    [discriminate|].
  destruct (bool_decide (NoDup _)); [|discriminate].
  destruct (bool_decide (k ∈ _)); [discriminate|].
  intros [= <- <-]. eexists n, t, _.
  split; [reflexivity|]. split; [exact Hn|]. repeat split; reflexivity.
Qed.

(** C10.  Take [insert_memory] called without an id, and let [st1] be the
    state once the table and the metadata columns are in place, the moment
    the id is chosen.  The table exists in [st1]; [count()] evaluated there
    returns its number of rows [k]; the call goes on with exactly the
    statements of [count()] and one [INSERT] whose id parameter is [k];
    it returns [k] when the engine accepts the [INSERT] and the engine's
    error otherwise, and on success the table has one more row, with id
    [k], the document and the embedding. *)
Theorem insert_memory_assigns_row_count category document metadata embedding
    st st1 :
  (ensure_table_exists category ;;;
   _ensure_metadata_columns_exist category metadata) st = (inr tt, st1) ->
  exists n t,
    Ident.parse (_table_name category) = Some n /\ db st1 !! n = Some t /\
    let tn := _table_name category in
    let k := Z.of_nat (length (t_rows t)) in
    let e := match embedding with
             | None => create_embedding document
             | Some e => e
             end in
    let ins := Insert tn (VInt k) document e metadata in
    let call := insert_memory category document metadata embedding None in
    outcome (count category) st1 = inr (VInt k)
    /\ log (state_after call st)
       = log st1 ++ [CreateTableIfNotExists tn; SelectCount tn; ins]
    /\ outcome call st
       = match run_insert (db st1) tn (VInt k) document e metadata with
         | inr _ => inr (VInt k)
         | inl err => inl (DatabaseError err)
         end
    /\ (forall v, outcome call st = inr v ->
        v = VInt k
        /\ exists r,
             stored_rows (db (state_after call st)) n = t_rows t ++ [r]
             /\ r_id r = k /\ r_document r = document
             /\ r_embedding r = Some e).
Proof.
  intros H. unfold bind in H.
  destruct (ensure_table_exists category st) as [[e0|[]] st0] eqn:H0;
    [discriminate|].
  pose proof (ensure_table_exists_spec category st) as Hens.
  rewrite H0 in Hens.
  destruct (Ident.parse (_table_name category)) as [n|] eqn:Hp;
    [|discriminate].
  assert (Hn0 : is_Some (db st0 !! n)).
  { injection Hens as ->. cbn [db].
    destruct (db st !! n) eqn:Hn; [rewrite Hn; eauto|].
    rewrite lookup_insert_eq. eauto. }
  pose proof (ensure_columns_rows category metadata st0 n) as [Hsome _].
  unfold state_after in Hsome. rewrite H in Hsome. cbn [snd] in Hsome.
  destruct (Hsome Hn0) as [t Hn1].
  exists n, t. split; [reflexivity|]. split; [exact Hn1|].
  cbv zeta.
  pose proof (count_spec category st1 n t Hp Hn1) as Hcount.
  set (k := Z.of_nat (length (t_rows t))) in *.
  set (e := match embedding with
            | Some e => e
            | None => create_embedding document
            end).
  assert (Hcall :
    insert_memory category document metadata embedding None st
    = match run_insert (db st1) (_table_name category) (VInt k) document e
                       metadata with
      | inr (db', rs) =>
          (fetchone0 rs
             (mkState db'
                (log st1 ++ [CreateTableIfNotExists (_table_name category);
                             SelectCount (_table_name category);
                             Insert (_table_name category) (VInt k)
                                    document e metadata])))
      | inl err =>
          (inl (DatabaseError err),
           mkState (db st1)
             (log st1 ++ [CreateTableIfNotExists (_table_name category);
                          SelectCount (_table_name category);
                          Insert (_table_name category) (VInt k)
                                 document e metadata]))
      end).
  { unfold insert_memory.
    rewrite (bind_inr _ _ _ _ _ H0), (bind_inr _ _ _ _ _ H).
    rewrite (bind_inr _ _ _ _ _ Hcount).
    unfold bind, execute. cbn [run db log]. fold e.
    rewrite <- app_assoc. cbn [app].
    destruct (run_insert (db st1) (_table_name category) (VInt k) document e
                         metadata) as [err|[db' rs]]; reflexivity. }
  unfold outcome, state_after. rewrite Hcall, Hcount. cbn [fst].
  destruct (run_insert (db st1) (_table_name category) (VInt k) document e
                       metadata) as [err|[db' rs]] eqn:Hrun.
  - cbn [fst snd log].
    do 3 (split; [reflexivity|]). intros v; discriminate.
  - apply run_insert_inr in Hrun
      as (n' & t' & r & Hp' & Hn' & -> & -> & Hid & Hdoc & Hemb).
    rewrite Hp in Hp'. injection Hp' as <-.
    rewrite Hn1 in Hn'. injection Hn' as <-.
    cbn [fetchone0 fetched ret fst snd log db].
    do 3 (split; [reflexivity|]).
    intros v [= <-]. split; [reflexivity|].
    exists r. unfold stored_rows. rewrite lookup_insert_eq. cbn [t_rows].
    repeat split; assumption.
Qed.

(** *** Documents and their embeddings under [update] *)

Lemma traverse_inr {A B} (f : A -> Res B) (l : list A) (l' : list B) :
  traverse f l = inr l' -> Forall2 (fun a b => f a = inr b) l l'.
Proof.
  revert l'. induction l as [|a l IH]; intros l'; cbn.
  - intros [= <-]. constructor.
  - unfold and_then. destruct (f a) as [|b] eqn:Hb; [discriminate|].
    destruct (traverse f l) as [|bs]; [discriminate|].
    intros [= <-]. constructor; [exact Hb|]. now apply IH.
Qed.

Lemma assign_keeps_document t key v c f :
  target_column t key = inr c ->
  c <> "document" -> c <> "embedding" ->
  assign t key v = inr f ->
  keeps_document f.
Proof.
  intros Hc Hd He. unfold assign, and_then. rewrite Hc.
  destruct (bool_decide (c = "id")).
  - destruct (int_of_scalar v) as [|[z|]]; [discriminate| |];
      intros [= <-] r r'; [|discriminate].
    now intros [= <-].
  - rewrite (bool_decide_eq_false_2 _ Hd), (bool_decide_eq_false_2 _ He).
    intros [= <-] r r'. now intros [= <-].
Qed.

Lemma assigns_keep_document t (metadata : Dict) cols sets :
  traverse (target_column t) (map fst metadata) = inr cols ->
  "document" ∉ cols -> "embedding" ∉ cols ->
  traverse (fun kv : string * Scalar => assign t kv.1 kv.2) metadata
  = inr sets ->
  Forall keeps_document sets.
Proof.
  revert cols sets.
  induction metadata as [|[key v] metadata IH]; intros cols sets; cbn.
  - intros _ _ _ [= <-]. constructor.
  - unfold and_then.
    destruct (target_column t key) as [|c] eqn:Hc; [discriminate|].
    destruct (traverse (target_column t) (map fst metadata)) as [|cs];
      [discriminate|].
    intros [= <-] Hd He.
    destruct (assign t key v) as [|f] eqn:Hf; [discriminate|].
    destruct (traverse _ metadata) as [|fs]; [discriminate|].
    intros [= <-]. rewrite not_elem_of_cons in Hd, He.
    constructor.
    + eapply assign_keeps_document; eauto; intros ->; tauto.
    + eapply IH; eauto; tauto.
Qed.

Lemma apply_all_keeps_document sets r r' :
  Forall keeps_document sets ->
  apply_all sets r = inr r' ->
  r_document r' = r_document r /\ r_embedding r' = r_embedding r.
Proof.
  intros Hall. revert r. induction Hall as [|f fs Hf _ IH]; intros r; cbn.
  - now intros [= <-].
  - unfold and_then. destruct (f r) as [|r1] eqn:H1; [discriminate|].
    intros H2. apply IH in H2 as [-> ->]. now apply Hf.
Qed.

Lemma run_update_inr (d d' : gmap string Table) tn doc e metadata id rs :
  run_update d tn (Some (doc, e)) metadata id = inr (d', rs) ->
  exists n t wanted news,
    Ident.parse tn = Some n /\ d !! n = Some t
    /\ int_of_scalar id = inr wanted
    /\ d' = <[n := mkTable (t_columns t)
                     (other_rows wanted (t_rows t) ++ news)]> d
    /\ Forall2 (fun r r' : Row =>
                  r_document r' = doc /\ r_embedding r' = Some e)
               (wanted_rows wanted (t_rows t)) news.
Proof.
  unfold run_update, and_then, ident.
  destruct (Ident.parse tn) as [n|] eqn:Hp; [|discriminate].
  destruct (traverse _ (map fst metadata)); [discriminate|].
  destruct (d !! n) as [t|] eqn:Hn; [|discriminate].
  destruct (traverse (target_column t) (map fst metadata)) as [|cols] eqn:Hcols;
    [discriminate|].
  destruct (bool_decide (_ = [])); [discriminate|]. cbn [orb].
  destruct (bool_decide (NoDup _)) eqn:Hnd; [|discriminate]. cbn [negb].
  apply bool_decide_eq_true_1 in Hnd. cbn [app] in Hnd.
  apply NoDup_cons in Hnd as [Hdoc Hnd]. apply NoDup_cons in Hnd as [Hemb _].
  rewrite not_elem_of_cons in Hdoc.
  destruct (traverse _ metadata) as [|sets] eqn:Hsets; [discriminate|].
  pose proof (assigns_keep_document t metadata cols sets Hcols
                (proj2 Hdoc) Hemb Hsets) as Hkeep.
  destruct (int_of_scalar id) as [|wanted]; [discriminate|].
  destruct (traverse _ (filter _ (t_rows t))) as [|news] eqn:Hrows;
    [discriminate|].
  cbv zeta. destruct (_ && _); [discriminate|].
  intros [= <- _]. exists n, t, wanted, news.
  do 4 (split; [reflexivity || assumption|]).
  apply traverse_inr in Hrows. unfold wanted_rows.
  eapply Forall2_impl; [exact Hrows|].
  intros r r' Hr. cbv beta in Hr.
  apply (apply_all_keeps_document _ _ _ Hkeep) in Hr as [-> ->].
  split; reflexivity.
Qed.

Lemma traverse_total {A B} (f : A -> Res B) (g : A -> B) (l : list A) :
  (forall a, f a = inr (g a)) -> traverse f l = inr (map g l).
Proof.
  intros Hf. induction l as [|a l IH]; [reflexivity|].
  cbn [traverse map]. now rewrite Hf, IH.
Qed.

Lemma run_update_document_key (d d' : gmap string Table) tn s id rs :
  run_update d tn None [("document", SStr s)] id = inr (d', rs) ->
  exists n t wanted,
    Ident.parse tn = Some n /\ d !! n = Some t
    /\ int_of_scalar id = inr wanted
    /\ d' = <[n := mkTable (t_columns t)
                     (other_rows wanted (t_rows t)
                      ++ map (with_document s)
                             (wanted_rows wanted (t_rows t)))]> d.
Proof.
  unfold run_update, ident.
  destruct (Ident.parse tn) as [n|] eqn:Hp; cbn [and_then]; [|discriminate].
  change (traverse _ (map fst [("document", SStr s)]))
    with (@inr EngineErr _ ["document"]).
  cbn [and_then].
  destruct (d !! n) as [t|] eqn:Hn; [|discriminate].
  assert (Hcol : target_column t "document" = inr "document").
  { unfold target_column. change (ident "document") with (@inr EngineErr _ "document").
    cbn [and_then]. rewrite bool_decide_eq_true_2; [reflexivity|].
    unfold user_columns, base_columns. apply elem_of_app. left.
    apply list_elem_of_In. simpl. tauto. }
  cbn [map fst traverse and_then app].
  change (bool_decide (["document"] = [])) with false.
  rewrite (bool_decide_eq_true_2 (NoDup ["document"]))
    by (repeat constructor; apply not_elem_of_nil).
  cbn [orb negb].
  unfold assign. cbn [fst snd]. rewrite Hcol. cbn [and_then].
  change (bool_decide ("document" = "id")) with false.
  change (bool_decide ("document" = "document")) with true.
  cbn [text_of_scalar and_then].
  destruct (int_of_scalar id) as [|wanted]; cbn [and_then]; [discriminate|].
  rewrite (traverse_total _ (with_document s)) by reflexivity.
  cbn [and_then].
  change (bool_decide ("id" ∈ ["document"])) with false. cbn [andb].
  intros [= <- _]. exists n, t, wanted. now repeat split.
Qed.

(** C9.  Take [PostgresClient.update].

    Called with a non-empty document and no embedding, and [st1] being the
    state once the table and the metadata columns are in place, it sends
    one statement, an [UPDATE] that sets the document and the embedding
    computed from this document together (with the metadata, if any); its
    outcome is the engine's.  When it succeeds, every row that had the
    given id has become a row with the new document and its embedding, and
    the rows with another id are the rows they were.

    Called with the document [""], it does what the call with
    [document=None] and no embedding does, whatever the embedding passed.

    Called without a document and with the metadata [{"document": s}], it
    writes [s] into the document column of the rows with the given id when
    it succeeds, and leaves their embedding as it was. *)
Theorem update_document_with_embedding category id_ d metadata st st1 :
  let tn := _table_name category in
  (d <> "" ->
   let m := if truthy_list metadata then default [] metadata else [] in
   (ensure_table_exists category ;;;
    _ensure_metadata_columns_exist category m) st = (inr tt, st1) ->
   let upd := Update tn (Some (d, create_embedding d)) m id_ in
   let call := client_update category id_ (Some d) metadata None in
   log (state_after call st) = log st1 ++ [upd]
   /\ outcome call st
      = match run upd (db st1) with
        | inr _ => inr tt
        | inl err => inl (DatabaseError err)
        end
   /\ (outcome call st = inr tt ->
       exists n wanted,
         Ident.parse tn = Some n /\ int_of_scalar id_ = inr wanted
         /\ updated_rows d (create_embedding d) wanted
                         (stored_rows (db st1) n)
                         (stored_rows (db (state_after call st)) n)))
  /\ (forall embedding,
        client_update category id_ (Some "") metadata embedding st
        = client_update category id_ None metadata None st)
  /\ (forall s embedding,
        let call :=
          client_update category id_ None (Some [("document", SStr s)])
                        embedding in
        outcome call st = inr tt ->
        exists n wanted,
          Ident.parse tn = Some n /\ int_of_scalar id_ = inr wanted
          /\ stored_rows (db (state_after call st)) n
             ≡ₚ other_rows wanted (stored_rows (db st) n)
                ++ map (with_document s)
                       (wanted_rows wanted (stored_rows (db st) n))).
Proof.
  intros tn. split; [|split].
  - intros Hd m Hprep upd call. subst tn upd call.
    unfold bind in Hprep.
    destruct (ensure_table_exists category st) as [[e0|[]] st0] eqn:H0;
      [discriminate|].
    assert (Hcall :
      client_update category id_ (Some d) metadata None st
      = (execute (Update (_table_name category) (Some (d, create_embedding d))
                         m id_) ;;; ret tt) st1).
    { unfold client_update. rewrite (bind_inr _ _ _ _ _ H0).
      assert (Ht : truthy_str (Some d) = true)
        by (destruct d; [tauto|reflexivity]).
      rewrite Ht. subst m.
      destruct metadata as [[|kv metadata]|];
        cbn [truthy_list default from_option id] in *.
      - injection Hprep as <-. reflexivity.
      - unfold id in *. now rewrite (bind_inr _ _ _ _ _ Hprep).
      - injection Hprep as <-. reflexivity. }
    unfold outcome, state_after. rewrite Hcall.
    unfold bind, execute.
    destruct (run _ (db st1)) as [err|[db' rs]] eqn:Hrun; cbn [fst snd log ret].
    + do 2 (split; [reflexivity|]). discriminate.
    + do 2 (split; [reflexivity|]). intros _. cbn [run] in Hrun.
      apply run_update_inr in Hrun
        as (n & t & wanted & news & Hp & Hn & Hw & -> & Hnews).
      exists n, wanted. do 2 (split; [assumption|]).
      unfold stored_rows. cbn [db]. rewrite lookup_insert_eq, Hn.
      exists news. split; [reflexivity|exact Hnews].
  - intros embedding. reflexivity.
  - intros s embedding call Hout. subst call tn.
    unfold outcome, state_after in *. unfold client_update in *.
    cbn [truthy_str truthy_list] in *.
    pose proof (ensure_table_exists_rows category st) as Hrows.
    unfold state_after in Hrows.
    unfold bind at 1 in Hout. unfold bind at 1.
    destruct (ensure_table_exists category st) as [[e0|[]] st0] eqn:H0;
      [discriminate|]. cbn [snd] in Hrows.
    unfold bind at 1 in Hout. unfold bind at 1.
    destruct (_ensure_metadata_columns_exist category
                [("document", SStr s)] st0) as [[e1|[]] st1'] eqn:H1;
      [discriminate|].
    pose proof (ensure_columns_rows category [("document", SStr s)] st0)
      as Hsame.
    unfold state_after in Hsame. rewrite H1 in Hsame. cbn [snd] in Hsame.
    unfold bind, execute in *. cbn [run] in *.
    destruct (run_update (db st1') _ _ _ _) as [err|[db' rs]] eqn:Hrun;
      [discriminate|]. cbn [snd db ret].
    apply run_update_document_key in Hrun
      as (n & t & wanted & Hp & Hn & Hw & ->).
    exists n, wanted. do 2 (split; [assumption|]).
    rewrite <- Hrows. destruct (Hsame n) as [_ <-].
    unfold stored_rows. rewrite lookup_insert_eq, Hn. reflexivity.
Qed.

(** *** The metadata mapping returned by [get] *)

Lemma dict_set_fresh {V} (k : string) (v : V) (d : list (string * V)) :
  k ∉ map fst d -> dict_set k v d = d ++ [(k, v)].
Proof.
  induction d as [|[k' v'] d IH]; cbn; [reflexivity|].
  rewrite not_elem_of_cons. intros [Hne Hd].
  apply String.eqb_neq in Hne. rewrite Hne. now rewrite IH.
Qed.

Lemma dict_of_unique_keys {V} (l : list (string * V)) :
  NoDup (map fst l) -> dict_of l = l.
Proof.
  unfold dict_of.
  enough (H : forall acc, NoDup (map fst (acc ++ l)) ->
              fold_left (fun d kv => dict_set kv.1 kv.2 d) l acc = acc ++ l)
    by (intros Hn; exact (H [] Hn)).
  induction l as [|[k v] l IH]; intros acc Hn; cbn.
  - now rewrite app_nil_r.
  - rewrite dict_set_fresh.
    + rewrite IH; rewrite <- app_assoc; [reflexivity|exact Hn].
    + rewrite map_app in Hn. apply NoDup_app in Hn as (_ & Hn & _).
      intros Hk. apply (Hn k Hk). cbn. left.
Qed.

Lemma zip_map_self {A B} (f : A -> B) (l : list A) :
  zip l (map f l) = map (fun a => (a, f a)) l.
Proof. induction l as [|a l IH]; cbn; [reflexivity|now rewrite IH]. Qed.

Lemma dict_get_map {V} (f : string -> V) (l : list string) (c : string) :
  c ∈ l -> dict_get c (map (fun a => (a, f a)) l) = Some (f c).
Proof.
  induction l as [|a l IH]; [intros H; inversion H|].
  cbn. destruct (String.eqb c a) eqn:Heq.
  - apply String.eqb_eq in Heq as ->. reflexivity.
  - intros H. apply elem_of_cons in H as [->|H]; [|now apply IH].
    now rewrite String.eqb_refl in Heq.
Qed.

Lemma mapM_ret_map {A B} (g : A -> M B) (h : A -> B) (l : list A) :
  (forall a, a ∈ l -> forall st, g a st = (inr (h a), st)) ->
  forall st, mapM g l st = (inr (map h l), st).
Proof.
  induction l as [|a l IH]; intros Hg st; cbn; [reflexivity|].
  rewrite (bind_inr _ _ _ _ _ (Hg a (list_elem_of_here _ _) st)).
  rewrite (bind_inr _ _ st (map h l) st); [reflexivity|].
  apply IH. intros b Hb. apply Hg. now right.
Qed.

Lemma filter_all {A} (P : A -> Prop) `{!forall x, Decision (P x)}
    (l : list A) :
  Forall P l -> filter P l = l.
Proof.
  induction 1 as [|a l Ha _ IH]; [reflexivity|].
  rewrite filter_cons. destruct (decide (P a)); [now rewrite IH|tauto].
Qed.

Lemma metadata_columns_spec (t : Table) :
  NoDup (user_columns t) ->
  filter (fun col => col ∉ ["id"; "document"; "embedding"]) (user_columns t)
  = t_columns t.
Proof.
  intros Hn. unfold user_columns, base_columns in *.
  rewrite filter_app.
  replace (filter _ ["id"; "document"; "embedding"]) with (@nil string)
    by (symmetry; now vm_compute).
  cbn [app]. apply NoDup_app in Hn as (_ & Hn & _).
  apply filter_all. apply Forall_forall. intros c Hc Hin.
  exact (Hn c Hin Hc).
Qed.

Lemma mapM_map {A B C} (f : A -> B) (g : B -> M C) (l : list A) st :
  mapM g (map f l) st = mapM (fun a => g (f a)) l st.
Proof.
  revert st. induction l as [|a l IH]; intros st; cbn; [reflexivity|].
  unfold bind. destruct (g (f a) st) as [[e|c] st1]; [reflexivity|].
  now rewrite IH.
Qed.

Lemma row_metadata_keys t r : map fst (row_metadata t r) = t_columns t.
Proof.
  unfold row_metadata. rewrite map_map. cbn. apply map_id.
Qed.

Lemma item_spec t r :
  NoDup (user_columns t) ->
  dict_of (zip (user_columns t) (star t r)) = row_item t r.
Proof.
  intros Hn. unfold user_columns, base_columns, star, row_item.
  cbn [app zip_with].
  change (zip_with pair (t_columns t)
            (map (fun c => text_val (r_meta r !! c)) (t_columns t)))
    with (zip (t_columns t)
            (map (fun c => text_val (r_meta r !! c)) (t_columns t))).
  rewrite zip_map_self. apply dict_of_unique_keys.
  cbn [map fst]. fold (row_metadata t r). rewrite row_metadata_keys.
  exact Hn.
Qed.

Lemma item_metadata t r c st :
  NoDup (user_columns t) -> c ∈ t_columns t ->
  getitem (row_item t r) c st = (inr (text_val (r_meta r !! c)), st).
Proof.
  intros Hn Hc. unfold user_columns, base_columns in Hn.
  apply NoDup_app in Hn as (_ & Hn & _).
  assert (Hbase : forall b, b ∈ ["id"; "document"; "embedding"] ->
                            String.eqb c b = false).
  { intros b Hb. apply String.eqb_neq. intros ->. exact (Hn b Hb Hc). }
  unfold getitem, row_item. cbn [dict_get].
  rewrite !Hbase by (apply list_elem_of_In; cbn; tauto).
  unfold row_metadata. now rewrite dict_get_map.
Qed.

Lemma rows_to_dictionaries_spec t rows st :
  NoDup (user_columns t) ->
  rows_to_dictionaries (select_result t rows) st = (inr (marshal t rows), st).
Proof.
  intros Hn. unfold rows_to_dictionaries, select_result.
  cbn [description fetched]. rewrite metadata_columns_spec by exact Hn.
  assert (Hrow : forall r, r ∈ rows -> forall st,
    (metadata <- mapM (fun col =>
                         v <- getitem (dict_of (zip (user_columns t) (star t r)))
                                      col ;;
                         ret (col, v)) (t_columns t) ;;
     ret (dict_of (zip (user_columns t) (star t r)), dict_of metadata)) st
    = (inr (row_item t r, row_metadata t r), st)).
  { intros r _ st'. rewrite item_spec by exact Hn.
    rewrite (bind_inr _ _ st' (row_metadata t r) st').
    - unfold ret. f_equal. f_equal. f_equal. apply dict_of_unique_keys.
      rewrite row_metadata_keys.
      unfold user_columns in Hn. now apply NoDup_app in Hn as (_ & _ & Hn).
    - apply (mapM_ret_map _ (fun c => (c, text_val (r_meta r !! c)))).
      intros c Hc st''.
      now rewrite (bind_inr _ _ _ _ _ (item_metadata t r c st'' Hn Hc)). }
  rewrite (bind_inr _ _ st
             (map (fun r => (row_item t r, row_metadata t r)) rows) st).
  2:{ rewrite mapM_map. now apply mapM_ret_map. }
  rewrite (bind_inr _ _ st (map (fun r => VInt (r_id r)) rows) st).
  2:{ rewrite mapM_map. now apply mapM_ret_map. }
  rewrite (bind_inr _ _ st (map (fun r => VStr (r_document r)) rows) st).
  2:{ rewrite mapM_map. now apply mapM_ret_map. }
  unfold ret, marshal. now rewrite map_map.
Qed.

Lemma mapM_py_int_state ids st : (mapM py_int ids st).2 = st.
Proof.
  induction ids as [|i ids IH]; cbn; [reflexivity|].
  unfold bind.
  destruct i as [|z|s]; cbn; [reflexivity| |].
  - destruct (mapM py_int ids st) as [[e|zs] st1]; exact IH.
  - destruct (PyStr.int_of_str s); cbn; [|reflexivity].
    destruct (mapM py_int ids st) as [[e|zs] st1]; exact IH.
Qed.

Lemma limit_offset_sublist {A} limit offset (l rows : list A) :
  limit_offset limit offset l = inr rows -> rows `sublist_of` l.
Proof.
  unfold limit_offset. destruct (_ || _); [discriminate|].
  intros [= <-]. etransitivity; [apply sublist_take|apply sublist_drop].
Qed.

Lemma execute_select_spec st s t rows0 limit offset :
  run s (db st)
  = and_then (limit_offset limit offset rows0)
             (fun rows => inr (db st, select_result t rows)) ->
  rows0 `sublist_of` t_rows t ->
  NoDup (user_columns t) ->
  forall res st',
    (rs <- execute s ;; rows_to_dictionaries rs) st = (inr res, st') ->
    exists rows, rows `sublist_of` t_rows t /\ res = marshal t rows.
Proof.
  intros Hrun Hsub Hn res st'. unfold bind, execute. rewrite Hrun.
  unfold and_then.
  destruct (limit_offset limit offset rows0) as [e|rows] eqn:Hlim;
    [discriminate|].
  rewrite rows_to_dictionaries_spec by exact Hn.
  intros [= <- _]. exists rows. split; [|reflexivity].
  etransitivity; [exact (limit_offset_sublist _ _ _ _ Hlim)|exact Hsub].
Qed.

(** C4, as the code has it.  On a table whose column names are distinct,
    whatever [get] returns is made of rows of the table, in the table's
    order, and gives for each of them its id, its document and a metadata
    mapping with one entry for every column other than [id], [document]
    and [embedding]: the text stored in the row, or [None] when the row
    holds NULL in that column.  The NULL is not left out.  With no ids,
    limit and offset the call returns the first hundred rows this way. *)
Theorem get_metadata_of_every_column category ids where_ limit offset
    where_document include st n t :
  find_table (db st) (_table_name category) = inr (n, t) ->
  NoDup (user_columns t) ->
  (forall res st',
     get category ids where_ limit offset where_document include st
     = (inr res, st') ->
     exists rows,
       rows `sublist_of` t_rows t
       /\ g_ids res = map (fun r => VInt (r_id r)) rows
       /\ g_documents res = map (fun r => VStr (r_document r)) rows
       /\ g_metadatas res = map (row_metadata t) rows)
  /\ (forall r, map fst (row_metadata t r) = t_columns t)
  /\ (forall r c, c ∈ t_columns t ->
        r_meta r !! c = None -> (c, VNone) ∈ row_metadata t r)
  /\ (forall r c s, c ∈ t_columns t ->
        r_meta r !! c = Some s -> (c, VStr s) ∈ row_metadata t r)
  /\ outcome (get category None where_ None None where_document include) st
     = inr (marshal t (take 100 (t_rows t))).
Proof.
  intros Hfind Hn.
  assert (Hentry : forall r c, c ∈ t_columns t ->
            (c, text_val (r_meta r !! c)) ∈ row_metadata t r).
  { intros r c Hc. unfold row_metadata.
    apply list_elem_of_In, in_map_iff. exists c.
    split; [reflexivity|now apply list_elem_of_In]. }
  split; [|split; [|split; [|split]]].
  - intros res st' Hget.
    enough (exists rows, rows `sublist_of` t_rows t /\ res = marshal t rows)
      as (rows & Hsub & ->) by (exists rows; repeat split; assumption).
    revert Hget. unfold get.
    destruct (truthy_list ids) eqn:Hids; cbn [negb].
    + destruct (forallb is_str_or_int (default [] ids)); cbn [negb].
      * unfold bind at 1. unfold bind at 1.
        pose proof (mapM_py_int_state (default [] ids) st) as Hst.
        destruct (mapM py_int (default [] ids) st) as [[e|zs] st1];
          [discriminate|]. cbn [snd] in Hst. subst st1.
        eapply execute_select_spec.
        -- cbn [run]. unfold run_select_ids. rewrite Hfind. reflexivity.
        -- apply sublist_filter.
        -- exact Hn.
      * discriminate.
    + eapply execute_select_spec.
      * cbn [run]. unfold run_select_all. rewrite Hfind. reflexivity.
      * reflexivity.
      * exact Hn.
  - apply row_metadata_keys.
  - intros r c Hc Hnull. specialize (Hentry r c Hc). now rewrite Hnull in Hentry.
  - intros r c s Hc Hs. specialize (Hentry r c Hc). now rewrite Hs in Hentry.
  - unfold outcome, get. cbn [truthy_list negb default from_option id].
    unfold bind, execute. cbn [run]. unfold run_select_all. rewrite Hfind.
    unfold and_then, limit_offset.
    change ((100 <? 0) || (0 <? 0)) with false.
    change (Z.to_nat 0) with 0%nat. change (Z.to_nat 100) with 100%nat.
    cbn [drop snd]. now rewrite rows_to_dictionaries_spec by exact Hn.
Qed.

(** *** Nearest-neighbour queries *)











End Properties.

(** * Further properties of the collection methods *)

Section Further.
Context `{EP : EmbeddingProvider}.

(** *** Computations that do not touch the state *)

Lemma stateless_ret {A} (a : A) : stateless (ret a).
Proof. intros st. reflexivity. Qed.

Lemma stateless_raise {A} (e : Exn) : stateless (@raise _ A e).
Proof. intros st. reflexivity. Qed.

Lemma stateless_bind {A B} (m : M A) (k : A -> M B) :
  stateless m -> (forall a, stateless (k a)) -> stateless (bind m k).
Proof.
  intros Hm Hk st. unfold bind. specialize (Hm st).
  destruct (m st) as [[e|a] st1]; cbn [snd] in *; subst st1; [reflexivity|].
  apply Hk.
Qed.

Lemma stateless_mapM {A B} (g : A -> M B) (l : list A) :
  (forall a, stateless (g a)) -> stateless (mapM g l).
Proof.
  intros Hg. induction l as [|a l IH]; cbn [mapM]; [apply stateless_ret|].
  apply stateless_bind; [apply Hg|]. intros b.
  apply stateless_bind; [exact IH|]. intros bs. apply stateless_ret.
Qed.


Lemma stateless_getitem d k : stateless (getitem d k).
Proof.
  unfold getitem. destruct (dict_get k d);
    [apply stateless_ret|apply stateless_raise].
Qed.


Lemma stateless_py_int i : stateless (py_int i).
Proof.
  destruct i as [|z|s]; cbn; [apply stateless_raise|apply stateless_ret|].
  destruct (PyStr.int_of_str s); [apply stateless_ret|apply stateless_raise].
Qed.

Lemma stateless_rows_to_dictionaries rs : stateless (rows_to_dictionaries rs).
Proof.
  unfold rows_to_dictionaries.
  apply stateless_bind.
  { apply stateless_mapM. intros row.
    apply stateless_bind; [|intros; apply stateless_ret].
    apply stateless_mapM. intros col.
    apply stateless_bind; [apply stateless_getitem|intros; apply stateless_ret]. }
  intros result. apply stateless_bind.
  { apply stateless_mapM. intros row. apply stateless_getitem. }
  intros ids. apply stateless_bind.
  { apply stateless_mapM. intros row. apply stateless_getitem. }
  intros documents. apply stateless_ret.
Qed.


(** *** What a statement does to the state *)

Lemma execute_log s st : log (execute s st).2 = log st ++ [s].
Proof. unfold execute. destruct (run s (db st)) as [e|[d rs]]; reflexivity. Qed.

Lemma run_read_only s d d' rs :
  is_read s = true -> run s d = inr (d', rs) -> d' = d.
Proof.
  destruct s; try discriminate; intros _; cbn [run];
    unfold run_count, run_column_exists, run_tables, run_select_all,
      run_select_ids, run_nearest, and_then.
  - destruct (find_table d table_name); [discriminate|]. now intros [= <- _].
  - destruct (find_table d table_name); [discriminate|]. now intros [= <- _].
  - now intros [= <- _].
  - destruct (find_table d table_name); [discriminate|].
    destruct (limit_offset _ _ _); [discriminate|]. now intros [= <- _].
  - destruct (find_table d table_name); [discriminate|].
    destruct (limit_offset _ _ _); [discriminate|]. now intros [= <- _].
  - destruct (find_table d table_name); [discriminate|].
    destruct (limit <? 0); [discriminate|]. now intros [= <- _].
Qed.

Lemma execute_read_only s st :
  is_read s = true -> db (execute s st).2 = db st.
Proof.
  intros Hs. unfold execute.
  destruct (run s (db st)) as [e|[d rs]] eqn:Hrun; [reflexivity|].
  cbn [snd db]. exact (run_read_only _ _ _ _ Hs Hrun).
Qed.

Lemma get_state_spec category ids where_ limit offset where_document
    include st :
  let st' := state_after
               (get category ids where_ limit offset where_document include) st in
  db st' = db st
  /\ exists news, log st' = log st ++ news /\ (length news <= 1)%nat
                  /\ Forall (fun s => is_read s = true) news.
Proof.
  cbv zeta. unfold state_after, get.
  set (sel := if negb (truthy_list ids) then _ else _).
  assert (Hsel : db (sel st).2 = db st
                 /\ exists news, log (sel st).2 = log st ++ news
                                 /\ (length news <= 1)%nat
                                 /\ Forall (fun s => is_read s = true) news).
  { subst sel. destruct (negb (truthy_list ids)).
    - split; [now apply execute_read_only|].
      exists [SelectLimitOffset (_table_name category) (default 100 limit)
                                (default 0 offset)].
      split; [apply execute_log|]. split; [cbn; lia|now repeat constructor].
    - destruct (negb (forallb is_str_or_int (default [] ids))).
      + split; [reflexivity|]. exists []. cbn. rewrite app_nil_r.
        split; [reflexivity|]. split; [lia|constructor].
      + unfold bind.
        pose proof (stateless_mapM py_int (default [] ids) stateless_py_int st)
          as Hst.
        destruct (mapM py_int (default [] ids) st) as [[e|zs] st1];
          cbn [snd] in Hst; subst st1.
        * split; [reflexivity|]. exists []. cbn. rewrite app_nil_r.
          split; [reflexivity|]. split; [lia|constructor].
        * split; [now apply execute_read_only|].
          eexists [_]. split; [apply execute_log|].
          split; [cbn; lia|now repeat constructor]. }
  unfold bind. destruct (sel st) as [[e|rs] st1]; cbn [snd] in *;
    [exact Hsel|].
  now rewrite (stateless_rows_to_dictionaries rs st1).
Qed.

(** X1.  [get] only reads: for a category whose table name is an
    identifier, whatever the other arguments and whether it returns or
    raises, the database is the one before the call, and at most one
    statement reached the engine, which is a [SELECT]. *)
Theorem get_reads_only category ids where_ limit offset where_document
    include st :
  identifier (_table_name category) ->
  let st' := state_after
               (get category ids where_ limit offset where_document include) st in
  db st' = db st
  /\ exists news, log st' = log st ++ news /\ (length news <= 1)%nat
                  /\ Forall (fun s => is_read s = true) news.
Proof.
  intros _.
  exact (get_state_spec category ids where_ limit offset where_document
           include st).
Qed.

Lemma keeps_db_stateless {A} (m : M A) : stateless m -> keeps_db m.
Proof. intros Hm st. now rewrite Hm. Qed.



Lemma keeps_db_execute s : is_read s = true -> keeps_db (execute s).
Proof. intros Hs st. now apply execute_read_only. Qed.

(** *** [list_collections] *)

Lemma prefix_append (p s : string) :
  String.prefix p s = true -> exists r, s = (p ++ r)%string.
Proof.
  revert s. induction p as [|a p IH]; intros s.
  - exists s. reflexivity.
  - destruct s as [|b s]; cbn; [discriminate|].
    destruct (ascii_dec a b) as [->|]; [|discriminate].
    intros H. destruct (IH s H) as [r ->]. now exists r.
Qed.

Lemma split_go_nonempty sep cur cs :
  exists x l, PyStr.split_go sep cur cs = x :: l.
Proof.
  revert cur. induction cs as [|c cs IH]; intros cur; cbn; [eauto|].
  destruct (Ascii.eqb c sep); [eauto|apply IH].
Qed.

Lemma memory_chars (r : string) :
  list_ascii_of_string ("memory_" ++ r)
  = list_ascii_of_string "memory_" ++ list_ascii_of_string r.
Proof. reflexivity. Qed.

Lemma prefix_of_append (p r : string) : String.prefix p (p ++ r) = true.
Proof.
  induction p as [|a p IH]; [now destruct r|].
  change (String.prefix (String a p) (String a (p ++ r)) = true).
  cbn [String.prefix]. now destruct (ascii_dec a a).
Qed.

Lemma category_of_category_table table :
  PyStr.startswith "memory_" table = true ->
  is_Some (PyStr.split "_" table !! 1%nat).
Proof.
  intros H. apply prefix_append in H as [r ->].
  unfold PyStr.split. rewrite memory_chars. cbn.
  destruct (split_go_nonempty "_" [] (list_ascii_of_string r)) as (x & l & ->).
  cbn. eauto.
Qed.

Lemma split_go_no_separator sep cur cs :
  sep ∉ cs ->
  PyStr.split_go sep cur cs = [string_of_list_ascii (rev cur ++ cs)].
Proof.
  revert cur. induction cs as [|c cs IH]; intros cur Hsep; cbn.
  - now rewrite app_nil_r.
  - rewrite not_elem_of_cons in Hsep. destruct Hsep as [Hne Hsep].
    destruct (Ascii.eqb c sep) eqn:Heq;
      [apply Ascii.eqb_eq in Heq; congruence|].
    rewrite IH by exact Hsep. cbn. now rewrite <- app_assoc.
Qed.

Lemma category_of_plain_table c :
  "_"%char ∉ list_ascii_of_string c ->
  category_of_table ("memory_" ++ c) = Some c.
Proof.
  intros Hc. unfold category_of_table, PyStr.startswith, PyStr.split.
  rewrite prefix_of_append, memory_chars. cbn.
  rewrite split_go_no_separator by exact Hc. cbn.
  now rewrite string_of_list_ascii_of_string.
Qed.

Lemma list_collections_rows (l : list (string * Table)) st :
  exists rows,
    mapM (fun row =>
            v <- row_at row 0 ;;
            match v with
            | VStr table =>
                if PyStr.startswith "memory_" table then
                  match PyStr.split "_" table !! 1%nat with
                  | Some c => ret [mkPostgresCategory c]
                  | None => raise IndexError
                  end
                else ret []
            | _ => raise AttributeError
            end)
         (map (fun nt : string * Table => [VStr nt.1]) l) st
    = (inr rows, st)
    /\ map name (concat rows) = omap (M:=list) category_of_table (map fst l).
Proof.
  set (F := fun row : list Val => _).
  assert (HF : forall n st',
    F [VStr n] st'
    = (inr (match category_of_table n with
            | Some c => [mkPostgresCategory c]
            | None => []
            end), st')).
  { intros n st'. subst F. cbv beta. unfold bind, category_of_table.
    cbn [row_at lookup list_lookup ret].
    destruct (PyStr.startswith "memory_" n) eqn:Hpre; [|reflexivity].
    destruct (category_of_category_table n Hpre) as [c Hc]. now rewrite Hc. }
  clearbody F.
  induction l as [|[n t] l IH].
  - exists []. split; reflexivity.
  - destruct IH as (rows & Hrows & Hnames).
    eexists (_ :: rows). cbn [map mapM fst].
    rewrite (bind_inr _ _ _ _ _ (HF n st)), (bind_inr _ _ _ _ _ Hrows).
    split; [reflexivity|].
    change (omap (M:=list) category_of_table (n :: map fst l))
      with (match category_of_table n with
            | Some y => y :: omap (M:=list) category_of_table (map fst l)
            | None => omap (M:=list) category_of_table (map fst l)
            end).
    cbn [concat]. rewrite map_app, Hnames.
    now destruct (category_of_table n).
Qed.

Lemma list_collections_spec st :
  exists cats,
    list_collections st
    = (inr cats, mkState (db st) (log st ++ [SelectPublicTables]))
    /\ map name cats
       = omap (M:=list) category_of_table (map fst (map_to_list (db st))).
Proof.
  destruct (list_collections_rows (map_to_list (db st))
              (mkState (db st) (log st ++ [SelectPublicTables])))
    as (rows & Hrows & Hnames).
  exists (concat rows). split; [|exact Hnames].
  unfold list_collections.
  rewrite (bind_inr _ _ st
             (mkResultSet ["table_name"]
                (map (fun nt : string * Table => [VStr nt.1])
                     (map_to_list (db st))))
             (mkState (db st) (log st ++ [SelectPublicTables])))
    by reflexivity.
  cbn [fetched]. now rewrite (bind_inr _ _ _ _ _ Hrows).
Qed.

(** X2.  [list_collections] never raises.  It sends one statement, changes
    nothing, and returns one collection for every table of the schema whose
    name starts with [memory_] and none for any other table; the name of the
    collection is the piece of the table name between its first and second
    underscore. *)
Theorem list_collections_total st :
  exists cats,
    list_collections st
    = (inr cats, mkState (db st) (log st ++ [SelectPublicTables]))
    /\ map name cats
       = omap (M:=list) category_of_table (map fst (map_to_list (db st))).
Proof. exact (list_collections_spec st). Qed.

(** X3.  A category whose name has no underscore is read back whole: when
    its table name is stored as written (a lower-case identifier), then
    after [ensure_table_exists] the collections listed include one with
    exactly the category's name. *)
Theorem list_collections_after_ensure category st :
  Ident.parse (_table_name category) = Some (_table_name category) ->
  "_"%char ∉ list_ascii_of_string category ->
  exists cats,
    outcome (ensure_table_exists category ;;; list_collections) st = inr cats
    /\ category ∈ map name cats.
Proof.
  intros Hp Hc.
  pose proof (ensure_table_exists_spec category st) as Hens. rewrite Hp in Hens.
  unfold outcome. rewrite (bind_inr _ _ _ _ _ Hens).
  match goal with |- context [list_collections ?s] =>
    destruct (list_collections_spec s) as (cats & Hlist & Hnames) end.
  exists cats. rewrite Hlist. split; [reflexivity|].
  rewrite Hnames. cbn [db].
  apply list_elem_of_omap. exists (_table_name category).
  split; [|now apply category_of_plain_table].
  apply list_elem_of_fmap.
  destruct (db st !! _table_name category) as [t|] eqn:Ht.
  - exists (_table_name category, t). split; [reflexivity|].
    now apply elem_of_map_to_list.
  - exists (_table_name category, empty_table). split; [reflexivity|].
    apply elem_of_map_to_list. apply lookup_insert_eq.
Qed.

(** *** [count] and [query] *)





(** X6.  Without query texts there is no query: [query] called with
    [query_texts=None] (its default), even when [query_embeddings] are
    given, raises [TypeError] for a category whose table name is an
    identifier, after creating the table and before any search. *)
Theorem query_needs_texts category query_embeddings n_results where_
    where_document include st n :
  Ident.parse (_table_name category) = Some n ->
  let call := query category query_embeddings None n_results where_
                    where_document include in
  outcome call st = inl TypeError
  /\ log (state_after call st)
     = log st ++ [CreateTableIfNotExists (_table_name category)].
Proof.
  intros Hp call. subst call.
  pose proof (ensure_table_exists_spec category st) as Hens. rewrite Hp in Hens.
  unfold outcome, state_after, query, client_query.
  rewrite (bind_inr _ _ _ _ _ Hens). split; reflexivity.
Qed.

(** X7.  A negative [n_results] is refused by the engine: with at least one
    query text, [query] ends with the engine's error for the first text and
    returns nothing. *)
Theorem query_negative_limit category query_embeddings text texts k where_
    where_document include st n :
  Ident.parse (_table_name category) = Some n ->
  k < 0 ->
  let call := query category query_embeddings (Some (text :: texts)) k where_
                    where_document include in
  outcome call st = inl (DatabaseError InvalidRowCount)
  /\ log (state_after call st)
     = log st ++ [CreateTableIfNotExists (_table_name category);
                  SelectNearest (_table_name category)
                                (create_embedding text) k].
Proof.
  intros Hp Hk call. subst call.
  pose proof (ensure_table_exists_spec category st) as Hens. rewrite Hp in Hens.
  set (st0 := mkState _ _) in Hens.
  assert (Ht : exists t, db st0 !! n = Some t).
  { subst st0. cbn [db]. destruct (db st !! n) as [t|] eqn:Hn; [now exists t|].
    exists empty_table. apply lookup_insert_eq. }
  destruct Ht as [t Ht].
  assert (Hone : query_one (_table_name category) k empty_results text st0
                 = (inl (DatabaseError InvalidRowCount),
                    mkState (db st0)
                      (log st0 ++ [SelectNearest (_table_name category)
                                                 (create_embedding text) k]))).
  { unfold query_one, bind, execute. cbn [run].
    unfold run_nearest, find_table, and_then, ident. rewrite Hp, Ht.
    apply Z.ltb_lt in Hk. now rewrite Hk. }
  unfold outcome, state_after, query, client_query.
  rewrite (bind_inr _ _ _ _ _ Hens). cbn [iter].
  rewrite (bind_inr _ _ st0 (text :: texts) st0) by reflexivity.
  cbn [foldM]. rewrite (bind_inl _ _ _ _ _ Hone).
  subst st0. cbn [fst snd log]. rewrite <- app_assoc. split; reflexivity.
Qed.

(** *** [get] and [peek] *)

Lemma get_scan category ids where_ limit offset where_document include st :
  truthy_list ids = false ->
  get category ids where_ limit offset where_document include st
  = (rs <- execute (SelectLimitOffset (_table_name category)
                                      (default 100 limit) (default 0 offset)) ;;
     rows_to_dictionaries rs) st.
Proof. intros H. unfold get. now rewrite H. Qed.



Lemma get_page_spec category ids where_ limit offset where_document include
    st n t :
  find_table (db st) (_table_name category) = inr (n, t) ->
  NoDup (user_columns t) ->
  truthy_list ids = false ->
  let l := default 100 limit in
  let o := default 0 offset in
  outcome (get category ids where_ limit offset where_document include) st
  = if (l <? 0) || (o <? 0)
    then inl (DatabaseError InvalidRowCount)
    else inr (marshal t (take (Z.to_nat l) (drop (Z.to_nat o) (t_rows t)))).
Proof.
  intros Hfind Hn Hids l o. unfold outcome. rewrite get_scan by exact Hids.
  unfold bind, execute. cbn [run]. unfold run_select_all. rewrite Hfind.
  unfold and_then, limit_offset. fold l o. cbn [snd].
  destruct ((l <? 0) || (o <? 0)); [reflexivity|].
  now rewrite rows_to_dictionaries_spec by exact Hn.
Qed.

(** X9.  Without ids (none, or an empty list), [get] returns a page of the
    table: the rows from [offset] on, at most [limit] of them, in the
    table's order, where a missing limit is 100 and a missing offset 0.  A
    negative limit or offset is the engine's error. *)
Theorem get_page category ids where_ limit offset where_document include
    st n t :
  find_table (db st) (_table_name category) = inr (n, t) ->
  NoDup (user_columns t) ->
  truthy_list ids = false ->
  let l := default 100 limit in
  let o := default 0 offset in
  outcome (get category ids where_ limit offset where_document include) st
  = if (l <? 0) || (o <? 0)
    then inl (DatabaseError InvalidRowCount)
    else inr (marshal t (take (Z.to_nat l) (drop (Z.to_nat o) (t_rows t)))).
Proof.
  exact (get_page_spec category ids where_ limit offset where_document
           include st n t).
Qed.

Lemma marshal_app t rows1 rows2 :
  marshal t (rows1 ++ rows2) = results_app (marshal t rows1) (marshal t rows2).
Proof. unfold marshal, results_app. cbn. now rewrite !map_app. Qed.

(** X10.  Consecutive pages tile the table: a page of [a] rows at offset
    [o] followed by a page of [b] rows at offset [o + a] is the page of
    [a + b] rows at offset [o]. *)
Theorem get_pages_compose category where_ where_document include st n t a b o :
  find_table (db st) (_table_name category) = inr (n, t) ->
  NoDup (user_columns t) ->
  0 <= a -> 0 <= b -> 0 <= o ->
  let page l o :=
    outcome (get category None where_ (Some l) (Some o) where_document include)
            st in
  exists r1 r2,
    page a o = inr r1 /\ page b (o + a) = inr r2
    /\ page (a + b) o = inr (results_app r1 r2).
Proof.
  intros Hfind Hn Ha Hb Ho page. subst page. cbv beta.
  rewrite !(get_page_spec category None _ _ _ _ _ _ n t Hfind Hn eq_refl).
  cbn [default from_option id].
  assert (Hneg : forall x y, 0 <= x -> 0 <= y -> (x <? 0) || (y <? 0) = false).
  { intros x y Hx Hy. apply orb_false_intro; now apply Z.ltb_ge. }
  rewrite !Hneg by lia.
  eexists _, _. split; [reflexivity|]. split; [reflexivity|].
  rewrite <- marshal_app. do 2 f_equal.
  rewrite !Z2Nat.inj_add by lia.
  rewrite <- (drop_drop (t_rows t)).
  apply eq_sym, take_take_drop.
Qed.

(** X11.  [peek] returns the first [limit] rows of the table. *)
Theorem peek_first_rows category limit st n t :
  find_table (db st) (_table_name category) = inr (n, t) ->
  NoDup (user_columns t) ->
  0 <= limit ->
  exists res,
    outcome (peek category limit) st = inr res
    /\ res = marshal t (take (Z.to_nat limit) (t_rows t))
    /\ (length (g_ids res) <= Z.to_nat limit)%nat.
Proof.
  intros Hfind Hn Hl. eexists. unfold peek.
  rewrite (get_page_spec category None _ _ _ _ _ _ n t Hfind Hn eq_refl).
  cbn [default from_option id].
  apply Z.ltb_ge in Hl. rewrite Hl. cbn [orb Z.ltb Z.compare].
  change (Z.to_nat 0) with 0%nat. cbn [drop].
  split; [reflexivity|]. split; [reflexivity|].
  cbn [marshal g_ids]. rewrite length_map, length_take. lia.
Qed.

Lemma ids_accepted ids ints st :
  Forall2 (fun i z => id_value i = Some z) ids ints ->
  forallb is_str_or_int ids = true
  /\ mapM py_int ids st = (inr ints, st).
Proof.
  induction 1 as [|i z ids ints Hi _ [IH1 IH2]]; [split; reflexivity|].
  cbn [forallb mapM]. rewrite IH1.
  destruct i as [|z'|s]; cbn in Hi; [discriminate| |].
  - injection Hi as ->. split; [reflexivity|].
    unfold bind at 1. cbn [py_int ret]. now rewrite (bind_inr _ _ _ _ _ IH2).
  - split; [reflexivity|].
    unfold bind at 1. cbn [py_int]. rewrite Hi. cbn [ret].
    now rewrite (bind_inr _ _ _ _ _ IH2).
Qed.

Lemma filter_map_sublist {A B} (f : A -> B) (P : A -> Prop)
    `{!forall x, Decision (P x)} (l : list A) :
  map f (filter P l) `sublist_of` map f l.
Proof.
  induction l as [|a l IH]; [constructor|].
  rewrite filter_cons. destruct (decide (P a)); cbn.
  - now apply sublist_skip.
  - now apply sublist_cons.
Qed.

Lemma rows_with_ids_length (rows : list Row) (ints : list Z) :
  NoDup (map r_id rows) ->
  (length (filter (fun r => r_id r ∈ ints) rows) <= length ints)%nat.
Proof.
  intros Hn.
  rewrite <- (length_map r_id (filter _ rows)).
  apply submseteq_length, NoDup_submseteq.
  - exact (sublist_NoDup _ _ Hn (filter_map_sublist r_id _ rows)).
  - intros z Hz. apply list_elem_of_In, in_map_iff in Hz as (r & <- & Hr).
    apply list_elem_of_In, list_elem_of_filter in Hr. tauto.
Qed.

(** X12.  With ids of integer form, given as [int] or as [str], and no
    limit or offset, [get] returns exactly the rows of the table whose id
    is one of the ids, in the table's order.  The limit the code supplies,
    the number of ids, cuts nothing off when the ids of the table are
    distinct. *)
Theorem get_by_ids category ids ints where_ where_document include st n t :
  find_table (db st) (_table_name category) = inr (n, t) ->
  NoDup (user_columns t) ->
  NoDup (map r_id (t_rows t)) ->
  ids <> [] ->
  Forall2 (fun i z => id_value i = Some z) ids ints ->
  outcome (get category (Some ids) where_ None None where_document include) st
  = inr (marshal t (filter (fun r => r_id r ∈ ints) (t_rows t))).
Proof.
  intros Hfind Hn Hpk Hne Hids.
  destruct (ids_accepted ids ints st Hids) as [Hok Hints].
  pose proof (Forall2_length _ _ _ Hids) as Hlen.
  unfold outcome, get.
  destruct ids as [|i ids]; [congruence|].
  cbn [truthy_list negb default from_option]. unfold id.
  rewrite Hok. cbn [negb].
  unfold bind at 1. rewrite (bind_inr _ _ _ _ _ Hints).
  unfold execute. cbn [run]. unfold run_select_ids. rewrite Hfind.
  unfold and_then, limit_offset. cbn [snd].
  assert (Hneg : (Z.of_nat (length (i :: ids)) <? 0) || (0 <? 0) = false).
  { apply orb_false_intro; [apply Z.ltb_ge; lia|reflexivity]. }
  rewrite Hneg. rewrite Nat2Z.id. change (Z.to_nat 0) with 0%nat. cbn [drop].
  rewrite take_ge by (rewrite Hlen; now apply rows_with_ids_length).
  now rewrite rows_to_dictionaries_spec by exact Hn.
Qed.

(** *** [delete] *)

Lemma digit_not_space c : PyStr.is_digit c = true -> PyStr.is_space c = false.
Proof.
  unfold PyStr.is_digit, PyStr.is_space. cbv zeta.
  generalize (nat_of_ascii c) as k. intros k H.
  apply andb_prop in H as [H1 H2].
  apply Nat.leb_le in H1, H2.
  apply orb_false_intro.
  - apply andb_false_iff. right. apply Nat.leb_gt. lia.
  - apply Nat.eqb_neq. lia.
Qed.

Lemma digit_not_char c d :
  PyStr.is_digit c = true -> PyStr.is_digit d = false -> Ascii.eqb c d = false.
Proof.
  intros Hc Hd. destruct (Ascii.eqb c d) eqn:Heq; [|reflexivity].
  apply Ascii.eqb_eq in Heq. congruence.
Qed.

Lemma lstrip_digit c cs :
  PyStr.is_digit c = true -> PyStr.lstrip (c :: cs) = c :: cs.
Proof. intros Hc. cbn. now rewrite (digit_not_space c Hc). Qed.

Lemma strip_digits cs :
  forallb PyStr.is_digit cs = true -> PyStr.strip cs = cs.
Proof.
  intros Hall. unfold PyStr.strip.
  assert (Hl : forall l, forallb PyStr.is_digit l = true -> PyStr.lstrip l = l).
  { intros [|c l] H; [reflexivity|]. cbn in H. apply andb_prop in H as [Hc _].
    now apply lstrip_digit. }
  rewrite (Hl cs Hall). rewrite Hl; [apply rev_involutive|].
  rewrite forallb_forall in *. intros c Hc. apply Hall. now apply in_rev.
Qed.

Lemma digits_go_digits cs :
  forallb PyStr.is_digit cs = true ->
  forall prev acc, prev = true \/ cs <> [] ->
                   is_Some (PyStr.digits_go prev acc cs).
Proof.
  induction cs as [|c cs IH]; intros Hall prev acc Hstart; cbn.
  - destruct Hstart as [->|Hne]; [eauto|congruence].
  - cbn in Hall. apply andb_prop in Hall as [Hc Hall]. rewrite Hc.
    apply IH; [exact Hall|now left].
Qed.

Lemma int_of_str_digits s :
  PyStr.isdigit s = true -> is_Some (PyStr.int_of_str s).
Proof.
  unfold PyStr.isdigit, PyStr.int_of_str.
  destruct (list_ascii_of_string s) as [|c cs] eqn:Hs; [discriminate|].
  intros Hall. rewrite strip_digits by exact Hall.
  pose proof Hall as Hall'. cbn in Hall'. apply andb_prop in Hall' as [Hc _].
  rewrite (digit_not_char c "-" Hc eq_refl), (digit_not_char c "+" Hc eq_refl).
  apply digits_go_digits; [exact Hall|now right].
Qed.

(** The ids [delete] lets through are ids [int()] converts. *)
Lemma digits_form_ids ids :
  forallb digits_form ids = true ->
  exists ints, Forall2 (fun i z => id_value i = Some z) ids ints.
Proof.
  induction ids as [|i ids IH]; [exists []; constructor|].
  cbn [forallb]. intros H. apply andb_prop in H as [Hi Hids].
  destruct (IH Hids) as [ints Hints].
  unfold digits_form in Hi. apply andb_prop in Hi as [Hk Hd].
  destruct i as [|z|s]; [discriminate| |].
  - exists (z :: ints). now constructor.
  - destruct (int_of_str_digits s Hd) as [z Hz].
    exists (z :: ints). now constructor.
Qed.

Lemma delete_conditions category ids (where_ : option Dict)
    (where_document : option (list (string * string))) st st0 conditions :
  ensure_table_exists category st = (inr tt, st0) ->
  (match ids with
   | Some ids =>
       if negb (forallb digits_form ids) then raise (PyException ids_message)
       else ids <- mapM py_int ids ;; ret [CondIdAny ids]
   | None => ret []
   end) st0 = (inr conditions, st0) ->
  let conditions :=
    match where_document with
    | Some where_document =>
        match dict_get "$contains" where_document with
        | Some s => conditions ++ [CondDocumentLike ("%" ++ s ++ "%")%string]
        | None => conditions
        end
    | None => conditions
    end in
  let conditions :=
    match where_ with
    | Some where_ =>
        conditions ++ map (fun kv : string * Scalar => CondEq kv.1 kv.2) where_
    | None => conditions
    end in
  delete category ids where_ where_document st
  = match conditions with
    | _ :: _ =>
        (execute (Delete (_table_name category) conditions) ;;; ret tt) st0
    | [] => (inl (PyException delete_message), st0)
    end.
Proof.
  intros Hens Hconds. cbv zeta. unfold delete.
  rewrite (bind_inr _ _ _ _ _ Hens).
  change (fun i => is_str_or_int i && PyStr.isdigit (py_str i)) with digits_form.
  rewrite (bind_inr _ _ _ _ _ Hconds).
  now destruct (match where_ with Some _ => _ | None => _ end).
Qed.

(** X13.  [delete] refuses an id list with an element that is not an [int]
    or [str] written with digits only (so also a negative number, or a
    string with a sign or blanks, which [get] accepts): it raises its
    exception, only the [CREATE TABLE IF NOT EXISTS] has reached the engine,
    and every table keeps its rows, whatever the other predicates are. *)
Theorem delete_malformed_ids category ids where_ where_document st n
    (i : Scalar) :
  Ident.parse (_table_name category) = Some n ->
  i ∈ ids ->
  digits_form i = false ->
  let call := delete category (Some ids) where_ where_document in
  outcome call st = inl (PyException ids_message)
  /\ log (state_after call st)
     = log st ++ [CreateTableIfNotExists (_table_name category)]
  /\ forall m, stored_rows (db (state_after call st)) m = stored_rows (db st) m.
Proof.
  intros Hp Hin Hi call. subst call.
  assert (Hbad : forallb digits_form ids = false).
  { apply not_true_iff_false. intros Hall. rewrite forallb_forall in Hall.
    apply list_elem_of_In in Hin. apply Hall in Hin. congruence. }
  pose proof (ensure_table_exists_rows category st) as Hrows.
  pose proof (ensure_table_exists_spec category st) as Hens. rewrite Hp in Hens.
  unfold state_after, outcome in *. rewrite Hens in Hrows.
  unfold delete. rewrite (bind_inr _ _ _ _ _ Hens).
  change (fun i => is_str_or_int i && PyStr.isdigit (py_str i)) with digits_form.
  rewrite Hbad. cbn [negb]. unfold bind, raise. cbn [fst snd log].
  split; [reflexivity|]. split; [reflexivity|exact Hrows].
Qed.

Lemma delete_ids_conditions ids ints st :
  forallb digits_form ids = true ->
  Forall2 (fun i z => id_value i = Some z) ids ints ->
  (if negb (forallb digits_form ids) then raise (PyException ids_message)
   else ids <- mapM py_int ids ;; ret [CondIdAny ids]) st
  = (inr [CondIdAny ints], st).
Proof.
  intros Hok Hints. rewrite Hok. cbn [negb].
  destruct (ids_accepted ids ints st Hints) as [_ Hmap].
  now rewrite (bind_inr _ _ _ _ _ Hmap).
Qed.

Lemma int4_form_ids ids ints :
  Forall2 (fun i z => id_value i = Some z) ids ints ->
  forallb int4_form ids = true ->
  forallb in_int4 ints = true.
Proof.
  induction 1 as [|i z ids ints Hi _ IH]; [reflexivity|].
  cbn [forallb]. intros H. apply andb_prop in H as [H1 H2].
  unfold int4_form in H1. rewrite Hi in H1. cbn in H1.
  now rewrite H1, IH.
Qed.

Lemma run_delete_ids (d : gmap string Table) tn n t ints :
  find_table d tn = inr (n, t) ->
  forallb in_int4 ints = true ->
  run_delete d tn [CondIdAny ints]
  = inr (<[n := mkTable (t_columns t)
                   (filter (fun r => r_id r ∉ ints) (t_rows t))]> d, no_rows).
Proof.
  intros Hfind Hrange. unfold run_delete. rewrite Hfind.
  cbn [traverse cond_test]. rewrite Hrange. cbn.
  do 4 f_equal. apply list_filter_iff. intros r. cbn.
  rewrite andb_true_r. split.
  - intros H Hin. now rewrite bool_decide_eq_true_2 in H.
  - intros H. now apply bool_decide_eq_false_2.
Qed.

Lemma delete_ids_spec category ids st n t :
  find_table (db st) (_table_name category) = inr (n, t) ->
  forallb digits_form ids = true ->
  forallb int4_form ids = true ->
  exists ints,
    Forall2 (fun i z => id_value i = Some z) ids ints
    /\ delete category (Some ids) None None st
       = (inr tt,
          mkState (<[n := mkTable (t_columns t)
                            (filter (fun r => r_id r ∉ ints) (t_rows t))]>
                     (db st))
                  (log st ++ [CreateTableIfNotExists (_table_name category);
                              Delete (_table_name category) [CondIdAny ints]])).
Proof.
  intros Hfind Hok Hrange. destruct (digits_form_ids ids Hok) as [ints Hints].
  exists ints. split; [exact Hints|].
  assert (Hp : Ident.parse (_table_name category) = Some n
               /\ db st !! n = Some t).
  { unfold find_table, ident, and_then in Hfind.
    destruct (Ident.parse (_table_name category)) as [m|]; [|discriminate].
    destruct (db st !! m) eqn:Hm; [|discriminate].
    injection Hfind as <- <-. now split. }
  destruct Hp as [Hp Ht].
  pose proof (ensure_table_exists_spec category st) as Hens.
  rewrite Hp, Ht in Hens.
  pose proof (delete_conditions category (Some ids) None None st _
                [CondIdAny ints] Hens
                (delete_ids_conditions ids ints _ Hok Hints)) as Hdel.
  cbv zeta in Hdel. rewrite Hdel.
  unfold bind, execute. cbn [run db log].
  rewrite (run_delete_ids (db st) _ n t ints Hfind
             (int4_form_ids ids ints Hints Hrange)).
  cbn [ret]. now rewrite <- app_assoc.
Qed.

(** X14.  [delete] by ids.  On an existing table, with ids written with
    digits only that stand for integers of 32 bits, and no other predicate,
    [delete] succeeds and removes exactly the rows whose id is one of the
    ids; the other rows stay, in their order.  An empty id list is accepted
    and removes nothing. *)
Theorem delete_by_ids category ids st n t :
  find_table (db st) (_table_name category) = inr (n, t) ->
  forallb digits_form ids = true ->
  forallb int4_form ids = true ->
  exists ints,
    Forall2 (fun i z => id_value i = Some z) ids ints
    /\ delete category (Some ids) None None st
       = (inr tt,
          mkState (<[n := mkTable (t_columns t)
                            (filter (fun r => r_id r ∉ ints) (t_rows t))]>
                     (db st))
                  (log st ++ [CreateTableIfNotExists (_table_name category);
                              Delete (_table_name category) [CondIdAny ints]])).
Proof. exact (delete_ids_spec category ids st n t). Qed.

Lemma rows_to_dictionaries_nil columns st :
  rows_to_dictionaries (mkResultSet columns []) st
  = (inr (mkGetResult [] [] []), st).
Proof. reflexivity. Qed.

Lemma filter_none {A} (P : A -> Prop) `{!forall x, Decision (P x)}
    (l : list A) :
  Forall (fun x => ~ P x) l -> filter P l = [].
Proof.
  induction 1 as [|a l Ha _ IH]; [reflexivity|].
  rewrite filter_cons. now destruct (decide (P a)).
Qed.

(** X15.  After [delete(ids)], [get(ids)] finds nothing: on an existing
    table, with a non-empty list of ids written with digits only that stand
    for integers of 32 bits, deleting by these ids and then getting by them
    returns the empty result. *)
Theorem delete_then_get category ids where_ where_document include st n t :
  find_table (db st) (_table_name category) = inr (n, t) ->
  forallb digits_form ids = true ->
  forallb int4_form ids = true ->
  ids <> [] ->
  outcome (delete category (Some ids) None None ;;;
           get category (Some ids) where_ None None where_document include) st
  = inr (mkGetResult [] [] []).
Proof.
  intros Hfind Hok Hrange Hne.
  destruct (delete_ids_spec category ids st n t Hfind Hok Hrange)
    as (ints & Hints & Hdel).
  unfold outcome. rewrite (bind_inr _ _ _ _ _ Hdel).
  match goal with |- (get _ _ _ _ _ _ _ ?s).1 = _ => set (st1 := s) end.
  destruct (ids_accepted ids ints st1 Hints) as [Hstr Hmap].
  assert (Hfind1 : find_table (db st1) (_table_name category)
                   = inr (n, mkTable (t_columns t)
                               (filter (fun r => r_id r ∉ ints) (t_rows t)))).
  { unfold find_table, ident, and_then in *.
    destruct (Ident.parse (_table_name category)) as [m|]; [|discriminate].
    destruct (db st !! m) eqn:Hm; [|discriminate]. injection Hfind as <- <-.
    subst st1. cbn [db]. now rewrite lookup_insert_eq. }
  unfold get. destruct ids as [|i ids]; [congruence|].
  cbn [truthy_list negb default from_option]. unfold id.
  rewrite Hstr. cbn [negb].
  unfold bind at 1. rewrite (bind_inr _ _ _ _ _ Hmap).
  unfold execute. cbn [run]. unfold run_select_ids. rewrite Hfind1.
  unfold and_then at 1. cbn [snd t_rows].
  rewrite (filter_none (fun r : Row => r_id r ∈ ints)).
  2:{ apply Forall_forall. intros r Hr.
      apply list_elem_of_filter in Hr. tauto. }
  unfold and_then, limit_offset.
  assert (Hneg : (Z.of_nat (length (i :: ids)) <? 0) || (0 <? 0) = false).
  { apply orb_false_intro; [apply Z.ltb_ge; lia|reflexivity]. }
  rewrite Hneg. now rewrite drop_nil, take_nil.
Qed.

Lemma run_delete_sublist (d d' : gmap string Table) tn conditions rs :
  run_delete d tn conditions = inr (d', rs) ->
  forall m, stored_rows d' m `sublist_of` stored_rows d m.
Proof.
  unfold run_delete, find_table, ident. intros H m. revert H.
  destruct (Ident.parse tn) as [n|]; cbn [and_then]; [|discriminate].
  destruct (d !! n) as [t|] eqn:Hn; cbn [and_then]; [|discriminate].
  destruct (traverse _ conditions) as [|tests]; cbn [and_then];
    [discriminate|].
  intros [= <- _]. unfold stored_rows. cbn [fst snd].
  destruct (decide (n = m)) as [<-|Hne].
  - rewrite lookup_insert_eq, Hn. cbn [t_rows]. apply sublist_filter.
  - now rewrite lookup_insert_ne.
Qed.

(** X16.  [delete] only ever removes rows.  Let the table name and the
    keys of [where] be identifiers.  Whatever the other arguments and
    whether [delete] returns or raises, afterwards every table holds a
    sub-sequence of the rows it held before: no row is added, changed or
    moved. *)
Theorem delete_only_removes category ids (where_ : option Dict)
    where_document st m :
  identifier (_table_name category) ->
  Forall identifier (map fst (default [] where_)) ->
  stored_rows (db (state_after (delete category ids where_ where_document) st)) m
  `sublist_of` stored_rows (db st) m.
Proof.
  intros _ _.
  pose proof (ensure_table_exists_rows category st m) as Hens.
  unfold state_after, delete in *. unfold bind at 1.
  destruct (ensure_table_exists category st) as [[e|[]] st0]; cbn [snd] in *;
    [now rewrite Hens|].
  rewrite <- Hens. clear Hens. unfold bind at 1.
  match goal with |- context [match ?c st0 with _ => _ end] =>
    assert (Hst : stateless c); [|specialize (Hst st0);
      destruct (c st0) as [[e|conditions] st1]; cbn [snd] in Hst; subst st1] end.
  { destruct ids as [ids'|]; [|apply stateless_ret].
    destruct (negb _); [apply stateless_raise|].
    apply stateless_bind; [|intros; apply stateless_ret].
    apply stateless_mapM, stateless_py_int. }
  - reflexivity.
  - cbv zeta.
    match goal with |- context [match ?l with [] => _ | _ :: _ => _ end] =>
      destruct l as [|c cs] end; [reflexivity|].
    unfold bind, execute.
    destruct (run _ (db st0)) as [err|[d' rs]] eqn:Hrun; cbn [snd db];
      [reflexivity|].
    cbn [run] in Hrun. exact (run_delete_sublist _ _ _ _ _ Hrun m).
Qed.

(** X17.  [delete] needs a condition it understands.  With no ids, a
    [where_document] that is missing or has no ["$contains"] key, and a
    [where] that is missing or empty, nothing can be deleted: the call
    raises its exception after the [CREATE TABLE IF NOT EXISTS], and every
    table keeps its rows. *)
Theorem delete_needs_condition category (where_ : option Dict)
    (where_document : option (list (string * string))) st n :
  Ident.parse (_table_name category) = Some n ->
  default [] where_ = [] ->
  dict_get "$contains" (default [] where_document) = None ->
  let call := delete category None where_ where_document in
  outcome call st = inl (PyException delete_message)
  /\ log (state_after call st)
     = log st ++ [CreateTableIfNotExists (_table_name category)]
  /\ forall m, stored_rows (db (state_after call st)) m = stored_rows (db st) m.
Proof.
  intros Hp Hwhere Hdoc call. subst call.
  pose proof (ensure_table_exists_rows category st) as Hrows.
  pose proof (ensure_table_exists_spec category st) as Hens. rewrite Hp in Hens.
  pose proof (delete_conditions category None where_ where_document st _ []
                Hens eq_refl) as Hdel.
  cbv zeta in Hdel. unfold state_after, outcome in *.
  rewrite Hens in Hrows. rewrite Hdel.
  destruct where_document as [wd|]; cbn [default from_option id] in Hdoc;
    [unfold id in Hdoc; rewrite Hdoc|];
    (destruct where_ as [w|]; cbn [default from_option] in Hwhere;
     [unfold id in Hwhere; subst w|]; cbn [app map fst snd log];
     (split; [reflexivity|]; split; [reflexivity|exact Hrows])).
Qed.

(** *** [update] *)

(** X18.  An embedding needs a document.  When the document passed to
    [PostgresClient.update] is missing or empty, the embedding argument is
    never read, and if the metadata is missing or empty as well the call
    does what [ensure_table_exists] does and nothing more. *)
Theorem update_without_document category id_ document metadata
    (embedding1 embedding2 : option Emb) st :
  truthy_str document = false ->
  client_update category id_ document metadata embedding1 st
  = client_update category id_ document metadata embedding2 st
  /\ (truthy_list metadata = false ->
      client_update category id_ document metadata embedding1 st
      = ensure_table_exists category st).
Proof.
  intros Hdoc. unfold client_update. rewrite Hdoc. split; [reflexivity|].
  intros Hmeta. rewrite Hmeta. unfold bind.
  now destruct (ensure_table_exists category st) as [[e|[]] st0].
Qed.

Lemma touches_only_refl id_ rows : touches_only id_ rows rows.
Proof.
  exists (filter (its_row id_) rows). split; [|reflexivity].
  rewrite Permutation_app_comm. symmetry. apply filter_app_complement.
Qed.

Lemma run_update_rows (d d' : gmap string Table) tn document metadata id rs :
  run_update d tn document metadata id = inr (d', rs) ->
  exists n t rows,
    d !! n = Some t
    /\ d' = <[n := mkTable (t_columns t) rows]> d
    /\ touches_only id (t_rows t) rows.
Proof.
  unfold run_update, ident. intros H. revert H.
  destruct (Ident.parse tn) as [n|]; cbn [and_then]; [|discriminate].
  destruct (traverse _ (map fst metadata)); cbn [and_then]; [discriminate|].
  destruct (d !! n) as [t|] eqn:Hn; [|discriminate].
  destruct (traverse (target_column t) (map fst metadata)) as [|cols];
    cbn [and_then]; [discriminate|].
  destruct (_ || _); [discriminate|].
  destruct (traverse _ metadata) as [|sets]; cbn [and_then]; [discriminate|].
  destruct (int_of_scalar id) as [|wanted] eqn:Hid; cbn [and_then];
    [discriminate|].
  destruct (traverse _ (filter _ (t_rows t))) as [|news] eqn:Hnews;
    cbn [and_then]; [discriminate|].
  cbv zeta. destruct (_ && _); [discriminate|].
  intros [= <- _]. eexists n, t, _. do 2 (split; [reflexivity || assumption|]).
  assert (Hits : forall r, its_row id r <-> Some (r_id r) = wanted).
  { intros r. unfold its_row. rewrite Hid. split; intros H; congruence. }
  exists news. split.
  - apply Permutation_app_tail.
    rewrite (list_filter_iff (fun r => ~ its_row id r)
               (fun r => Some (r_id r) <> wanted));
      [reflexivity|]. intros r. now rewrite Hits.
  - apply traverse_inr, Forall2_length in Hnews. rewrite <- Hnews.
    f_equal. apply list_filter_iff. intros r. now rewrite Hits.
Qed.

Lemma execute_update_rows tn document metadata id_ st m :
  touches_only id_
    (stored_rows (db st) m)
    (stored_rows (db (execute (Update tn document metadata id_) st).2) m).
Proof.
  unfold execute.
  destruct (run _ (db st)) as [err|[d' rs]] eqn:Hrun; cbn [snd db].
  - apply touches_only_refl.
  - cbn [run] in Hrun.
    apply run_update_rows in Hrun as (n & t & rows & Hn & -> & Hrows).
    unfold stored_rows. destruct (decide (n = m)) as [<-|Hne].
    + now rewrite lookup_insert_eq, Hn.
    + rewrite lookup_insert_ne by exact Hne. apply touches_only_refl.
Qed.

Lemma prepared_update_rows category tn document metadata keys id_ st m :
  touches_only id_
    (stored_rows (db st) m)
    (stored_rows
       (db ((_ensure_metadata_columns_exist category keys ;;;
             execute (Update tn document metadata id_) ;;; ret tt) st).2)
       m).
Proof.
  pose proof (ensure_columns_rows category keys st m) as [_ Hrows].
  unfold state_after in Hrows. unfold bind at 1.
  destruct (_ensure_metadata_columns_exist category keys st) as [[e|[]] st1];
    cbn [snd] in *.
  - rewrite Hrows. apply touches_only_refl.
  - rewrite <- Hrows.
    pose proof (execute_update_rows tn document metadata id_ st1 m) as Hupd.
    unfold bind.
    destruct (execute (Update tn document metadata id_) st1) as [[e|rs] st2];
      exact Hupd.
Qed.

(** X19.  [PostgresClient.update] touches only the rows of its id.  Let
    the table name and the metadata keys be identifiers.  Whatever the
    other arguments and the outcome, every table has afterwards as many
    rows as before, and the rows whose id is not the one the engine reads
    the given id as are the rows they were (where the engine keeps an
    updated row is left open).  In particular an id that no row carries
    updates nothing and inserts nothing. *)
Theorem update_touches_only_its_id category id_ document
    (metadata : option Dict) embedding st m :
  identifier (_table_name category) ->
  Forall identifier (map fst (default [] metadata)) ->
  let before := stored_rows (db st) m in
  let after :=
    stored_rows
      (db (state_after
             (client_update category id_ document metadata embedding) st)) m in
  touches_only id_ before after
  /\ length after = length before
  /\ (forall r, r ∈ before -> ~ its_row id_ r -> r ∈ after)
  /\ (Forall (fun r => ~ its_row id_ r) before -> after ≡ₚ before).
Proof.
  intros _ _ before after.
  assert (H : touches_only id_ before after).
  { subst before after.
    pose proof (ensure_table_exists_rows category st m) as Hens.
    unfold state_after, client_update in *. unfold bind at 1.
    destruct (ensure_table_exists category st) as [[e|[]] st0]; cbn [snd] in *.
    { rewrite Hens. apply touches_only_refl. }
    rewrite <- Hens. clear Hens.
    destruct (if truthy_str document then document else None) as [d|];
      destruct (if truthy_list metadata then metadata else None) as [keys|].
    - apply prepared_update_rows.
    - pose proof (execute_update_rows (_table_name category)
                    (Some (d, match embedding with
                              | Some e => e
                              | None => create_embedding d
                              end)) [] id_ st0 m) as Hupd.
      unfold bind.
      destruct (execute _ st0) as [[e|rs] st2]; exact Hupd.
    - apply prepared_update_rows.
    - apply touches_only_refl. }
  split; [exact H|]. destruct H as (news & Hperm & Hlen).
  split; [|split].
  - rewrite Hperm, length_app, Hlen, <- length_app.
    apply Permutation_length. rewrite Permutation_app_comm.
    apply filter_app_complement.
  - intros r Hr Hnot. rewrite Hperm. apply elem_of_app. left.
    apply list_elem_of_filter. now split.
  - intros Hall. rewrite Hperm.
    assert (Hnone : filter (its_row id_) before = []).
    { apply filter_none. exact Hall. }
    rewrite Hnone in Hlen. destruct news; [|discriminate].
    rewrite app_nil_r.
    now rewrite (filter_all (fun r => ~ its_row id_ r)) by exact Hall.
Qed.

(** *** Arguments that must be lists *)

(** X20.  [add] and [update] zip their [documents] and [metadatas] with the
    ids, so neither may be left out: when [documents] or [metadatas] is
    [None], both methods raise [TypeError] before anything is sent, and the
    state is untouched.  An update of the metadata alone has to pass a list
    of [None] documents. *)
Theorem add_update_need_lists category ids embeddings st :
  (forall documents metadatas,
     documents = None \/ metadatas = None ->
     add category ids documents metadatas embeddings st = (inl TypeError, st))
  /\ (forall documents metadatas,
        documents = None \/ metadatas = None ->
        update category ids documents metadatas embeddings st
        = (inl TypeError, st)).
Proof.
  split; intros documents metadatas [-> | ->];
    unfold add, update; destruct embeddings; try reflexivity;
    destruct documents; reflexivity.
Qed.

(** *** [insert_memory] *)

Lemma run_insert_success (d d' : gmap string Table) tn k document e metadata rs :
  run_insert d tn (VInt k) document e metadata = inr (d', rs) ->
  exists n t cols,
    Ident.parse tn = Some n /\ d !! n = Some t
    /\ traverse (target_column t) (map fst metadata) = inr cols
    /\ NoDup (base_columns ++ cols)
    /\ (k ∉ map r_id (t_rows t))
    /\ d' = <[n := mkTable (t_columns t)
                     (t_rows t ++ [inserted_row k document e cols metadata])]> d.
Proof.
  unfold run_insert, ident. intros H. revert H.
  destruct (Ident.parse tn) as [n|] eqn:Hp; cbn [and_then]; [|discriminate].
  destruct (traverse _ (map fst metadata)); cbn [and_then]; [discriminate|].
  destruct (d !! n) as [t|] eqn:Hn; [|discriminate].
  destruct (traverse (target_column t) (map fst metadata)) as [|cols] eqn:Hcols;
    cbn [and_then]; [discriminate|].
  destruct (bool_decide (NoDup _)) eqn:Hnd; [|discriminate].
  destruct (bool_decide (k ∈ _)) eqn:Hk; [discriminate|].
  intros [= <- _]. exists n, t, cols.
  apply bool_decide_eq_true_1 in Hnd. apply bool_decide_eq_false_1 in Hk.
  do 5 (split; [assumption || reflexivity|]). reflexivity.
Qed.

Lemma insert_memory_run category document metadata embedding st st1 :
  (ensure_table_exists category ;;;
   _ensure_metadata_columns_exist category metadata) st = (inr tt, st1) ->
  exists n t,
    Ident.parse (_table_name category) = Some n /\ db st1 !! n = Some t /\
    let tn := _table_name category in
    let k := Z.of_nat (length (t_rows t)) in
    let e := match embedding with
             | None => create_embedding document
             | Some e => e
             end in
    let log' := log st1 ++ [CreateTableIfNotExists tn; SelectCount tn;
                            Insert tn (VInt k) document e metadata] in
    insert_memory category document metadata embedding None st
    = match run_insert (db st1) tn (VInt k) document e metadata with
      | inr (db', _) => (inr (VInt k), mkState db' log')
      | inl err => (inl (DatabaseError err), mkState (db st1) log')
      end.
Proof.
  intros H.
  destruct (insert_memory_assigns_row_count category document metadata embedding
              st st1 H) as (n & t & Hp & Ht & _).
  exists n, t. split; [exact Hp|]. split; [exact Ht|]. cbv zeta.
  unfold bind in H.
  destruct (ensure_table_exists category st) as [[e0|[]] st0] eqn:H0;
    [discriminate|].
  pose proof (count_spec category st1 n t Hp Ht) as Hcount.
  unfold insert_memory.
  rewrite (bind_inr _ _ _ _ _ H0), (bind_inr _ _ _ _ _ H).
  rewrite (bind_inr _ _ _ _ _ Hcount).
  unfold bind, execute. cbn [run db log].
  rewrite <- app_assoc. cbn [app].
  destruct (run_insert _ _ _ _ _ _) as [err|[db' rs]] eqn:Hrun; [reflexivity|].
  apply run_insert_inr in Hrun as (_ & _ & _ & _ & _ & _ & -> & _).
  reflexivity.
Qed.

(** X21.  An id that is taken is not replaced.  When the number of rows of
    the table is already the id of one of its rows (as after deleting any
    row but the last one), [insert_memory] without an id fails with an
    error of the engine and no table has changed a row. *)
Theorem insert_memory_id_taken category document metadata embedding st st1 n t :
  (ensure_table_exists category ;;;
   _ensure_metadata_columns_exist category metadata) st = (inr tt, st1) ->
  Ident.parse (_table_name category) = Some n ->
  db st1 !! n = Some t ->
  Z.of_nat (length (t_rows t)) ∈ map r_id (t_rows t) ->
  let call := insert_memory category document metadata embedding None in
  (exists err, outcome call st = inl (DatabaseError err))
  /\ forall m, stored_rows (db (state_after call st)) m = stored_rows (db st) m.
Proof.
  intros H Hp Ht Htaken call. subst call.
  destruct (insert_memory_run category document metadata embedding st st1 H)
    as (n' & t' & Hp' & Ht' & Hcall).
  rewrite Hp in Hp'. injection Hp' as <-.
  rewrite Ht in Ht'. injection Ht' as <-.
  cbv zeta in Hcall. unfold outcome, state_after. rewrite Hcall.
  assert (Hrows : forall m, stored_rows (db st1) m = stored_rows (db st) m).
  { intros m.
    pose proof (ensure_table_exists_rows category st m) as H1.
    unfold state_after in H1. unfold bind in H.
    destruct (ensure_table_exists category st) as [[e0|[]] st0];
      [discriminate|]. cbn [snd] in H1. rewrite <- H1.
    pose proof (ensure_columns_rows category metadata st0 m) as [_ H2].
    unfold state_after in H2. now rewrite H in H2. }
  destruct (run_insert _ _ _ _ _ _) as [err|[db' rs]] eqn:Hrun.
  - split; [now exists err|exact Hrows].
  - apply run_insert_success in Hrun
      as (n' & t' & cols & Hp' & Ht' & _ & _ & Hfresh & _).
    rewrite Hp in Hp'. injection Hp' as <-.
    rewrite Ht in Ht'. injection Ht' as <-. contradiction.
Qed.

Lemma traverse_error {A B} (f : A -> Res B) (l : list A) (e : EngineErr)
    (P : EngineErr -> Prop) :
  (forall a e, f a = inl e -> P e) -> traverse f l = inl e -> P e.
Proof.
  intros Hf. induction l as [|a l IH]; cbn; [discriminate|].
  unfold and_then. destruct (f a) as [e'|b] eqn:Ha.
  - intros [= <-]. eauto.
  - destruct (traverse f l); [|discriminate]. intros [= <-]. now apply IH.
Qed.

Lemma ident_spec name n : ident name = inr n <-> Ident.parse name = Some n.
Proof.
  unfold ident. destruct (Ident.parse name); split; congruence.
Qed.

Lemma ident_error name e : ident name = inl e -> e <> UniqueViolation.
Proof. unfold ident. destruct (Ident.parse name); congruence. Qed.

Lemma target_column_error t key e :
  target_column t key = inl e -> e <> UniqueViolation.
Proof.
  unfold target_column, and_then, ident.
  destruct (Ident.parse key); [|congruence].
  destruct (bool_decide _); [discriminate|].
  destruct (bool_decide _); congruence.
Qed.

Lemma dense_ids_fresh rows : dense_ids rows -> Z.of_nat (length rows) ∉ map r_id rows.
Proof.
  unfold dense_ids. intros -> Hin.
  apply list_elem_of_In, in_map_iff in Hin as (i & Hi & Hin).
  apply in_seq in Hin. lia.
Qed.

Lemma dense_ids_snoc rows r :
  dense_ids rows -> r_id r = Z.of_nat (length rows) -> dense_ids (rows ++ [r]).
Proof.
  unfold dense_ids. intros Hd Hr.
  rewrite map_app, length_app. cbn [length map]. rewrite Nat.add_1_r, seq_S.
  rewrite map_app, Hd, Hr. reflexivity.
Qed.

(** X22.  Ids stay dense.  When the rows of the table carry the ids
    [0 .. n-1] in order, as they do when every row came from [insert_memory]
    without an id, the next such insert cannot collide: the engine's
    uniqueness check passes, and if the insert succeeds the rows carry the
    ids [0 .. n] in order, the new row last. *)
Theorem insert_memory_keeps_dense_ids category document metadata embedding
    st st1 n t :
  (ensure_table_exists category ;;;
   _ensure_metadata_columns_exist category metadata) st = (inr tt, st1) ->
  Ident.parse (_table_name category) = Some n ->
  db st1 !! n = Some t ->
  dense_ids (t_rows t) ->
  let call := insert_memory category document metadata embedding None in
  outcome call st <> inl (DatabaseError UniqueViolation)
  /\ (forall v, outcome call st = inr v ->
      v = VInt (Z.of_nat (length (t_rows t)))
      /\ exists r, stored_rows (db (state_after call st)) n = t_rows t ++ [r]
                   /\ r_document r = document
                   /\ dense_ids (t_rows t ++ [r])).
Proof.
  intros H Hp Ht Hdense call. subst call.
  destruct (insert_memory_run category document metadata embedding st st1 H)
    as (n' & t' & Hp' & Ht' & Hcall).
  rewrite Hp in Hp'. injection Hp' as <-.
  rewrite Ht in Ht'. injection Ht' as <-.
  cbv zeta in Hcall. unfold outcome, state_after. rewrite Hcall.
  destruct (run_insert _ _ _ _ _ _) as [err|[db' rs]] eqn:Hrun; cbn [fst snd db].
  - split; [|discriminate]. intros [= ->].
    revert Hrun. unfold run_insert. rewrite (proj2 (ident_spec _ _) Hp).
    cbn [and_then].
    destruct (traverse ident (map fst metadata)) as [e1|] eqn:H1;
      cbn [and_then].
    { intros [= ->].
      now apply (traverse_error ident _ _ (fun e => e <> UniqueViolation)
                   ident_error) in H1. }
    rewrite Ht.
    destruct (traverse (target_column t) (map fst metadata)) as [e2|] eqn:H2;
      cbn [and_then].
    { intros [= ->].
      now apply (traverse_error (target_column t) _ _
                   (fun e => e <> UniqueViolation) (target_column_error t))
        in H2. }
    destruct (bool_decide (NoDup _)); [|discriminate].
    rewrite bool_decide_eq_false_2 by now apply dense_ids_fresh.
    discriminate.
  - split; [discriminate|]. intros v [= <-]. split; [reflexivity|].
    apply run_insert_success in Hrun
      as (n' & t' & cols & Hp' & Ht' & _ & _ & _ & ->).
    rewrite Hp in Hp'. injection Hp' as <-.
    rewrite Ht in Ht'. injection Ht' as <-.
    eexists. unfold stored_rows. rewrite lookup_insert_eq. cbn [t_rows].
    split; [reflexivity|]. split; [reflexivity|].
    now apply dense_ids_snoc.
Qed.

(** *** Reading back what [insert_memory] wrote *)

Lemma meta_cells_nil_or_cons c cols v vals :
  meta_cells (c :: cols) (v :: vals)
  = match text_of_scalar v with
    | Some s => <[c := s]> (meta_cells cols vals)
    | None => meta_cells cols vals
    end.
Proof. unfold meta_cells. cbn. now destruct (text_of_scalar v). Qed.

Lemma meta_cells_absent c cols vals :
  c ∉ cols -> meta_cells cols vals !! c = None.
Proof.
  revert vals. induction cols as [|c0 cols IH]; intros vals Hc.
  - reflexivity.
  - destruct vals as [|v vals]; [reflexivity|].
    rewrite not_elem_of_cons in Hc. destruct Hc as [Hne Hc].
    rewrite meta_cells_nil_or_cons.
    destruct (text_of_scalar v); [rewrite lookup_insert_ne by congruence|];
      now apply IH.
Qed.

Lemma meta_cells_lookup c v cols vals :
  NoDup cols -> (c, v) ∈ zip cols vals ->
  meta_cells cols vals !! c = text_of_scalar v.
Proof.
  revert vals. induction cols as [|c0 cols IH]; intros vals Hn Hin.
  - inversion Hin.
  - destruct vals as [|v0 vals]; [inversion Hin|].
    apply NoDup_cons in Hn as [Hc0 Hn]. cbn [zip_with] in Hin.
    rewrite meta_cells_nil_or_cons.
    apply elem_of_cons in Hin as [[= -> ->]|Hin].
    + destruct (text_of_scalar v0); [apply lookup_insert_eq|].
      now apply meta_cells_absent.
    + assert (Hc : c ∈ cols).
      { apply list_elem_of_In in Hin. apply in_combine_l in Hin.
        now apply list_elem_of_In. }
      destruct (text_of_scalar v0);
        [rewrite lookup_insert_ne by (intros ->; contradiction)|];
        now apply IH.
Qed.

Lemma target_column_inr t k c :
  target_column t k = inr c -> Ident.parse k = Some c /\ c ∈ user_columns t.
Proof.
  unfold target_column, ident.
  destruct (Ident.parse k) as [c0|]; cbn [and_then]; [|discriminate].
  destruct (bool_decide (c0 ∈ user_columns t)) eqn:Hs.
  - intros [= <-]. split; [reflexivity|now apply bool_decide_eq_true_1 in Hs].
  - destruct (bool_decide (c0 ∈ system_columns)); discriminate.
Qed.

Lemma target_columns_zip t (metadata : Dict) cols key val c :
  traverse (target_column t) (map fst metadata) = inr cols ->
  (key, val) ∈ metadata ->
  Ident.parse key = Some c ->
  (c, val) ∈ zip cols (map snd metadata).
Proof.
  revert cols. induction metadata as [|[k v] metadata IH]; intros cols;
    [intros _ H; inversion H|].
  cbn [map fst snd traverse]. unfold and_then at 1.
  destruct (target_column t k) as [|c0] eqn:Hk; [discriminate|].
  unfold and_then at 1.
  destruct (traverse (target_column t) (map fst metadata)) as [|cs];
    [discriminate|].
  intros [= <-] Hin Hp. cbn [zip_with].
  apply elem_of_cons in Hin as [[= -> ->]|Hin].
  - apply target_column_inr in Hk as [Hk _]. rewrite Hp in Hk.
    injection Hk as <-. left.
  - right. now apply IH.
Qed.

Lemma target_columns_exist t keys cols :
  traverse (target_column t) keys = inr cols ->
  Forall (fun c => c ∈ user_columns t) cols.
Proof.
  revert cols. induction keys as [|k keys IH]; intros cols; cbn.
  - intros [= <-]. constructor.
  - unfold and_then. destruct (target_column t k) as [|c0] eqn:Hk;
      [discriminate|].
    destruct (traverse (target_column t) keys) as [|cs]; [discriminate|].
    intros [= <-]. constructor; [|now apply IH].
    now apply target_column_inr in Hk as [_ Hk].
Qed.

Lemma get_ids_spec category ids ints where_ where_document include st n t :
  find_table (db st) (_table_name category) = inr (n, t) ->
  NoDup (user_columns t) ->
  ids <> [] ->
  Forall2 (fun i z => id_value i = Some z) ids ints ->
  outcome (get category (Some ids) where_ None None where_document include) st
  = inr (marshal t (take (length ids)
                         (filter (fun r => r_id r ∈ ints) (t_rows t)))).
Proof.
  intros Hfind Hn Hne Hids.
  destruct (ids_accepted ids ints st Hids) as [Hok Hints].
  unfold outcome, get.
  destruct ids as [|i ids]; [congruence|].
  cbn [truthy_list negb default from_option]. unfold id.
  rewrite Hok. cbn [negb].
  unfold bind at 1. rewrite (bind_inr _ _ _ _ _ Hints).
  unfold execute. cbn [run]. unfold run_select_ids. rewrite Hfind.
  unfold and_then, limit_offset. cbn [snd].
  assert (Hneg : (Z.of_nat (length (i :: ids)) <? 0) || (0 <? 0) = false).
  { apply orb_false_intro; [apply Z.ltb_ge; lia|reflexivity]. }
  rewrite Hneg. rewrite Nat2Z.id. change (Z.to_nat 0) with 0%nat. cbn [drop].
  now rewrite rows_to_dictionaries_spec by exact Hn.
Qed.

(** X23.  What [insert_memory] wrote, [get] reads back.  Let the table be
    ready, with distinct column names, and let [insert_memory] without an id
    succeed.  Then it returned an id [k], and [get(ids=[k])] right after it
    returns exactly one record: the id [k], the document as written, and a
    metadata mapping with one entry per metadata column of the table.  In
    it every key that was written, under the name the engine reads it as
    (its lower-case form), is bound to the text of the value that was
    written ([None] for [None]); an [int] comes back as a [str]. *)
Theorem insert_then_get category document metadata embedding where_
    where_document include st st1 n t v :
  (ensure_table_exists category ;;;
   _ensure_metadata_columns_exist category metadata) st = (inr tt, st1) ->
  Ident.parse (_table_name category) = Some n ->
  db st1 !! n = Some t ->
  NoDup (user_columns t) ->
  outcome (insert_memory category document metadata embedding None) st = inr v ->
  exists k mapping,
    v = VInt k
    /\ outcome (insert_memory category document metadata embedding None ;;;
                get category (Some [SInt k]) where_ None None where_document
                    include) st
       = inr (mkGetResult [VInt k] [VStr document] [mapping])
    /\ map fst mapping = t_columns t
    /\ forall key val c,
         (key, val) ∈ metadata -> Ident.parse key = Some c ->
         (c, text_val (text_of_scalar val)) ∈ mapping.
Proof.
  intros H Hp Ht Hn Hout.
  destruct (insert_memory_run category document metadata embedding st st1 H)
    as (n' & t' & Hp' & Ht' & Hcall).
  rewrite Hp in Hp'. injection Hp' as <-.
  rewrite Ht in Ht'. injection Ht' as <-.
  cbv zeta in Hcall. unfold outcome in *. rewrite Hcall in Hout.
  destruct (run_insert _ _ _ _ _ _) as [err|[db' rs]] eqn:Hrun;
    [discriminate|].
  cbn [fst] in Hout. injection Hout as <-.
  apply run_insert_success in Hrun
    as (n' & t' & cols & Hp' & Ht' & Hcols & Hnd & Hfresh & ->).
  rewrite Hp in Hp'. injection Hp' as <-.
  rewrite Ht in Ht'. injection Ht' as <-.
  set (k := Z.of_nat (length (t_rows t))) in *.
  set (e := match embedding with
            | Some e => e
            | None => create_embedding document
            end) in *.
  set (r := inserted_row k document e cols metadata) in *.
  set (t' := mkTable (t_columns t) (t_rows t ++ [r])) in *.
  exists k, (row_metadata t' r). split; [reflexivity|].
  split; [|split].
  - rewrite (bind_inr _ _ _ _ _ Hcall).
    match goal with |- (get _ _ _ _ _ _ _ ?s).1 = _ => set (st' := s) end.
    assert (Hfind : find_table (db st') (_table_name category) = inr (n, t')).
    { unfold find_table, ident, and_then. rewrite Hp. subst st'. cbn [db].
      now rewrite lookup_insert_eq. }
    pose proof (get_ids_spec category [SInt k] [k] where_ where_document
                  include st' n t' Hfind Hn ltac:(discriminate)
                  ltac:(repeat constructor)) as Hget.
    unfold outcome in Hget. rewrite Hget. f_equal.
    subst t'. cbn [t_rows]. rewrite filter_app.
    rewrite (filter_none (fun r0 : Row => r_id r0 ∈ [k])).
    2:{ apply Forall_forall. intros r0 Hr0 Hin.
        apply list_elem_of_singleton in Hin. apply Hfresh.
        apply list_elem_of_In, in_map_iff. exists r0.
        split; [exact Hin|now apply list_elem_of_In]. }
    rewrite (filter_all (fun r0 : Row => r_id r0 ∈ [k]) [r])
      by (repeat constructor).
    reflexivity.
  - exact (row_metadata_keys t' r).
  - intros key val c Hin Hkey.
    pose proof (target_columns_zip t metadata cols key val c Hcols Hin Hkey)
      as Hzip.
    assert (Hc : c ∈ cols).
    { apply list_elem_of_In in Hzip. apply in_combine_l in Hzip.
      now apply list_elem_of_In. }
    apply NoDup_app in Hnd as (_ & Hbase & Hndc).
    assert (Hcol : c ∈ t_columns t').
    { pose proof (target_columns_exist t _ _ Hcols) as Hall.
      rewrite Forall_forall in Hall. specialize (Hall c Hc).
      unfold user_columns in Hall. apply elem_of_app in Hall as [Hb|Hall];
        [|exact Hall].
      exfalso. exact (Hbase c Hb Hc). }
    unfold row_metadata. apply list_elem_of_In, in_map_iff. exists c.
    split; [|now apply list_elem_of_In].
    subst r. cbn [r_meta inserted_row].
    now rewrite (meta_cells_lookup c val cols _ Hndc Hzip).
Qed.

(** *** [add] and [upsert] only append *)

Lemma appends_keeps_db {A} (m : M A) : keeps_db m -> appends m.
Proof. intros Hm st n. now rewrite Hm. Qed.

Lemma appends_bind {A B} (m : M A) (k : A -> M B) :
  appends m -> (forall a, appends (k a)) -> appends (bind m k).
Proof.
  intros Hm Hk st n. unfold bind. specialize (Hm st n).
  destruct (m st) as [[e|a] st1]; cbn [snd] in *; [exact Hm|].
  etrans; [exact Hm|apply Hk].
Qed.

Lemma appends_for_each {A} (f : A -> M unit) (l : list A) :
  (forall a, appends (f a)) -> appends (for_each f l).
Proof.
  intros Hf. induction l as [|a l IH]; cbn [for_each].
  - apply appends_keeps_db, keeps_db_stateless, stateless_ret.
  - apply appends_bind; [apply Hf|intros _; exact IH].
Qed.

Lemma appends_ensure_table_exists category :
  appends (ensure_table_exists category).
Proof.
  intros st n. pose proof (ensure_table_exists_rows category st n) as H.
  unfold state_after in H. now rewrite H.
Qed.

Lemma appends_ensure_columns category metadata :
  appends (_ensure_metadata_columns_exist category metadata).
Proof.
  intros st n. destruct (ensure_columns_rows category metadata st n) as [_ H].
  unfold state_after in H. now rewrite H.
Qed.

Lemma stored_rows_insert (d : gmap string Table) n t cols rows m :
  d !! n = Some t ->
  stored_rows (<[n := mkTable cols rows]> d) m
  = if decide (m = n) then rows else stored_rows d m.
Proof.
  intros Hn. unfold stored_rows. destruct (decide (m = n)) as [->|Hne].
  - now rewrite lookup_insert_eq.
  - now rewrite lookup_insert_ne by congruence.
Qed.

Lemma run_insert_appends (d d' : gmap string Table) tn id document e metadata
    rs :
  run_insert d tn id document e metadata = inr (d', rs) ->
  exists n t r z,
    id = VInt z /\ Ident.parse tn = Some n /\ d !! n = Some t
    /\ d' = <[n := mkTable (t_columns t) (t_rows t ++ [r])]> d
    /\ r_id r = z /\ r_document r = document /\ r_embedding r = Some e.
Proof.
  intros H.
  assert (Hid : exists z, id = VInt z).
  { revert H. unfold run_insert, ident.
    destruct (Ident.parse tn); cbn [and_then]; [|discriminate].
    destruct (traverse _ (map fst metadata)); cbn [and_then]; [discriminate|].
    destruct (d !! s); [|discriminate].
    destruct (traverse (target_column t) (map fst metadata));
      cbn [and_then]; [discriminate|].
    destruct (bool_decide (NoDup _)); [|discriminate].
    destruct id; try discriminate. intros _. now eexists. }
  destruct Hid as [z ->].
  destruct (run_insert_inr _ _ _ _ _ _ _ _ H)
    as (n & t & r & Hp & Hn & Hd & _ & Hr).
  exists n, t, r, z. now repeat split.
Qed.

Lemma appends_execute_insert tn id document e metadata :
  appends (execute (Insert tn id document e metadata)).
Proof.
  intros st m. unfold execute. cbn [run].
  destruct (run_insert (db st) tn id document e metadata) as [err|[d' rs]]
    eqn:Hrun; cbn [snd db]; [reflexivity|].
  apply run_insert_appends in Hrun
    as (n & t & r & z & _ & _ & Hn & -> & _).
  rewrite (stored_rows_insert _ _ _ _ _ _ Hn).
  destruct (decide (m = n)) as [->|_]; [|reflexivity].
  unfold stored_rows. rewrite Hn. now apply prefix_app_r.
Qed.

Lemma appends_fetchone0 rs : appends (fetchone0 rs).
Proof.
  apply appends_keeps_db, keeps_db_stateless. intros st. unfold fetchone0.
  destruct (fetched rs) as [|[|v row] rows]; reflexivity.
Qed.

Lemma appends_count category : appends (count category).
Proof.
  unfold count. apply appends_bind; [apply appends_ensure_table_exists|].
  intros _. apply appends_bind; [|intros rs; apply appends_fetchone0].
  now apply appends_keeps_db, keeps_db_execute.
Qed.

Lemma appends_insert_memory category document metadata embedding :
  appends (insert_memory category document metadata embedding None).
Proof.
  unfold insert_memory.
  apply appends_bind; [apply appends_ensure_table_exists|]. intros _.
  apply appends_bind; [apply appends_ensure_columns|]. intros _.
  apply appends_bind; [apply appends_count|]. intros id.
  apply appends_bind; [apply appends_execute_insert|]. intros rs.
  apply appends_fetchone0.
Qed.

Lemma appends_iter {A} (l : option (list A)) : appends (iter l).
Proof.
  apply appends_keeps_db, keeps_db_stateless. intros st.
  destruct l; reflexivity.
Qed.

(** X24.  [upsert] never updates.  [PostgresCollection.upsert] is [add],
    and [add] only inserts.  Let the table name and the metadata keys be
    identifiers.  Whatever the other arguments and whatever the outcome,
    every row that was stored before the call is stored after it, unchanged
    and in the same place; all the call can do to a table is put rows after
    the ones it has.  A record whose id is already stored is therefore not
    replaced. *)
Theorem upsert_only_appends category ids documents
    (metadatas : option (list Dict)) embeddings st n :
  identifier (_table_name category) ->
  Forall (fun metadata : Dict => Forall identifier (map fst metadata))
         (default [] metadatas) ->
  stored_rows (db st) n
  `prefix_of`
  stored_rows
    (db (state_after (upsert category ids documents metadatas embeddings) st))
    n.
Proof.
  intros _ _.
  revert st n. change (appends (upsert category ids documents metadatas
                                  embeddings)).
  unfold upsert, add.
  destruct embeddings as [embeddings|];
    (apply appends_bind; [apply appends_iter|]; intros ds;
     apply appends_bind; [apply appends_iter|]; intros ms;
     apply appends_for_each).
  - intros [[[id_ document] metadata] emb].
    apply appends_bind; [apply appends_insert_memory|]. intros _.
    apply appends_keeps_db, keeps_db_stateless, stateless_ret.
  - intros [[id_ document] metadata].
    apply appends_bind; [apply appends_insert_memory|]. intros _.
    apply appends_keeps_db, keeps_db_stateless, stateless_ret.
Qed.

(** *** [PostgresClient.add] *)

Lemma bind_success {A B} (m : M A) (k : A -> M B) st b st' :
  bind m k st = (inr b, st') ->
  exists a st1, m st = (inr a, st1) /\ k a st1 = (inr b, st').
Proof.
  unfold bind. destruct (m st) as [[e|a] st1]; [discriminate|].
  intros H. now exists a, st1.
Qed.

Lemma client_add_loop category n (l : list (string * Dict * Z)) st st' :
  Ident.parse (_table_name category) = Some n ->
  for_each
    (fun x : string * Dict * Z =>
       let '(document, metadata, id_) := x in
       _ensure_metadata_columns_exist category metadata ;;;
       let embedding := create_embedding document in
       execute (Insert (_table_name category) (VInt id_) document embedding
                       metadata) ;;;
       ret tt) l st = (inr tt, st') ->
  exists news,
    stored_rows (db st') n = stored_rows (db st) n ++ news
    /\ Forall2 row_of_triple news l.
Proof.
  intros Hp. revert st.
  induction l as [|[[document metadata] id_] l IH]; intros st Hrun.
  - injection Hrun as <-. exists []. split; [now rewrite app_nil_r|constructor].
  - cbn [for_each] in Hrun.
    apply bind_success in Hrun as ([] & st1 & Hbody & Hrest).
    cbv beta iota zeta in Hbody.
    apply bind_success in Hbody as ([] & st2 & Hcols & Hins).
    apply bind_success in Hins as (rs & st3 & Hexec & Hret).
    injection Hret as ->.
    destruct (ensure_columns_rows category metadata st n) as [_ Hrows].
    unfold state_after in Hrows. rewrite Hcols in Hrows. cbn [snd] in Hrows.
    unfold execute in Hexec. cbn [run] in Hexec.
    destruct (run_insert (db st2) _ _ _ _ _) as [err|[d' rs']] eqn:Hi;
      [discriminate|].
    injection Hexec as _ <-.
    apply run_insert_inr in Hi
      as (n' & t & r & Hp' & Hn & -> & _ & Hid & Hdoc & Hemb).
    rewrite Hp in Hp'. injection Hp' as <-.
    destruct (IH _ Hrest) as (news & Hnews & Hall).
    exists (r :: news). split.
    + rewrite Hnews. cbn [db].
      rewrite (stored_rows_insert _ _ _ _ _ _ Hn), decide_True by reflexivity.
      rewrite <- Hrows. unfold stored_rows at 1. rewrite Hn.
      now rewrite <- app_assoc.
    + constructor; [|exact Hall]. now repeat split.
Qed.

(** X25.  [PostgresClient.add] keeps the ids it is given.  When the call
    returns normally, the table of the category holds the rows it held
    before, followed by one new row for each triple of
    [zip(documents, metadatas, ids)], in that order: the row carries the id
    of the triple, its document, and the embedding computed from the
    document. *)
Theorem client_add_stores_under_ids category documents metadatas ids st :
  outcome (client_add category documents metadatas ids) st = inr tt ->
  exists n news,
    Ident.parse (_table_name category) = Some n
    /\ stored_rows
         (db (state_after (client_add category documents metadatas ids) st)) n
       = stored_rows (db st) n ++ news
    /\ Forall2 row_of_triple news (zip3 documents metadatas ids).
Proof.
  unfold outcome, state_after.
  destruct (client_add category documents metadatas ids st) as [o st'] eqn:Hrun.
  cbn [fst snd]. intros ->. unfold client_add in Hrun.
  apply bind_success in Hrun as ([] & st0 & Hens & Hloop).
  pose proof (ensure_table_exists_rows category st) as Hrows.
  unfold state_after in Hrows. rewrite Hens in Hrows. cbn [snd] in Hrows.
  rewrite ensure_table_exists_spec in Hens.
  destruct (Ident.parse (_table_name category)) as [n|] eqn:Hp;
    [|discriminate].
  destruct (client_add_loop category n _ _ _ Hp Hloop) as (news & Hnews & Hall).
  exists n, news. split; [reflexivity|]. split; [|exact Hall].
  now rewrite Hnews, Hrows.
Qed.

(** *** [_ensure_metadata_columns_exist], a second time *)

Lemma ensure_columns_present tn keys st n t :
  find_table (db st) tn = inr (n, t) ->
  Forall (fun key => key ∈ user_columns t ++ system_columns) keys ->
  for_each (ensure_column tn) keys st
  = (inr tt, mkState (db st) (log st ++ map (SelectColumnExists tn) keys)).
Proof.
  intros Hfind Hall. revert st Hfind.
  induction Hall as [|key keys Hkey _ IH]; intros st Hfind.
  - cbn. rewrite app_nil_r. now destruct st.
  - cbn [for_each map].
    assert (Hone : ensure_column tn key st
                   = (inr tt, mkState (db st)
                                (log st ++ [SelectColumnExists tn key]))).
    { rewrite ensure_column_spec, Hfind. now rewrite bool_decide_eq_true_2. }
    rewrite (bind_inr _ _ _ _ _ Hone). rewrite IH by exact Hfind.
    cbn [db log]. now rewrite <- app_assoc.
Qed.

Lemma ensure_columns_added tn keys st st1 n t :
  for_each (ensure_column tn) keys st = (inr tt, st1) ->
  Forall folded keys ->
  find_table (db st) tn = inr (n, t) ->
  exists t1,
    find_table (db st1) tn = inr (n, t1)
    /\ (forall c, c ∈ user_columns t -> c ∈ user_columns t1)
    /\ Forall (fun key => key ∈ user_columns t1 ++ system_columns) keys.
Proof.
  intros Hrun Hall. revert st t Hrun.
  induction Hall as [|key keys Hkey _ IH]; intros st t Hrun Hfind.
  - injection Hrun as <-. exists t. now repeat split.
  - cbn [for_each] in Hrun.
    apply bind_success in Hrun as ([] & st0 & Hone & Hrest).
    rewrite ensure_column_spec, Hfind in Hone.
    assert (Hn : ident tn = inr n /\ db st !! n = Some t).
    { revert Hfind. unfold find_table.
      destruct (ident tn) as [|n0]; cbn [and_then]; [discriminate|].
      destruct (db st !! n0) eqn:H0; [|discriminate].
      intros [= <- <-]. now split. }
    destruct Hn as [Hid Hn].
    destruct (bool_decide (key ∈ user_columns t ++ system_columns)) eqn:Hin.
    + injection Hone as <-. cbn [db] in IH.
      destruct (IH _ t Hrest Hfind) as (t1 & Hfind1 & Hmono & Hkeys).
      exists t1. split; [exact Hfind1|]. split; [exact Hmono|].
      constructor; [|exact Hkeys].
      apply bool_decide_eq_true_1 in Hin.
      apply elem_of_app in Hin as [Hin|Hin]; apply elem_of_app; auto.
    + unfold run_add_column in Hone. rewrite Hid in Hone.
      unfold ident at 1 in Hone. rewrite Hkey in Hone.
      cbn [and_then] in Hone. rewrite Hn, Hin in Hone.
      injection Hone as <-.
      set (t' := mkTable (t_columns t ++ [key]) (t_rows t)) in *.
      assert (Hfind' : find_table (<[n := t']> (db st)) tn = inr (n, t')).
      { unfold find_table. rewrite Hid. cbn [and_then].
        now rewrite lookup_insert_eq. }
      destruct (IH _ t' Hrest Hfind') as (t1 & Hfind1 & Hmono & Hkeys).
      assert (Hgrow : forall c, c ∈ user_columns t -> c ∈ user_columns t').
      { intros c. unfold user_columns, t'. cbn [t_columns].
        rewrite !elem_of_app. tauto. }
      exists t1. split; [exact Hfind1|]. split; [auto|].
      constructor; [|exact Hkeys].
      apply elem_of_app. left. apply Hmono.
      unfold user_columns, t'. cbn [t_columns].
      rewrite !elem_of_app, list_elem_of_singleton. auto.
Qed.

(** X26.  Ensuring the metadata columns a second time changes nothing.
    When [_ensure_metadata_columns_exist] has returned normally for keys
    that the engine reads as they are written (no upper-case letter to
    fold), the same call right after it returns normally as well, sends one
    catalogue [SELECT] per key and no [ALTER TABLE], and leaves the database
    as it is. *)
Theorem ensure_metadata_columns_again category metadata st st1 :
  _ensure_metadata_columns_exist category metadata st = (inr tt, st1) ->
  Forall folded (map fst metadata) ->
  _ensure_metadata_columns_exist category metadata st1
  = (inr tt,
     mkState (db st1)
             (log st1 ++ map (SelectColumnExists (_table_name category))
                             (map fst metadata))).
Proof.
  unfold _ensure_metadata_columns_exist.
  generalize (_table_name category) as tn. intros tn.
  generalize (map fst metadata) as keys. intros keys Hrun Hall.
  destruct keys as [|key keys].
  - cbn. rewrite app_nil_r. now destruct st1.
  - destruct (find_table (db st) tn) as [err|[n t]] eqn:Hfind.
    + cbn [for_each] in Hrun.
      apply bind_success in Hrun as ([] & st0 & Hone & _).
      rewrite ensure_column_spec, Hfind in Hone. discriminate.
    + destruct (ensure_columns_added tn _ st st1 n t Hrun Hall Hfind)
        as (t1 & Hfind1 & _ & Hkeys).
      exact (ensure_columns_present tn _ st1 n t1 Hfind1 Hkeys).
Qed.

End Further.

(** * The properties at concrete inputs *)

Example int_of_str_plain : PyStr.int_of_str "42" = Some 42.
Proof. reflexivity. Qed.
Example int_of_str_signed : PyStr.int_of_str " -7 " = Some (-7).
Proof. reflexivity. Qed.
Example int_of_str_underscore : PyStr.int_of_str "1_000" = Some 1000.
Proof. reflexivity. Qed.
Example int_of_str_word : PyStr.int_of_str "abc" = None.
Proof. reflexivity. Qed.
Example int_of_str_empty : PyStr.int_of_str "" = None.
Proof. reflexivity. Qed.
Example split_three :
  PyStr.split "_" "memory_my_notes" = ["memory"; "my"; "notes"].
Proof. reflexivity. Qed.
Example split_trailing : PyStr.split "_" "memory_" = ["memory"; ""].
Proof. reflexivity. Qed.
Example like_contains :
  like (list_ascii_of_string "%at s%") (list_ascii_of_string "cat sat") = true.
Proof. reflexivity. Qed.
Example parse_folds_case : Ident.parse "memory_Notes" = Some "memory_notes".
Proof. reflexivity. Qed.
Example parse_refuses_space : Ident.parse "my key" = None.
Proof. reflexivity. Qed.



(** C2 at [three_notes]. *)
Lemma delete_without_predicates_witness :
  Ident.parse (_table_name "notes") = Some "memory_notes"
  /\ exists st',
       delete "notes" None None None three_notes
       = (inl (PyException delete_message), st')
       /\ stored_rows (db st') "memory_notes"
          = stored_rows (db three_notes) "memory_notes".
Proof.
  split; [reflexivity|].
  destruct (delete_without_predicates "notes" three_notes "memory_notes"
              eq_refl) as (st' & Hdel & _ & _ & Hrows).
  exists st'. split; [exact Hdel|apply Hrows].
Defined.

(** C2, the claim as stated, at the category [my notes]: the table name is
    not an identifier, the engine refuses the [CREATE TABLE IF NOT EXISTS],
    and [delete] ends with the engine's error, not with the exception for
    the missing conditions. *)
Lemma delete_on_malformed_category :
  delete "my notes" None None None fresh
  = (inl (DatabaseError SyntaxError),
     mkState ∅ [CreateTableIfNotExists "memory_my notes"])
  /\ DatabaseError SyntaxError <> PyException delete_message.
Proof. split; [reflexivity|discriminate]. Qed.

(** C4, the claim as stated, at [null_tag]: the row holds NULL in [tag],
    and the mapping [get] returns has the key [tag], bound to [None]. *)
Lemma get_null_is_none :
  exists res st',
    get "notes" None None None None None get_include null_tag = (inr res, st')
    /\ g_metadatas res = [[("tag", VNone)]]
    /\ Forall (fun m => dict_get "tag" m = Some VNone) (g_metadatas res).
Proof.
  eexists _, _. split; [reflexivity|].
  split; [reflexivity|]. repeat constructor.
Qed.

Lemma get_metadata_of_every_column_witness :
  find_table (db three_notes) (_table_name "notes")
  = inr ("memory_notes", default empty_table (db three_notes !! "memory_notes"))
  /\ NoDup (user_columns (default empty_table (db three_notes !! "memory_notes")))
  /\ outcome (get "notes" None None None None None get_include) three_notes
     = inr (mkGetResult
              [VInt 0; VInt 1; VInt 2]
              [VStr "x"; VStr "yyyy"; VStr "zz"]
              [[("tag", VStr "a"); ("size", VNone)];
               [("tag", VNone); ("size", VStr "3")];
               [("tag", VNone); ("size", VNone)]]).
Proof.
  assert (Hfind : find_table (db three_notes) (_table_name "notes")
                  = inr ("memory_notes",
                         default empty_table (db three_notes !! "memory_notes")))
    by (reflexivity).
  assert (Hn : NoDup (user_columns
                        (default empty_table (db three_notes !! "memory_notes"))))
    by (apply (bool_decide_eq_true_1 _); reflexivity).
  split; [exact Hfind|]. split; [exact Hn|].
  destruct (get_metadata_of_every_column "notes" None None None None None
              get_include three_notes _ _ Hfind Hn) as (_ & _ & _ & _ & ->).
  reflexivity.
Defined.

Lemma get_malformed_ids_witness :
  SStr "abc" ∈ [SInt 1; SStr "abc"]
  /\ integer_form (SStr "abc") = false
  /\ exists e,
       get "notes" (Some [SInt 1; SStr "abc"]) None None None None get_include
           one_note = (inl e, one_note)
       /\ (e = PyException ids_message \/ e = ValueError).
Proof.
  assert (Hin : SStr "abc" ∈ [SInt 1; SStr "abc"])
    by (apply list_elem_of_In; simpl; tauto).
  split; [exact Hin|]. split; [reflexivity|].
  exact (get_malformed_ids "notes" [SInt 1; SStr "abc"] None None None None
                           get_include one_note (SStr "abc") Hin eq_refl).
Defined.

(** C8, the claim as stated, at [empty_notes]: the reserved key [id] is
    passed over without any error, and the key [my key] is spliced into an
    [ALTER TABLE] that the engine refuses. *)
Lemma reserved_and_malformed_keys_reach_engine :
  _ensure_metadata_columns_exist "notes" [("id", SStr "7")] empty_notes
  = (inr tt,
     mkState (db empty_notes)
             (log empty_notes ++ [SelectColumnExists "memory_notes" "id"]))
  /\ exists st',
       _ensure_metadata_columns_exist "notes" [("my key", SStr "v")] empty_notes
       = (inl (DatabaseError SyntaxError), st')
       /\ log st' = log empty_notes
                    ++ [SelectColumnExists "memory_notes" "my key";
                        AlterTableAddColumn "memory_notes" "my key"].
Proof.
  split; [reflexivity|].
  eexists. split; reflexivity.
Qed.

Lemma ensure_metadata_columns_unvalidated_witness :
  find_table (db empty_notes) (_table_name "notes")
  = inr ("memory_notes", empty_table)
  /\ "document" ∈ user_columns empty_table ++ system_columns
  /\ _ensure_metadata_columns_exist "notes" [("document", SStr "v")] empty_notes
     = (inr tt,
        mkState (db empty_notes)
                (log empty_notes
                 ++ [SelectColumnExists (_table_name "notes") "document"])).
Proof.
  assert (Hfind : find_table (db empty_notes) (_table_name "notes")
                  = inr ("memory_notes", empty_table))
    by (reflexivity).
  assert (Hin : "document" ∈ user_columns empty_table ++ system_columns)
    by (apply list_elem_of_In; simpl; tauto).
  split; [exact Hfind|]. split; [exact Hin|].
  destruct (ensure_metadata_columns_unvalidated "notes" [] "document" (SStr "v")
              empty_notes _ _ Hfind) as (_ & _ & Hpresent & _).
  exact (Hpresent Hin).
Defined.

(** C9, the claim as stated, at [one_note].  An update that supplies the
    document [""] and no embedding sends no [UPDATE]: no embedding is
    computed, and the stored document stays ["x"].  An update that writes
    the document through the metadata key [document] succeeds and leaves
    the embedding of ["x"] beside the document ["new"]. *)
Lemma update_document_embedding_diverge :
  let call := update "notes" [SInt 0] (Some [Some ""]) (Some [None]) None in
  let call' :=
    client_update "notes" (SInt 0) None (Some [("document", SStr "new")]) None in
  outcome call one_note = inr tt
  /\ log (state_after call one_note)
     = log one_note ++ [CreateTableIfNotExists "memory_notes"]
  /\ map r_document (stored_rows (db (state_after call one_note)) "memory_notes")
     = ["x"]
  /\ outcome call' one_note = inr tt
  /\ map r_document
         (stored_rows (db (state_after call' one_note)) "memory_notes")
     = ["new"]
  /\ map r_embedding
         (stored_rows (db (state_after call' one_note)) "memory_notes")
     = [Some (create_embedding "x")]
  /\ create_embedding "x" <> create_embedding "new".
Proof. intros call call'. repeat split; try reflexivity. discriminate. Qed.

Lemma update_document_with_embedding_witness :
  "hello" <> ""
  /\ (ensure_table_exists "notes" ;;;
      _ensure_metadata_columns_exist "notes" [("tag", SStr "b")]) one_note
     = (inr tt,
        state_after (ensure_table_exists "notes" ;;;
                     _ensure_metadata_columns_exist "notes" [("tag", SStr "b")])
                    one_note)
  /\ outcome (client_update "notes" (SInt 0) (Some "hello")
                            (Some [("tag", SStr "b")]) None) one_note
     = inr tt
  /\ outcome (client_update "notes" (SInt 0) (Some "hello")
                            (Some [("tag", SStr "b")]) None ;;;
              get "notes" (Some [SInt 0]) None None None None get_include)
             one_note
     = inr (mkGetResult [VInt 0] [VStr "hello"] [[("tag", VStr "b")]]).
Proof.
  assert (Hd : "hello" <> "") by discriminate.
  assert (Hprep :
    (ensure_table_exists "notes" ;;;
     _ensure_metadata_columns_exist "notes" [("tag", SStr "b")]) one_note
    = (inr tt,
       state_after (ensure_table_exists "notes" ;;;
                    _ensure_metadata_columns_exist "notes" [("tag", SStr "b")])
                   one_note)) by (reflexivity).
  split; [exact Hd|]. split; [exact Hprep|].
  pose proof (update_document_with_embedding "notes" (SInt 0) "hello"
                (Some [("tag", SStr "b")]) one_note
                (state_after (ensure_table_exists "notes" ;;;
                              _ensure_metadata_columns_exist "notes"
                                [("tag", SStr "b")]) one_note)) as H.
  cbv zeta in H. destruct H as (H & _ & _).
  destruct (H Hd Hprep) as (_ & -> & _).
  split; reflexivity.
Defined.

Lemma insert_memory_assigns_row_count_witness :
  (ensure_table_exists "notes" ;;;
   _ensure_metadata_columns_exist "notes" [("tag", SStr "c")]) one_note
  = (inr tt,
     state_after (ensure_table_exists "notes" ;;;
                  _ensure_metadata_columns_exist "notes" [("tag", SStr "c")])
                 one_note)
  /\ outcome (insert_memory "notes" "second" [("tag", SStr "c")] None None)
             one_note = inr (VInt 1)
  /\ outcome (count "notes") one_note = inr (VInt 1).
Proof.
  assert (Hprep :
    (ensure_table_exists "notes" ;;;
     _ensure_metadata_columns_exist "notes" [("tag", SStr "c")]) one_note
    = (inr tt,
       state_after (ensure_table_exists "notes" ;;;
                    _ensure_metadata_columns_exist "notes" [("tag", SStr "c")])
                   one_note)) by (reflexivity).
  split; [exact Hprep|].
  destruct (insert_memory_assigns_row_count "notes" "second"
              [("tag", SStr "c")] None one_note _ Hprep)
    as (n & t & Hp & Ht & _ & _ & -> & _).
  split; [|reflexivity].
  assert (Hn : Some n = Some "memory_notes") by (rewrite <- Hp; reflexivity).
  injection Hn as ->. clear Hp.
  assert (Hlen : from_option (fun t => length (t_rows t)) 0%nat
                   (db (state_after
                          (ensure_table_exists "notes" ;;;
                           _ensure_metadata_columns_exist "notes"
                             [("tag", SStr "c")]) one_note) !! "memory_notes")
                 = 1%nat) by reflexivity.
  rewrite Ht in Hlen. cbn [from_option] in Hlen.
  rewrite Hlen. reflexivity.
Defined.

(** ** The further properties at concrete inputs *)

Lemma list_collections_after_ensure_witness :
  Ident.parse (_table_name "notes") = Some (_table_name "notes")
  /\ ("_"%char ∉ list_ascii_of_string "notes")
  /\ exists cats,
       outcome (ensure_table_exists "notes" ;;; list_collections) fresh
       = inr cats
       /\ "notes" ∈ map name cats.
Proof.
  assert (Hp : Ident.parse (_table_name "notes") = Some (_table_name "notes"))
    by reflexivity.
  assert (Hc : "_"%char ∉ list_ascii_of_string "notes")
    by (apply (bool_decide_eq_false_1 _); reflexivity).
  split; [exact Hp|]. split; [exact Hc|].
  exact (list_collections_after_ensure "notes" fresh Hp Hc).
Defined.


Lemma query_needs_texts_witness :
  Ident.parse (_table_name "notes") = Some "memory_notes"
  /\ outcome (query "notes" None None 2 None None query_include) one_note
     = inl TypeError.
Proof.
  split; [reflexivity|].
  pose proof (query_needs_texts "notes" None 2 None None query_include one_note
                "memory_notes" eq_refl) as H.
  cbv zeta in H. exact (proj1 H).
Defined.

Lemma query_negative_limit_witness :
  Ident.parse (_table_name "notes") = Some "memory_notes"
  /\ -1 < 0
  /\ outcome (query "notes" None (Some ["abc"]) (-1) None None query_include)
             one_note
     = inl (DatabaseError InvalidRowCount).
Proof.
  split; [reflexivity|]. split; [lia|].
  pose proof (query_negative_limit "notes" None "abc" [] (-1) None None
                query_include one_note "memory_notes" eq_refl ltac:(lia)) as H.
  cbv zeta in H. exact (proj1 H).
Defined.


Lemma get_page_witness :
  find_table (db three_notes) (_table_name "notes")
  = inr ("memory_notes", default empty_table (db three_notes !! "memory_notes"))
  /\ NoDup (user_columns (default empty_table (db three_notes !! "memory_notes")))
  /\ outcome (get "notes" None None (Some 2) (Some 1) None get_include)
             three_notes
     = inr (mkGetResult
              [VInt 1; VInt 2]
              [VStr "yyyy"; VStr "zz"]
              [[("tag", VNone); ("size", VStr "3")];
               [("tag", VNone); ("size", VNone)]]).
Proof.
  assert (Hfind : find_table (db three_notes) (_table_name "notes")
                  = inr ("memory_notes",
                         default empty_table (db three_notes !! "memory_notes")))
    by reflexivity.
  assert (Hn : NoDup (user_columns
                        (default empty_table (db three_notes !! "memory_notes"))))
    by (apply (bool_decide_eq_true_1 _); reflexivity).
  split; [exact Hfind|]. split; [exact Hn|].
  pose proof (get_page "notes" None None (Some 2) (Some 1) None get_include
                three_notes _ _ Hfind Hn eq_refl) as H.
  cbv zeta in H. rewrite H. reflexivity.
Defined.

Lemma get_pages_compose_witness :
  find_table (db three_notes) (_table_name "notes")
  = inr ("memory_notes", default empty_table (db three_notes !! "memory_notes"))
  /\ NoDup (user_columns (default empty_table (db three_notes !! "memory_notes")))
  /\ exists r1 r2,
       outcome (get "notes" None None (Some 1) (Some 1) None get_include)
               three_notes = inr r1
       /\ outcome (get "notes" None None (Some 1) (Some (1 + 1)) None
                       get_include) three_notes = inr r2
       /\ outcome (get "notes" None None (Some (1 + 1)) (Some 1) None
                       get_include) three_notes = inr (results_app r1 r2).
Proof.
  assert (Hfind : find_table (db three_notes) (_table_name "notes")
                  = inr ("memory_notes",
                         default empty_table (db three_notes !! "memory_notes")))
    by reflexivity.
  assert (Hn : NoDup (user_columns
                        (default empty_table (db three_notes !! "memory_notes"))))
    by (apply (bool_decide_eq_true_1 _); reflexivity).
  split; [exact Hfind|]. split; [exact Hn|].
  exact (get_pages_compose "notes" None None get_include three_notes _ _ 1 1 1
           Hfind Hn ltac:(lia) ltac:(lia) ltac:(lia)).
Defined.

Lemma peek_first_rows_witness :
  find_table (db three_notes) (_table_name "notes")
  = inr ("memory_notes", default empty_table (db three_notes !! "memory_notes"))
  /\ NoDup (user_columns (default empty_table (db three_notes !! "memory_notes")))
  /\ 0 <= 2
  /\ exists res,
       outcome (peek "notes" 2) three_notes = inr res
       /\ g_ids res = [VInt 0; VInt 1].
Proof.
  assert (Hfind : find_table (db three_notes) (_table_name "notes")
                  = inr ("memory_notes",
                         default empty_table (db three_notes !! "memory_notes")))
    by reflexivity.
  assert (Hn : NoDup (user_columns
                        (default empty_table (db three_notes !! "memory_notes"))))
    by (apply (bool_decide_eq_true_1 _); reflexivity).
  split; [exact Hfind|]. split; [exact Hn|]. split; [lia|].
  destruct (peek_first_rows "notes" 2 three_notes _ _ Hfind Hn ltac:(lia))
    as (res & Hres & -> & _).
  eexists. split; [exact Hres|reflexivity].
Defined.

Lemma get_by_ids_witness :
  find_table (db three_notes) (_table_name "notes")
  = inr ("memory_notes", default empty_table (db three_notes !! "memory_notes"))
  /\ NoDup (user_columns (default empty_table (db three_notes !! "memory_notes")))
  /\ NoDup (map r_id (t_rows (default empty_table
                                (db three_notes !! "memory_notes"))))
  /\ Forall2 (fun i z => id_value i = Some z) [SStr "2"; SInt 0] [2; 0]
  /\ outcome (get "notes" (Some [SStr "2"; SInt 0]) None None None None
                  get_include) three_notes
     = inr (mkGetResult
              [VInt 0; VInt 2]
              [VStr "x"; VStr "zz"]
              [[("tag", VStr "a"); ("size", VNone)];
               [("tag", VNone); ("size", VNone)]]).
Proof.
  assert (Hfind : find_table (db three_notes) (_table_name "notes")
                  = inr ("memory_notes",
                         default empty_table (db three_notes !! "memory_notes")))
    by reflexivity.
  assert (Hn : NoDup (user_columns
                        (default empty_table (db three_notes !! "memory_notes"))))
    by (apply (bool_decide_eq_true_1 _); reflexivity).
  assert (Hids : NoDup (map r_id (t_rows (default empty_table
                                            (db three_notes !! "memory_notes")))))
    by (apply (bool_decide_eq_true_1 _); reflexivity).
  assert (Hall : Forall2 (fun i z => id_value i = Some z)
                         [SStr "2"; SInt 0] [2; 0])
    by (repeat constructor).
  split; [exact Hfind|]. split; [exact Hn|]. split; [exact Hids|].
  split; [exact Hall|].
  rewrite (get_by_ids "notes" [SStr "2"; SInt 0] [2; 0] None None get_include
             three_notes _ _ Hfind Hn Hids ltac:(discriminate) Hall).
  reflexivity.
Defined.

Lemma delete_malformed_ids_witness :
  Ident.parse (_table_name "notes") = Some "memory_notes"
  /\ SStr "-1" ∈ [SInt 0; SStr "-1"]
  /\ digits_form (SStr "-1") = false
  /\ outcome (delete "notes" (Some [SInt 0; SStr "-1"]) None None) one_note
     = inl (PyException ids_message)
  /\ stored_rows (db (state_after
                        (delete "notes" (Some [SInt 0; SStr "-1"]) None None)
                        one_note)) "memory_notes"
     = stored_rows (db one_note) "memory_notes".
Proof.
  assert (Hin : SStr "-1" ∈ [SInt 0; SStr "-1"])
    by (apply list_elem_of_In; simpl; tauto).
  split; [reflexivity|]. split; [exact Hin|]. split; [reflexivity|].
  pose proof (delete_malformed_ids "notes" [SInt 0; SStr "-1"] None None
                one_note "memory_notes" (SStr "-1") eq_refl Hin eq_refl) as H.
  cbv zeta in H. destruct H as (Hout & _ & Hrows).
  split; [exact Hout|apply Hrows].
Defined.

Lemma delete_by_ids_witness :
  find_table (db three_notes) (_table_name "notes")
  = inr ("memory_notes", default empty_table (db three_notes !! "memory_notes"))
  /\ forallb digits_form [SStr "1"; SInt 5] = true
  /\ forallb int4_form [SStr "1"; SInt 5] = true
  /\ outcome (delete "notes" (Some [SStr "1"; SInt 5]) None None) three_notes
     = inr tt
  /\ map r_id (stored_rows
                 (db (state_after
                        (delete "notes" (Some [SStr "1"; SInt 5]) None None)
                        three_notes)) "memory_notes")
     = [0; 2].
Proof.
  assert (Hfind : find_table (db three_notes) (_table_name "notes")
                  = inr ("memory_notes",
                         default empty_table (db three_notes !! "memory_notes")))
    by reflexivity.
  split; [exact Hfind|]. split; [reflexivity|]. split; [reflexivity|].
  destruct (delete_by_ids "notes" [SStr "1"; SInt 5] three_notes _ _ Hfind
              eq_refl eq_refl) as (ints & Hints & Hdel).
  unfold outcome, state_after. rewrite Hdel. cbn [fst snd db].
  split; [reflexivity|].
  apply Forall2_cons_inv_l in Hints as (z1 & ints1 & Hz1 & Hints & ->).
  apply Forall2_cons_inv_l in Hints as (z2 & ints2 & Hz2 & Hints & ->).
  apply Forall2_nil_inv_l in Hints as ->.
  assert (H1 : Some z1 = Some 1) by (rewrite <- Hz1; reflexivity).
  assert (H2 : Some z2 = Some 5) by (rewrite <- Hz2; reflexivity).
  injection H1 as ->. injection H2 as ->.
  reflexivity.
Defined.

Lemma delete_then_get_witness :
  find_table (db three_notes) (_table_name "notes")
  = inr ("memory_notes", default empty_table (db three_notes !! "memory_notes"))
  /\ forallb digits_form [SInt 0; SStr "2"] = true
  /\ forallb int4_form [SInt 0; SStr "2"] = true
  /\ outcome (delete "notes" (Some [SInt 0; SStr "2"]) None None ;;;
              get "notes" (Some [SInt 0; SStr "2"]) None None None None
                  get_include) three_notes
     = inr (mkGetResult [] [] []).
Proof.
  assert (Hfind : find_table (db three_notes) (_table_name "notes")
                  = inr ("memory_notes",
                         default empty_table (db three_notes !! "memory_notes")))
    by reflexivity.
  split; [exact Hfind|]. split; [reflexivity|]. split; [reflexivity|].
  exact (delete_then_get "notes" [SInt 0; SStr "2"] None None get_include
           three_notes _ _ Hfind eq_refl eq_refl ltac:(discriminate)).
Defined.

Lemma delete_needs_condition_witness :
  Ident.parse (_table_name "notes") = Some "memory_notes"
  /\ dict_get "$contains" (default [] (Some [("$regex", "x")])) = None
  /\ outcome (delete "notes" None (Some []) (Some [("$regex", "x")])) one_note
     = inl (PyException delete_message)
  /\ stored_rows (db (state_after
                        (delete "notes" None (Some []) (Some [("$regex", "x")]))
                        one_note)) "memory_notes"
     = stored_rows (db one_note) "memory_notes".
Proof.
  split; [reflexivity|]. split; [reflexivity|].
  pose proof (delete_needs_condition "notes" (Some []) (Some [("$regex", "x")])
                one_note "memory_notes" eq_refl eq_refl eq_refl) as H.
  cbv zeta in H. destruct H as (Hout & _ & Hrows).
  split; [exact Hout|apply Hrows].
Defined.

Lemma update_without_document_witness :
  truthy_str (Some "") = false
  /\ truthy_list (Some ([] : Dict)) = false
  /\ client_update "notes" (SInt 0) (Some "") (Some []) (Some 5) one_note
     = ensure_table_exists "notes" one_note.
Proof.
  split; [reflexivity|]. split; [reflexivity|].
  destruct (update_without_document (EP:=length_provider) "notes" (SInt 0) (Some "") (Some [])
              (Some 5) None one_note eq_refl) as [_ H].
  exact (H eq_refl).
Defined.

Lemma add_update_need_lists_witness :
  add "notes" [SInt 1] None (Some [[]]) None one_note = (inl TypeError, one_note)
  /\ update "notes" [SInt 0] (Some [Some "y"]) None None one_note
     = (inl TypeError, one_note).
Proof.
  destruct (add_update_need_lists "notes" [SInt 1] None one_note) as [Ha _].
  destruct (add_update_need_lists "notes" [SInt 0] None one_note) as [_ Hu].
  split; [apply Ha; now left|apply Hu; now right].
Defined.

Lemma insert_memory_id_taken_witness :
  let prepare :=
    ensure_table_exists "notes" ;;; _ensure_metadata_columns_exist "notes" [] in
  let t := default empty_table
             (db (state_after prepare shifted_note) !! "memory_notes") in
  prepare shifted_note = (inr tt, state_after prepare shifted_note)
  /\ db (state_after prepare shifted_note) !! "memory_notes" = Some t
  /\ Z.of_nat (length (t_rows t)) ∈ map r_id (t_rows t)
  /\ (exists err,
        outcome (insert_memory "notes" "y" [] None None) shifted_note
        = inl (DatabaseError err))
  /\ stored_rows
       (db (state_after (insert_memory "notes" "y" [] None None) shifted_note))
       "memory_notes"
     = stored_rows (db shifted_note) "memory_notes".
Proof.
  intros prepare t.
  assert (Hprep : prepare shifted_note
                  = (inr tt, state_after prepare shifted_note)) by reflexivity.
  assert (Ht : db (state_after prepare shifted_note) !! "memory_notes" = Some t)
    by reflexivity.
  assert (Hin : Z.of_nat (length (t_rows t)) ∈ map r_id (t_rows t))
    by (apply (bool_decide_eq_true_1 _); reflexivity).
  split; [exact Hprep|]. split; [exact Ht|]. split; [exact Hin|].
  pose proof (insert_memory_id_taken "notes" "y" [] None shifted_note _
                "memory_notes" t Hprep eq_refl Ht Hin) as H.
  cbv zeta in H. destruct H as [Herr Hrows].
  split; [exact Herr|apply Hrows].
Defined.

Lemma insert_memory_keeps_dense_ids_witness :
  let metadata := [("tag", SStr "c")] in
  let prepare :=
    ensure_table_exists "notes" ;;;
    _ensure_metadata_columns_exist "notes" metadata in
  let t := default empty_table
             (db (state_after prepare one_note) !! "memory_notes") in
  prepare one_note = (inr tt, state_after prepare one_note)
  /\ db (state_after prepare one_note) !! "memory_notes" = Some t
  /\ dense_ids (t_rows t)
  /\ outcome (insert_memory "notes" "second" metadata None None) one_note
     = inr (VInt 1)
  /\ exists r,
       stored_rows
         (db (state_after (insert_memory "notes" "second" metadata None None)
                          one_note)) "memory_notes"
       = t_rows t ++ [r]
       /\ dense_ids (t_rows t ++ [r]).
Proof.
  intros metadata prepare t.
  assert (Hprep : prepare one_note = (inr tt, state_after prepare one_note))
    by reflexivity.
  assert (Ht : db (state_after prepare one_note) !! "memory_notes" = Some t)
    by reflexivity.
  assert (Hd : dense_ids (t_rows t)) by reflexivity.
  assert (Hout : outcome (insert_memory "notes" "second" metadata None None)
                         one_note = inr (VInt 1)) by reflexivity.
  split; [exact Hprep|]. split; [exact Ht|]. split; [exact Hd|].
  split; [exact Hout|].
  pose proof (insert_memory_keeps_dense_ids "notes" "second" metadata None
                one_note _ "memory_notes" t Hprep eq_refl Ht Hd) as H.
  cbv zeta in H. destruct H as [_ H].
  destruct (H _ Hout) as (_ & r & Hrows & _ & Hdense).
  exists r. split; [exact Hrows|exact Hdense].
Defined.

Lemma insert_then_get_witness :
  let metadata := [("tag", SStr "c"); ("size", SInt 3)] in
  let prepare :=
    ensure_table_exists "notes" ;;;
    _ensure_metadata_columns_exist "notes" metadata in
  let t := default empty_table
             (db (state_after prepare one_note) !! "memory_notes") in
  prepare one_note = (inr tt, state_after prepare one_note)
  /\ db (state_after prepare one_note) !! "memory_notes" = Some t
  /\ NoDup (user_columns t)
  /\ outcome (insert_memory "notes" "second" metadata None None) one_note
     = inr (VInt 1)
  /\ exists mapping,
       outcome (insert_memory "notes" "second" metadata None None ;;;
                get "notes" (Some [SInt 1]) None None None None get_include)
               one_note
       = inr (mkGetResult [VInt 1] [VStr "second"] [mapping])
       /\ map fst mapping = ["tag"; "size"]
       /\ ("tag", VStr "c") ∈ mapping
       /\ ("size", VStr "3") ∈ mapping.
Proof.
  intros metadata prepare t.
  assert (Hprep : prepare one_note = (inr tt, state_after prepare one_note))
    by reflexivity.
  assert (Ht : db (state_after prepare one_note) !! "memory_notes" = Some t)
    by reflexivity.
  assert (Hn : NoDup (user_columns t))
    by (apply (bool_decide_eq_true_1 _); reflexivity).
  assert (Hout : outcome (insert_memory "notes" "second" metadata None None)
                         one_note = inr (VInt 1)) by reflexivity.
  split; [exact Hprep|]. split; [exact Ht|]. split; [exact Hn|].
  split; [exact Hout|].
  destruct (insert_then_get "notes" "second" metadata None None None
              get_include one_note _ "memory_notes" t (VInt 1) Hprep eq_refl
              Ht Hn Hout) as (k & mapping & Hk & Hget & Hkeys & Hall).
  injection Hk as <-. exists mapping.
  split; [exact Hget|]. split; [exact Hkeys|]. split.
  - apply (Hall "tag" (SStr "c") "tag"); [|reflexivity].
    apply list_elem_of_In; simpl; tauto.
  - apply (Hall "size" (SInt 3) "size"); [|reflexivity].
    apply list_elem_of_In; simpl; tauto.
Defined.

Lemma client_add_stores_under_ids_witness :
  outcome (client_add "notes" ["y"; "z"] [[("tag", SStr "b")]; []] [7; 9])
          one_note = inr tt
  /\ exists n news,
       Ident.parse (_table_name "notes") = Some n
       /\ stored_rows
            (db (state_after
                   (client_add "notes" ["y"; "z"] [[("tag", SStr "b")]; []]
                               [7; 9]) one_note)) n
          = stored_rows (db one_note) n ++ news
       /\ Forall2 row_of_triple news
                  [("y", [("tag", SStr "b")], 7); ("z", [], 9)].
Proof.
  assert (Hout : outcome (client_add "notes" ["y"; "z"]
                            [[("tag", SStr "b")]; []] [7; 9]) one_note
                 = inr tt) by reflexivity.
  split; [exact Hout|].
  exact (client_add_stores_under_ids "notes" ["y"; "z"]
           [[("tag", SStr "b")]; []] [7; 9] one_note Hout).
Defined.

Lemma ensure_metadata_columns_again_witness :
  let metadata := [("tag", SStr "a"); ("size", SInt 3)] in
  let st1 :=
    state_after (_ensure_metadata_columns_exist "notes" metadata) empty_notes in
  _ensure_metadata_columns_exist "notes" metadata empty_notes = (inr tt, st1)
  /\ Forall folded (map fst metadata)
  /\ _ensure_metadata_columns_exist "notes" metadata st1
     = (inr tt,
        mkState (db st1)
                (log st1 ++ [SelectColumnExists "memory_notes" "tag";
                             SelectColumnExists "memory_notes" "size"])).
Proof.
  intros metadata st1.
  assert (Hrun : _ensure_metadata_columns_exist "notes" metadata empty_notes
                 = (inr tt, st1)) by reflexivity.
  assert (Hall : Forall folded (map fst metadata))
    by (repeat constructor).
  split; [exact Hrun|]. split; [exact Hall|].
  exact (ensure_metadata_columns_again "notes" metadata empty_notes st1 Hrun
           Hall).
Defined.

Lemma get_reads_only_witness :
  identifier (_table_name "notes")
  /\ db (state_after
           (get "notes" (Some [SInt 0]) None None None None get_include)
           three_notes)
     = db three_notes.
Proof.
  assert (Hid : identifier (_table_name "notes"))
    by (eexists; reflexivity).
  split; [exact Hid|].
  pose proof (get_reads_only "notes" (Some [SInt 0]) None None None None
                get_include three_notes Hid) as H.
  cbv zeta in H. exact (proj1 H).
Defined.


Lemma delete_only_removes_witness :
  let call := delete "notes" None (Some [("tag", SStr "a")]) None in
  identifier (_table_name "notes")
  /\ Forall identifier (map fst (default [] (Some [("tag", SStr "a")])))
  /\ stored_rows (db (state_after call three_notes)) "memory_notes"
     `sublist_of` stored_rows (db three_notes) "memory_notes"
  /\ map r_id (stored_rows (db (state_after call three_notes)) "memory_notes")
     = [1; 2].
Proof.
  intros call.
  assert (Hid : identifier (_table_name "notes"))
    by (eexists; reflexivity).
  assert (Hkeys : Forall identifier
                         (map fst (default [] (Some [("tag", SStr "a")]))))
    by (constructor; [eexists; reflexivity|constructor]).
  split; [exact Hid|]. split; [exact Hkeys|].
  split; [|reflexivity].
  exact (delete_only_removes "notes" None (Some [("tag", SStr "a")]) None
           three_notes "memory_notes" Hid Hkeys).
Defined.

Lemma update_touches_only_its_id_witness :
  let call :=
    client_update "notes" (SInt 1) (Some "new") (Some [("tag", SStr "b")])
                  None in
  let before := stored_rows (db three_notes) "memory_notes" in
  let after := stored_rows (db (state_after call three_notes)) "memory_notes" in
  identifier (_table_name "notes")
  /\ Forall identifier (map fst (default [] (Some [("tag", SStr "b")])))
  /\ outcome call three_notes = inr tt
  /\ length after = 3%nat
  /\ forall r, r ∈ before -> r_id r <> 1 -> r ∈ after.
Proof.
  intros call before after.
  assert (Hid : identifier (_table_name "notes"))
    by (eexists; reflexivity).
  assert (Hkeys : Forall identifier
                         (map fst (default [] (Some [("tag", SStr "b")]))))
    by (constructor; [eexists; reflexivity|constructor]).
  split; [exact Hid|]. split; [exact Hkeys|]. split; [reflexivity|].
  pose proof (update_touches_only_its_id "notes" (SInt 1) (Some "new")
                (Some [("tag", SStr "b")]) None three_notes "memory_notes"
                Hid Hkeys) as H.
  cbv zeta in H. destruct H as (_ & Hlen & Hkeep & _).
  split; [exact Hlen|].
  intros r Hr Hne. apply Hkeep; [exact Hr|].
  intros Hits. apply Hne. unfold its_row in Hits. cbn in Hits. congruence.
Defined.

Lemma upsert_only_appends_witness :
  let call :=
    upsert "notes" [SInt 0] (Some ["y"]) (Some [[("tag", SStr "z")]]) None in
  identifier (_table_name "notes")
  /\ Forall (fun metadata : Dict => Forall identifier (map fst metadata))
            (default [] (Some [[("tag", SStr "z")]]))
  /\ stored_rows (db one_note) "memory_notes"
     `prefix_of` stored_rows (db (state_after call one_note)) "memory_notes"
  /\ map r_document
         (stored_rows (db (state_after call one_note)) "memory_notes")
     = ["x"; "y"].
Proof.
  intros call.
  assert (Hid : identifier (_table_name "notes"))
    by (eexists; reflexivity).
  assert (Hkeys : Forall (fun metadata : Dict =>
                            Forall identifier (map fst metadata))
                         (default [] (Some [[("tag", SStr "z")]])))
    by (constructor;
        [constructor; [eexists; reflexivity|constructor]|constructor]).
  split; [exact Hid|]. split; [exact Hkeys|].
  split; [|reflexivity].
  exact (upsert_only_appends "notes" [SInt 0] (Some ["y"])
           (Some [[("tag", SStr "z")]]) None one_note "memory_notes"
           Hid Hkeys).
Defined.
